(** * chat_server: the subscription matcher and the connection registries

    A shallow embedding of [app/services/subscriptions.py],
    [app/services/messages.py], [app/websocket_manager.py] and of the
    message handlers of [app/main.py] and [app/chat.py], followed by the
    properties of the matcher, the dispatcher and the registries.

    Conventions of the embedding.
    - A Python [str] is a [string]: the sequence of its code points, each
      below 256.  The keyword functions are given a second time over
      lists of code points ([Unicode]), for what this leaves out.
    - A Python [float] is a binary64 [float]; [+ - * /], the comparisons and
      [sqrt] are the IEEE 754 ones.  The C library functions behind
      [math.sin], [math.cos], [math.asin] and [**] are an interface
      ([MathModule]) and may raise; [datetime.fromisoformat] and
      [datetime.isoformat] are an interface too ([DatetimeModule]).
    - A naive [datetime] (the code writes [datetime.utcnow()], and the
      store gives naive datetimes back) is an integer that orders instants
      chronologically.  A datetime that comes with a message can be aware
      of its offset from UTC ([pydatetime]); comparing an aware datetime
      with a naive one raises [TypeError].
    - A document is a record whose fields have the types of
      [app/schemas.py]; [None] in a field stands for a key that is missing
      (or, for an [Optional] field, null).  The source reads such keys with
      [.get] and cannot tell the two apart.  The coordinates of a location
      are read with a subscript: there [None] is a missing key and raises
      [KeyError].
    - A function that can raise returns a [result].
    - The MongoDB collection of subscriptions is the list of its
      documents; [find] keeps those that satisfy the query.
    - A method of a registry runs from start to end without another task
      running in between; a send that fails is a [send_json] that raises
      [RuntimeError], the exception the registries catch.  What a registry
      sends is a [frame], a dictionary that [json.dumps] can encode; the
      dictionary that [store_message] returns holds an [ObjectId] and
      cannot be encoded, and what the handlers do with it is modelled with
      the handlers. *)

From Stdlib Require Import ZArith String Ascii Bool Lia.
From Stdlib Require Import PrimFloat.
From stdpp Require Import gmap strings list sorting.

Local Open Scope string_scope.
Local Open Scope list_scope.

(** ** Exceptions *)

Inductive exn : Type :=
| KeyError (key : string)
| ValueError (msg : string)
| OverflowError (msg : string)
| TypeError (msg : string).

Inductive result (A : Type) : Type :=
| Ok (a : A)
| Raise (e : exn).
Arguments Ok {A} a.
Arguments Raise {A} e.

#[export] Instance result_ret : MRet result := fun A a => Ok a.
#[export] Instance result_bind : MBind result := fun A B f m =>
  match m with
  | Ok a => f a
  | Raise e => Raise e
  end.

(** Python's short-circuit [and] on conditions that may raise: the right
    operand is not evaluated when the left one is false. *)
Definition and_then (a b : result bool) : result bool :=
  a ≫= (λ x : bool, if x then b else Ok false).
Infix "&&&" := and_then (at level 40, left associativity).

(** ** Python strings *)

Module Str.

(** [str.lower] on one code point below 256: [A-Z] and the Latin-1
    capitals U+00C0..U+00DE (but the multiplication sign U+00D7). *)
Definition lower_char (c : ascii) : ascii :=
  let n := N_of_ascii c in
  if ((65 <=? n) && (n <=? 90))%N then ascii_of_N (n + 32)
  else if ((192 <=? n) && (n <=? 222) && negb (n =? 215))%N
       then ascii_of_N (n + 32)
  else c.

Fixpoint lower (s : string) : string :=
  match s with
  | EmptyString => EmptyString
  | String c s' => String (lower_char c) (lower s')
  end.

(** [str.isspace] on one code point below 256. *)
Definition isspace (c : ascii) : bool :=
  let n := N_of_ascii c in
  (((9 <=? n) && (n <=? 13)) || ((28 <=? n) && (n <=? 32))
   || (n =? 133) || (n =? 160))%N.

Definition is_empty (s : string) : bool :=
  match s with EmptyString => true | _ => false end.

Fixpoint lstrip (s : string) : string :=
  match s with
  | EmptyString => EmptyString
  | String c s' => if isspace c then lstrip s' else s
  end.

Fixpoint rstrip (s : string) : string :=
  match s with
  | EmptyString => EmptyString
  | String c s' =>
      let r := rstrip s' in
      if isspace c && is_empty r then EmptyString else String c r
  end.

(** [s.strip()] *)
Definition strip (s : string) : string := rstrip (lstrip s).

Fixpoint startswith (s p : string) {struct p} : bool :=
  match p, s with
  | EmptyString, _ => true
  | String a p', String b s' => if ascii_dec a b then startswith s' p' else false
  | String _ _, EmptyString => false
  end.

(** [k in s] for two strings: [k] occurs in [s] as a substring. *)
Fixpoint contains (s k : string) : bool :=
  startswith s k ||
  match s with
  | EmptyString => false
  | String _ s' => contains s' k
  end.

End Str.

(** Truth value of an optional string: [None] and [""] are falsy. *)
Definition str_truthy (v : option string) : bool :=
  match v with
  | Some s => negb (Str.is_empty s)
  | None => false
  end.

(** ** Floats and the [math] module *)

Definition EARTH_RADIUS_KM : float := 6371.0%float.

Class MathModule := {
  math_sin : float → result float;
  math_cos : float → result float;
  math_asin : float → result float;
  (** [x ** y] on floats *)
  float_pow : float → float → result float;
}.

(** [math.radians]: multiplication by [pi / 180]. *)
Definition radians (x : float) : float :=
  (x * (0x1.921fb54442d18p+1 / 180))%float.

(** [math.sqrt]: a domain error below zero, the IEEE square root elsewhere. *)
Definition math_sqrt (x : float) : result float :=
  if (x <? 0)%float then Raise (ValueError "math domain error")
  else Ok (PrimFloat.sqrt x).

(** Truth value of a float: zero (of either sign) is falsy, a NaN is not. *)
Definition float_truthy (x : float) : bool := negb (x =? 0)%float.

(** ** Datetimes *)

(** A naive datetime: what [datetime.utcnow()] gives and what the store
    gives back for a date. *)
Definition datetime : Type := Z.

(** A [datetime] object: naive, or aware of its offset from UTC.  An aware
    one is given by the naive datetime of the same instant in UTC and by
    its offset. *)
Inductive pydatetime : Type :=
| Naive (t : datetime)
| Aware (utc : datetime) (utcoffset : Z).

Class DatetimeModule := {
  (** [datetime.fromisoformat]; [None] stands for [ValueError] *)
  fromisoformat : string → option pydatetime;
  isoformat : pydatetime → string;
}.

(** [a < b] on two datetimes: two naive ones and two aware ones are
    ordered; a naive and an aware one are not, and the comparison raises. *)
Definition naive_and_aware : exn :=
  TypeError "can't compare offset-naive and offset-aware datetimes".

Definition datetime_lt (a b : pydatetime) : result bool :=
  match a, b with
  | Naive ta, Naive tb => Ok (ta <? tb)%Z
  | Aware ua _, Aware ub _ => Ok (ua <? ub)%Z
  | _, _ => Raise naive_and_aware
  end.

(** A time as it sits in a message: a [datetime] object or a string. *)
Inductive pytime : Type :=
| TimeObj (d : pydatetime)
| TimeStr (s : string).

Definition pytime_truthy (v : option pytime) : bool :=
  match v with
  | Some (TimeObj _) => true
  | Some (TimeStr s) => negb (Str.is_empty s)
  | None => false
  end.

(** A date as the store keeps it: an aware datetime is written as its
    instant and read back naive, in UTC. *)
Definition as_stored (v : option pytime) : option pytime :=
  match v with
  | Some (TimeObj (Aware utc _)) => Some (TimeObj (Naive utc))
  | other => other
  end.

(** ** Documents *)

(** [schemas.Location] as a dictionary.  [latitude] and [longitude] are
    [None] when the key is missing. *)
Record Location : Type := {
  name : option string;
  latitude : option float;
  longitude : option float;
  radius_km : option float;
}.

(** [d[key]] on a location. *)
Definition subscript (key : string) (v : option float) : result float :=
  match v with
  | Some x => Ok x
  | None => Raise (KeyError key)
  end.

Module Sub.
(** A document of the [subscriptions] collection.  A falsy [where_]
    ([None]) covers a missing key, null and the empty dictionary. *)
Record t : Type := {
  _id : string;
  user_id : option string;
  scope : option string;
  what : option (list string);
  where_ : option Location;
  when_start : option datetime;
  when_end : option datetime;
  room_id : option string;
  chat_id : option string;
  created_at : option datetime;
}.
End Sub.

Module Msg.
(** A message: a document of the [messages] collection, [id] being its
    [_id], or the dictionary that the matcher and [fetch_history] work on. *)
Record t : Type := {
  id : string;
  user_id : string;
  content : option string;
  location : option Location;
  event_time : option pytime;
  scope : option string;
  room_id : option string;
  chat_id : option string;
  created_at : option pytime;
}.
End Msg.

Module Stored.
(** What [store_message] returns: a copy of the inserted document, to
    which [insert_one] has added its [ObjectId] under [_id], with the key
    [id] and the ISO strings set; [message] holds the keys other than
    [_id]. *)
Record t : Type := {
  _id : string;
  message : Msg.t;
}.
End Stored.

Module SubOut.
(** A subscription as the service returns it ([schemas.SubscriptionOut]). *)
Record t : Type := {
  id : string;
  user_id : option string;
  scope : option string;
  what : option (list string);
  where_ : option Location;
  when_start : option string;
  when_end : option string;
  room_id : option string;
  chat_id : option string;
  created_at : option string;
}.
End SubOut.

Module Payload.
(** The argument of [create_subscription] ([schemas.SubscriptionIn]), its
    time bounds naive. *)
Record t : Type := {
  user_id : option string;
  scope : option string;
  what : option (list string);
  where_ : option Location;
  when_start : option datetime;
  when_end : option datetime;
  room_id : option string;
  chat_id : option string;
}.
End Payload.

Module MessageIn.
(** [schemas.MessageIn] *)
Record t : Type := {
  user_id : string;
  content : string;
  location : option Location;
  event_time : option pydatetime;
}.
End MessageIn.

Module MsgPayload.
(** The argument of [store_message]: a dumped [MessageIn] with its scope. *)
Record t : Type := {
  user_id : string;
  content : string;
  location : option Location;
  event_time : option pytime;
  scope : string;
  room_id : option string;
  chat_id : option string;
}.
End MsgPayload.

(** ** The matcher ([app/services/subscriptions.py]) *)

Section Matcher.
Context `{MathModule} `{DatetimeModule}.

Definition _haversine_distance (lat1 lon1 lat2 lon2 : float) : result float :=
  let d_lat := radians (lat2 - lat1)%float in
  let d_lon := radians (lon2 - lon1)%float in
  s1 ← math_sin (d_lat / 2)%float;
  p1 ← float_pow s1 2%float;
  c1 ← math_cos (radians lat1);
  c2 ← math_cos (radians lat2);
  s2 ← math_sin (d_lon / 2)%float;
  p2 ← float_pow s2 2%float;
  let a := (p1 + c1 * c2 * p2)%float in
  r ← math_sqrt a;
  h ← math_asin r;
  let c := (2 * h)%float in
  Ok (EARTH_RADIUS_KM * c)%float.

Definition _normalise_keywords (keywords : list string) : list string :=
  List.map (fun word => Str.lower (Str.strip word))
    (List.filter (fun word => negb (Str.is_empty (Str.strip word))) keywords).

Definition _match_keywords (subscription : Sub.t) (message : Msg.t) : bool :=
  let keywords := default [] (Sub.what subscription) in
  match keywords with
  | [] => true
  | _ =>
      let content := Str.lower (default "" (Msg.content message)) in
      existsb (fun keyword => Str.contains content keyword) keywords
  end.

Definition _match_scope (subscription : Sub.t) (message : Msg.t) : bool :=
  let scope := default "any" (Sub.scope subscription) in
  if bool_decide (scope = "any") then true
  else if bool_decide (Msg.scope message ≠ Some scope) then false
  else if bool_decide (scope = "room")
          && str_truthy (Sub.room_id subscription)
          && bool_decide (Sub.room_id subscription ≠ Msg.room_id message)
       then false
  else if bool_decide (scope = "p2p")
          && str_truthy (Sub.chat_id subscription)
          && bool_decide (Sub.chat_id subscription ≠ Msg.chat_id message)
       then false
  else true.

Definition _match_location (subscription : Sub.t) (message : Msg.t) : result bool :=
  match Sub.where_ subscription with
  | None => Ok true
  | Some sub_location =>
      match Msg.location message with
      | None => Ok false
      | Some msg_location =>
          let radius :=
            match radius_km sub_location with
            | Some r => if float_truthy r then r else 0%float
            | None => 0%float
            end in
          if (radius <=? 0)%float then Ok true
          else
            lat1 ← subscript "latitude" (latitude sub_location);
            lon1 ← subscript "longitude" (longitude sub_location);
            lat2 ← subscript "latitude" (latitude msg_location);
            lon2 ← subscript "longitude" (longitude msg_location);
            distance ← _haversine_distance lat1 lon1 lat2 lon2;
            Ok (distance <=? radius)%float
      end
  end.

(** The bounds [when_start] and [when_end] of a stored subscription are
    naive, as the store gives them; [event_time > end] is [end < event_time]. *)
Definition _match_time (subscription : Sub.t) (message : Msg.t) : result bool :=
  let raw_event :=
    if pytime_truthy (Msg.event_time message) then Msg.event_time message
    else Msg.created_at message in
  if negb (pytime_truthy raw_event) then Ok true
  else
    let parsed :=
      match raw_event with
      | Some (TimeStr s) => fromisoformat s
      | Some (TimeObj d) => Some d
      | None => None
      end in
    match parsed with
    | None => Ok true
    | Some event_time =>
        let start := Sub.when_start subscription in
        let end_ := Sub.when_end subscription in
        match start with
        | Some s => datetime_lt event_time (Naive s)
        | None => Ok false
        end ≫= (λ before_start : bool,
          if before_start then Ok false
          else
            match end_ with
            | Some e => datetime_lt (Naive e) event_time
            | None => Ok false
            end ≫= (λ after_end : bool,
              if after_end then Ok false else Ok true))
    end.

(** The condition of the loop of [find_matching_subscriptions]. *)
Definition matches (subscription : Sub.t) (message : Msg.t) : result bool :=
  Ok (_match_scope subscription message)
  &&& Ok (_match_keywords subscription message)
  &&& _match_location subscription message
  &&& _match_time subscription message.

(** *** The store

    The [subscriptions] collection is the list of its documents, in the
    store's natural order.  A query is the disjunction ([$or]) of clauses;
    a clause is a conjunction of equality conditions [{key: value}].  An
    equality condition holds of a document when the document has the key
    with that value; the condition [{key: null}] holds when the key is
    missing or null. *)

Definition clause : Type := list (string * option string).
Definition query : Type := list clause.

Definition field (key : string) (doc : Sub.t) : option string :=
  if bool_decide (key = "scope") then Sub.scope doc
  else if bool_decide (key = "room_id") then Sub.room_id doc
  else if bool_decide (key = "chat_id") then Sub.chat_id doc
  else if bool_decide (key = "user_id") then Sub.user_id doc
  else None.

Definition clause_holds (doc : Sub.t) (c : clause) : bool :=
  forallb (fun kv => bool_decide (field kv.1 doc = kv.2)) c.

Definition query_holds (q : query) (doc : Sub.t) : bool :=
  existsb (clause_holds doc) q.

(** [collection.find(query)] *)
Definition find (q : query) (collection : list Sub.t) : list Sub.t :=
  List.filter (query_holds q) collection.

(** An [ObjectId] is kept as its string. *)
Definition _serialize_id (value : string) : string := value.

(** The dictionary a subscription has become when it is returned: [_id]
    popped, [id] set, the datetimes replaced by their ISO strings. *)
Definition serialise (subscription : Sub.t) : SubOut.t :=
  {| SubOut.id := _serialize_id (Sub._id subscription);
     SubOut.user_id := Sub.user_id subscription;
     SubOut.scope := Sub.scope subscription;
     SubOut.what := Sub.what subscription;
     SubOut.where_ := Sub.where_ subscription;
     SubOut.when_start := (fun t => isoformat (Naive t)) <$> Sub.when_start subscription;
     SubOut.when_end := (fun t => isoformat (Naive t)) <$> Sub.when_end subscription;
     SubOut.room_id := Sub.room_id subscription;
     SubOut.chat_id := Sub.chat_id subscription;
     SubOut.created_at := (fun t => isoformat (Naive t)) <$> Sub.created_at subscription |}.

Definition create_subscription (collection : list Sub.t) (payload : Payload.t)
    (inserted_id : string) (utcnow : datetime) : result (list Sub.t * SubOut.t) :=
  user_id ← match Payload.user_id payload with
            | Some u => Ok u
            | None => Raise (KeyError "user_id")
            end;
  let document :=
    {| Sub._id := inserted_id;
       Sub.user_id := Some user_id;
       Sub.scope := Some (default "any" (Payload.scope payload));
       Sub.what := Some (_normalise_keywords (default [] (Payload.what payload)));
       Sub.where_ := Payload.where_ payload;
       Sub.when_start := Payload.when_start payload;
       Sub.when_end := Payload.when_end payload;
       Sub.room_id := Payload.room_id payload;
       Sub.chat_id := Payload.chat_id payload;
       Sub.created_at := Some utcnow |} in
  Ok (collection ++ [document], serialise document).

(** The query of [find_matching_subscriptions]. *)
Definition prefilter (message : Msg.t) : query :=
  let scope := Msg.scope message in
  let q := [[("scope", Some "any")]; [("scope", scope)]] in
  let q :=
    if bool_decide (scope = Some "room") && str_truthy (Msg.room_id message)
    then q ++ [[("scope", Some "room"); ("room_id", Msg.room_id message)]]
    else q in
  let q :=
    if bool_decide (scope = Some "p2p") && str_truthy (Msg.chat_id message)
    then q ++ [[("scope", Some "p2p"); ("chat_id", Msg.chat_id message)]]
    else q in
  q.

(** The loop over the cursor: [found] is the list [matches] so far. *)
Fixpoint scan (message : Msg.t) (cursor : list Sub.t) (found : list SubOut.t)
    : result (list SubOut.t) :=
  match cursor with
  | [] => Ok found
  | subscription :: cursor' =>
      matches subscription message ≫= (λ ok : bool,
        if ok then scan message cursor' (found ++ [serialise subscription])
        else scan message cursor' found)
  end.

Definition find_matching_subscriptions (collection : list Sub.t) (message : Msg.t)
    : result (list SubOut.t) :=
  let cursor := find (prefilter message) collection in
  scan message cursor [].

(** *** Messages ([app/services/messages.py]) *)

(** The first component is the collection after [insert_one]: the new
    document as the store keeps it.  The second is [response]. *)
Definition store_message (messages : list Msg.t) (payload : MsgPayload.t)
    (inserted_id : string) (utcnow : datetime) : list Msg.t * Stored.t :=
  let event_time := MsgPayload.event_time payload in
  let document :=
    {| Msg.id := _serialize_id inserted_id;
       Msg.user_id := MsgPayload.user_id payload;
       Msg.content := Some (MsgPayload.content payload);
       Msg.location := MsgPayload.location payload;
       Msg.event_time := event_time;
       Msg.scope := Some (MsgPayload.scope payload);
       Msg.room_id := MsgPayload.room_id payload;
       Msg.chat_id := MsgPayload.chat_id payload;
       Msg.created_at := Some (TimeObj (Naive utcnow)) |} in
  let inserted :=
    {| Msg.id := Msg.id document;
       Msg.user_id := Msg.user_id document;
       Msg.content := Msg.content document;
       Msg.location := Msg.location document;
       Msg.event_time := as_stored event_time;
       Msg.scope := Msg.scope document;
       Msg.room_id := Msg.room_id document;
       Msg.chat_id := Msg.chat_id document;
       Msg.created_at := Msg.created_at document |} in
  let response :=
    {| Stored._id := inserted_id;
       Stored.message :=
         {| Msg.id := _serialize_id inserted_id;
            Msg.user_id := Msg.user_id document;
            Msg.content := Msg.content document;
            Msg.location := Msg.location document;
            Msg.event_time :=
              if pytime_truthy event_time then
                match event_time with
                | Some (TimeObj d) => Some (TimeStr (isoformat d))
                | other => other
                end
              else event_time;
            Msg.scope := Msg.scope document;
            Msg.room_id := Msg.room_id document;
            Msg.chat_id := Msg.chat_id document;
            Msg.created_at := Some (TimeStr (isoformat (Naive utcnow))) |} |} in
  (messages ++ [inserted], response).

End Matcher.

(** ** The connection registries ([app/websocket_manager.py])

    A [WebSocket] is known by its identity, a number.  What is sent on one
    is a [frame], a dictionary that [json.dumps] can encode.  [send_json]
    raises [RuntimeError] on the connections of [fails]; each call is
    recorded, in order, as a [delivery].  A method runs without
    interleaving with another task. *)

Abbreviation WebSocket := nat (only parsing).

Inductive frame : Type :=
| MessageFrame (message : Msg.t)
| SubscriptionFrame (subscription : SubOut.t) (message : Msg.t).

Definition delivery : Type := WebSocket * frame.

Module ConnectionManager.
(** The state is [active_connections]. *)
Abbreviation t := (gset WebSocket) (only parsing).

Definition init : t := ∅.

Definition connect (websocket : WebSocket) (active_connections : t) : t :=
  active_connections ∪ {[websocket]}.

Definition disconnect (websocket : WebSocket) (active_connections : t) : t :=
  active_connections ∖ {[websocket]}.

Fixpoint broadcast_loop (fails : WebSocket → bool) (message : frame)
    (snapshot : list WebSocket) (active_connections : t) : t * list delivery :=
  match snapshot with
  | [] => (active_connections, [])
  | connection :: snapshot' =>
      let active_connections :=
        if fails connection then active_connections ∖ {[connection]}
        else active_connections in
      let r := broadcast_loop fails message snapshot' active_connections in
      (r.1, (connection, message) :: r.2)
  end.

Definition broadcast (fails : WebSocket → bool) (message : frame)
    (active_connections : t) : t * list delivery :=
  broadcast_loop fails message (elements active_connections) active_connections.
End ConnectionManager.

(** [d[key]] on a [defaultdict(set)], as a value. *)
Definition getitem (key : string) (d : gmap string (gset WebSocket)) : gset WebSocket :=
  default ∅ (d !! key).

Module RoomConnectionManager.
(** The state is [rooms]. *)
Abbreviation t := (gmap string (gset WebSocket)) (only parsing).

Definition init : t := ∅.

Definition connect (room_id : string) (websocket : WebSocket) (rooms : t) : t :=
  <[room_id := getitem room_id rooms ∪ {[websocket]}]> rooms.

Definition disconnect (room_id : string) (websocket : WebSocket) (rooms : t) : t :=
  match rooms !! room_id with
  | Some members =>
      let members := members ∖ {[websocket]} in
      if bool_decide (members = ∅) then delete room_id rooms
      else <[room_id := members]> rooms
  | None => rooms
  end.

Fixpoint broadcast_loop (fails : WebSocket → bool) (room_id : string)
    (message : frame) (snapshot : list WebSocket) (rooms : t) : t * list delivery :=
  match snapshot with
  | [] => (rooms, [])
  | connection :: snapshot' =>
      let rooms :=
        if fails connection
        then <[room_id := getitem room_id rooms ∖ {[connection]}]> rooms
        else rooms in
      let r := broadcast_loop fails room_id message snapshot' rooms in
      (r.1, (connection, message) :: r.2)
  end.

Definition broadcast (fails : WebSocket → bool) (room_id : string)
    (message : frame) (rooms : t) : t * list delivery :=
  let r := broadcast_loop fails room_id message
             (elements (getitem room_id rooms)) rooms in
  let rooms := r.1 in
  let rooms :=
    match rooms !! room_id with
    | Some members =>
        if bool_decide (members = ∅) then delete room_id rooms else rooms
    | None => rooms
    end in
  (rooms, r.2).
End RoomConnectionManager.

Module P2PConnectionManager.
(** The state is [sessions]. *)
Abbreviation t := (gmap string (gmap string WebSocket)) (only parsing).

Definition init : t := ∅.

Definition connect (session_id user_id : string) (websocket : WebSocket)
    (sessions : t) : t :=
  <[session_id := <[user_id := websocket]> (default ∅ (sessions !! session_id))]>
    sessions.

Definition disconnect (session_id user_id : string) (sessions : t) : t :=
  match sessions !! session_id with
  | Some session =>
      if bool_decide (is_Some (session !! user_id)) then
        let session := delete user_id session in
        if bool_decide (session = ∅) then delete session_id sessions
        else <[session_id := session]> sessions
      else sessions
  | None => sessions
  end.

(** The handler of [RuntimeError] in [send] runs the statements of
    [disconnect]. *)
Fixpoint send_loop (fails : WebSocket → bool) (session_id : string)
    (message : frame) (exclude_set : gset string)
    (snapshot : list (string * WebSocket)) (sessions : t) : t * list delivery :=
  match snapshot with
  | [] => (sessions, [])
  | (user, connection) :: snapshot' =>
      if bool_decide (user ∈ exclude_set)
      then send_loop fails session_id message exclude_set snapshot' sessions
      else
        let sessions :=
          if fails connection then disconnect session_id user sessions
          else sessions in
        let r := send_loop fails session_id message exclude_set snapshot' sessions in
        (r.1, (connection, message) :: r.2)
  end.

Definition send (fails : WebSocket → bool) (session_id : string)
    (message : frame) (exclude : gset string) (sessions : t) : t * list delivery :=
  let exclude_set := exclude in
  send_loop fails session_id message exclude_set
    (map_to_list (default ∅ (sessions !! session_id))) sessions.
End P2PConnectionManager.

Module SubscriptionConnectionManager.
(** The state is [users]. *)
Abbreviation t := (gmap string (gset WebSocket)) (only parsing).

Definition init : t := ∅.

Definition connect (user_id : string) (websocket : WebSocket) (users : t) : t :=
  <[user_id := getitem user_id users ∪ {[websocket]}]> users.

Definition disconnect (user_id : string) (websocket : WebSocket) (users : t) : t :=
  match users !! user_id with
  | Some connections =>
      let connections := connections ∖ {[websocket]} in
      if bool_decide (connections = ∅) then delete user_id users
      else <[user_id := connections]> users
  | None => users
  end.

Fixpoint notify_loop (fails : WebSocket → bool) (user_id : string)
    (payload : frame) (snapshot : list WebSocket) (users : t) : t * list delivery :=
  match snapshot with
  | [] => (users, [])
  | connection :: snapshot' =>
      let users :=
        if fails connection
        then <[user_id := getitem user_id users ∖ {[connection]}]> users
        else users in
      let r := notify_loop fails user_id payload snapshot' users in
      (r.1, (connection, payload) :: r.2)
  end.

Definition notify (fails : WebSocket → bool) (user_id : string)
    (payload : frame) (users : t) : t * list delivery :=
  notify_loop fails user_id payload (elements (getitem user_id users)) users.

(** The inner loop of [broadcast]: [user_connections] is the set stored
    under [user], and [discard] changes it in place. *)
Fixpoint broadcast_inner (fails : WebSocket → bool) (user : string)
    (payload : frame) (snapshot : list WebSocket) (users : t) : t * list delivery :=
  match snapshot with
  | [] => (users, [])
  | connection :: snapshot' =>
      let users :=
        if fails connection
        then alter (fun user_connections => user_connections ∖ {[connection]}) user users
        else users in
      let r := broadcast_inner fails user payload snapshot' users in
      (r.1, (connection, payload) :: r.2)
  end.

Fixpoint broadcast_outer (fails : WebSocket → bool) (payload : frame)
    (values : list (string * gset WebSocket)) (users : t) : t * list delivery :=
  match values with
  | [] => (users, [])
  | (user, user_connections) :: values' =>
      let r := broadcast_inner fails user payload (elements user_connections) users in
      let r' := broadcast_outer fails payload values' r.1 in
      (r'.1, r.2 ++ r'.2)
  end.

Definition broadcast (fails : WebSocket → bool) (payload : frame) (users : t)
    : t * list delivery :=
  broadcast_outer fails payload (map_to_list users) users.
End SubscriptionConnectionManager.

(** ** The dispatcher and the websocket handlers ([app/main.py], [app/chat.py]) *)

(** What a handler leaves behind: the state, the calls of [send_json] in
    order, and the exception that ended it, if one did. *)
Record outcome (S : Type) : Type := {
  state : S;
  sent : list delivery;
  raised : option exn;
}.
Arguments state {S} o.
Arguments sent {S} o.
Arguments raised {S} o.

Record World : Type := {
  messages : list Msg.t;
  subscriptions : list Sub.t;
  (** [common_chat._connections] *)
  common_connections : gset WebSocket;
  (** the [RoomConnectionManager] of a [chat.RoomManager] *)
  room_connections : gmap string (gset WebSocket);
  p2p_manager : gmap string (gmap string WebSocket);
  subscription_manager : gmap string (gset WebSocket);
}.

Section Handlers.
Context `{MathModule} `{DatetimeModule}.
Variable fails : WebSocket → bool.

(** The loop of [_notify_subscribers]. *)
Fixpoint notify_each (message : Msg.t) (found : list SubOut.t)
    (users : gmap string (gset WebSocket)) : outcome (gmap string (gset WebSocket)) :=
  match found with
  | [] => {| state := users; sent := []; raised := None |}
  | subscription :: found' =>
      match SubOut.user_id subscription with
      | None => {| state := users; sent := []; raised := Some (KeyError "user_id") |}
      | Some user_id =>
          let r := SubscriptionConnectionManager.notify fails user_id
                     (SubscriptionFrame subscription message) users in
          let o := notify_each message found' r.1 in
          {| state := state o; sent := r.2 ++ sent o; raised := raised o |}
      end
  end.

Definition _notify_subscribers (collection : list Sub.t) (message : Msg.t)
    (users : gmap string (gset WebSocket)) : outcome (gmap string (gset WebSocket)) :=
  match find_matching_subscriptions collection message with
  | Raise e => {| state := users; sent := []; raised := Some e |}
  | Ok found => notify_each message found users
  end.

(** [{**message.model_dump(), "scope": scope, ...}] *)
Definition model_dump (message : MessageIn.t) (scope : string)
    (room_id chat_id : option string) : MsgPayload.t :=
  {| MsgPayload.user_id := MessageIn.user_id message;
     MsgPayload.content := MessageIn.content message;
     MsgPayload.location := MessageIn.location message;
     MsgPayload.event_time := TimeObj <$> MessageIn.event_time message;
     MsgPayload.scope := scope;
     MsgPayload.room_id := room_id;
     MsgPayload.chat_id := chat_id |}.

(** *** The dictionary of [store_message] on a connection

    [send_json] encodes what it is given with [json.dumps], which raises
    [TypeError] on the [ObjectId] under [_id].  No registry catches it
    (they catch [RuntimeError]), so a method given the dictionary of
    [store_message], or a dictionary that holds it, ends at its first
    [send_json], before anything is sent or removed.  [snapshot] lists the
    connections that the loop of the method goes through; with none of
    them the method runs to its end, [after] being the registry then. *)

Definition not_serializable : exn :=
  TypeError "Object of type ObjectId is not JSON serializable".

Definition refused {S : Type} (registry : S) (snapshot : list WebSocket) (after : S)
    : outcome S :=
  match snapshot with
  | [] => {| state := after; sent := []; raised := None |}
  | _ :: _ => {| state := registry; sent := []; raised := Some not_serializable |}
  end.

(** [ConnectionManager.broadcast(stored)] *)
Definition broadcast_stored (active_connections : gset WebSocket)
    : outcome (gset WebSocket) :=
  refused active_connections (elements active_connections) active_connections.

(** [RoomConnectionManager.broadcast(room_id, stored)] *)
Definition room_broadcast_stored (room_id : string)
    (rooms : gmap string (gset WebSocket)) : outcome (gmap string (gset WebSocket)) :=
  refused rooms (elements (getitem room_id rooms))
    (match rooms !! room_id with
     | Some members =>
         if bool_decide (members = ∅) then delete room_id rooms else rooms
     | None => rooms
     end).

(** The connections that [send] does not skip. *)
Definition recipients (session_id : string) (exclude : gset string)
    (sessions : gmap string (gmap string WebSocket)) : list WebSocket :=
  (List.filter (fun item => negb (bool_decide (item.1 ∈ exclude)))
     (map_to_list (default ∅ (sessions !! session_id)))).*2.

(** [P2PConnectionManager.send(session_id, stored, exclude)] *)
Definition send_stored (session_id : string) (exclude : gset string)
    (sessions : gmap string (gmap string WebSocket))
    : outcome (gmap string (gmap string WebSocket)) :=
  refused sessions (recipients session_id exclude sessions) sessions.

(** [SubscriptionConnectionManager.notify(user_id, payload)], the payload
    holding [stored] under [message]. *)
Definition notify_stored (user_id : string) (users : gmap string (gset WebSocket))
    : outcome (gmap string (gset WebSocket)) :=
  refused users (elements (getitem user_id users)) users.

(** The loop of [_notify_subscribers(stored)]. *)
Fixpoint notify_each_stored (found : list SubOut.t)
    (users : gmap string (gset WebSocket)) : outcome (gmap string (gset WebSocket)) :=
  match found with
  | [] => {| state := users; sent := []; raised := None |}
  | subscription :: found' =>
      match SubOut.user_id subscription with
      | None => {| state := users; sent := []; raised := Some (KeyError "user_id") |}
      | Some user_id =>
          let r := notify_stored user_id users in
          match raised r with
          | Some e => r
          | None => notify_each_stored found' (state r)
          end
      end
  end.

(** [_notify_subscribers(stored)]: the matcher reads the keys of
    [Stored.message]. *)
Definition _notify_stored (collection : list Sub.t) (stored : Stored.t)
    (users : gmap string (gset WebSocket)) : outcome (gmap string (gset WebSocket)) :=
  match find_matching_subscriptions collection (Stored.message stored) with
  | Raise e => {| state := users; sent := []; raised := Some e |}
  | Ok found => notify_each_stored found users
  end.

(** [CommonChat.handle_incoming]: what the call leaves behind, and
    [stored], which it returns when nothing was raised. *)
Definition CommonChat_handle_incoming (payload : MessageIn.t)
    (inserted_id : string) (utcnow : datetime) (w : World)
    : outcome World * Stored.t :=
  let message := payload in
  let s := store_message (messages w) (model_dump message "common" None None)
             inserted_id utcnow in
  let stored := s.2 in
  let b := broadcast_stored (common_connections w) in
  ({| state := {| messages := s.1;
                  subscriptions := subscriptions w;
                  common_connections := state b;
                  room_connections := room_connections w;
                  p2p_manager := p2p_manager w;
                  subscription_manager := subscription_manager w |};
      sent := sent b;
      raised := raised b |}, stored).

(** [RoomManager.handle_incoming] *)
Definition RoomManager_handle_incoming (room_id : string) (payload : MessageIn.t)
    (inserted_id : string) (utcnow : datetime) (w : World)
    : outcome World * Stored.t :=
  let message := payload in
  let s := store_message (messages w) (model_dump message "room" (Some room_id) None)
             inserted_id utcnow in
  let stored := s.2 in
  let b := room_broadcast_stored room_id (room_connections w) in
  ({| state := {| messages := s.1;
                  subscriptions := subscriptions w;
                  common_connections := common_connections w;
                  room_connections := state b;
                  p2p_manager := p2p_manager w;
                  subscription_manager := subscription_manager w |};
      sent := sent b;
      raised := raised b |}, stored).

(** One turn of the loop of [websocket_p2p]: a message [data] received on
    the connection that joined [session_id] as [user_id]. *)
Definition websocket_p2p_receive (session_id user_id : string) (data : MessageIn.t)
    (inserted_id : string) (utcnow : datetime) (w : World) : outcome World :=
  let message := data in
  let s := store_message (messages w) (model_dump message "p2p" None (Some session_id))
             inserted_id utcnow in
  let stored := s.2 in
  let b := send_stored session_id {[MessageIn.user_id message]} (p2p_manager w) in
  let n :=
    match raised b with
    | Some e => {| state := subscription_manager w; sent := []; raised := Some e |}
    | None => _notify_stored (subscriptions w) stored (subscription_manager w)
    end in
  {| state := {| messages := s.1;
                 subscriptions := subscriptions w;
                 common_connections := common_connections w;
                 room_connections := room_connections w;
                 p2p_manager := state b;
                 subscription_manager := state n |};
     sent := sent b ++ sent n;
     raised := raised n |}.

(** One turn of the first loop of [websocket_common]. *)
Definition websocket_common_receive (data : MessageIn.t)
    (inserted_id : string) (utcnow : datetime) (w : World) : outcome World :=
  let '(h, stored) := CommonChat_handle_incoming data inserted_id utcnow w in
  let w := state h in
  let n :=
    match raised h with
    | Some e => {| state := subscription_manager w; sent := []; raised := Some e |}
    | None => _notify_stored (subscriptions w) stored (subscription_manager w)
    end in
  {| state := {| messages := messages w;
                 subscriptions := subscriptions w;
                 common_connections := common_connections w;
                 room_connections := room_connections w;
                 p2p_manager := p2p_manager w;
                 subscription_manager := state n |};
     sent := sent h ++ sent n;
     raised := raised n |}.

End Handlers.

(** ** Replaying joins and leaves *)

(** The operations of a room, of the common channel and of a user's
    notification group name a connection. *)
Inductive set_op : Type :=
| Join (websocket : WebSocket)
| Leave (websocket : WebSocket).

(** The operations of a session name a participant; [disconnect] takes no
    connection. *)
Inductive session_op : Type :=
| SJoin (user_id : string) (websocket : WebSocket)
| SLeave (user_id : string).

Definition room_step (room_id : string) (rooms : gmap string (gset WebSocket))
    (op : set_op) : gmap string (gset WebSocket) :=
  match op with
  | Join websocket => RoomConnectionManager.connect room_id websocket rooms
  | Leave websocket => RoomConnectionManager.disconnect room_id websocket rooms
  end.

Definition common_step (active_connections : gset WebSocket) (op : set_op)
    : gset WebSocket :=
  match op with
  | Join websocket => ConnectionManager.connect websocket active_connections
  | Leave websocket => ConnectionManager.disconnect websocket active_connections
  end.

Definition user_step (user_id : string) (users : gmap string (gset WebSocket))
    (op : set_op) : gmap string (gset WebSocket) :=
  match op with
  | Join websocket => SubscriptionConnectionManager.connect user_id websocket users
  | Leave websocket => SubscriptionConnectionManager.disconnect user_id websocket users
  end.

Definition session_step (session_id : string)
    (sessions : gmap string (gmap string WebSocket)) (op : session_op)
    : gmap string (gmap string WebSocket) :=
  match op with
  | SJoin user_id websocket =>
      P2PConnectionManager.connect session_id user_id websocket sessions
  | SLeave user_id => P2PConnectionManager.disconnect session_id user_id sessions
  end.

(** A connection was joined and has not left since: its last operation in
    [ops] is a join. *)
Definition joined_not_left (ops : list set_op) (websocket : WebSocket) : Prop :=
  ∃ before after,
    ops = before ++ Join websocket :: after ∧ (Leave websocket ∉ after).

(** The most recent join of [user_id] registered [websocket], and
    [user_id] has not left since. *)
Definition latest_join (ops : list session_op) (user_id : string)
    (websocket : WebSocket) : Prop :=
  ∃ before after,
    ops = before ++ SJoin user_id websocket :: after
    ∧ (SLeave user_id ∉ after)
    ∧ (∀ other, SJoin user_id other ∉ after).

(** ** Sorted reads ([list_subscriptions], [fetch_history])

    [cursor.sort("created_at", -1)] gives the documents of the cursor in an
    order in which none comes before one with a later date; how it orders
    documents with equal or missing dates is the store's affair.
    [cursor.limit(n)] keeps the first [n] documents, all of them when [n]
    is zero; a limit is a natural number here. *)

Definition newest_first {A : Type} (key : A → option datetime) (l : list A) : Prop :=
  StronglySorted
    (fun a b => ∀ ta tb, key a = Some ta → key b = Some tb → (tb ≤ ta)%Z) l.

Class SortModule := {
  sort_newest_first : ∀ {A : Type}, (A → option datetime) → list A → list A;
  sort_permutation :
    ∀ (A : Type) (key : A → option datetime) (l : list A),
      sort_newest_first key l ≡ₚ l;
  sort_sorted :
    ∀ (A : Type) (key : A → option datetime) (l : list A),
      newest_first key (sort_newest_first key l);
}.

Definition take_limit {A : Type} (limit : nat) (l : list A) : list A :=
  match limit with
  | O => l
  | S _ => take limit l
  end.

(** The exceptions of [fetch_history]: a missing key, and the
    [AttributeError] of a string asked for its [isoformat]. *)
Inductive history_exn : Type :=
| Plain (e : exn)
| AttributeError (attribute : string).

Inductive fetched (A : Type) : Type :=
| Fetched (a : A)
| Failed (e : history_exn).
Arguments Fetched {A} a.
Arguments Failed {A} e.

(** The date under [created_at], when it is one; the store keeps naive
    dates. *)
Definition created (item : Msg.t) : option datetime :=
  match Msg.created_at item with
  | Some (TimeObj (Naive t)) => Some t
  | _ => None
  end.

Section SortedReads.
Context `{DatetimeModule} `{SortModule}.

Definition list_subscriptions (collection : list Sub.t) (user_id : string)
    : list SubOut.t :=
  let cursor :=
    sort_newest_first Sub.created_at (find [[("user_id", Some user_id)]] collection) in
  List.map serialise cursor.

(** The query of [fetch_history]. *)
Definition selected (scope : string) (room_id chat_id : option string)
    (before : option datetime) (item : Msg.t) : bool :=
  bool_decide (Msg.scope item = Some scope)
  && (if str_truthy room_id then bool_decide (Msg.room_id item = room_id) else true)
  && (if str_truthy chat_id then bool_decide (Msg.chat_id item = chat_id) else true)
  && match before with
     | Some b =>
         match created item with
         | Some t => (t <? b)%Z
         | None => false
         end
     | None => true
     end.

(** The body of the loop of [fetch_history]. *)
Definition history_view (item : Msg.t) : fetched Msg.t :=
  let event_time := Msg.event_time item in
  match Msg.created_at item with
  | None => Failed (Plain (KeyError "created_at"))
  | Some (TimeStr _) => Failed (AttributeError "isoformat")
  | Some (TimeObj t) =>
      let created_at := Some (TimeStr (isoformat t)) in
      if pytime_truthy event_time then
        match event_time with
        | Some (TimeObj e) =>
            Fetched {| Msg.id := _serialize_id (Msg.id item);
                       Msg.user_id := Msg.user_id item;
                       Msg.content := Msg.content item;
                       Msg.location := Msg.location item;
                       Msg.event_time := Some (TimeStr (isoformat e));
                       Msg.scope := Msg.scope item;
                       Msg.room_id := Msg.room_id item;
                       Msg.chat_id := Msg.chat_id item;
                       Msg.created_at := created_at |}
        | _ => Failed (AttributeError "isoformat")
        end
      else
        Fetched {| Msg.id := _serialize_id (Msg.id item);
                   Msg.user_id := Msg.user_id item;
                   Msg.content := Msg.content item;
                   Msg.location := Msg.location item;
                   Msg.event_time := event_time;
                   Msg.scope := Msg.scope item;
                   Msg.room_id := Msg.room_id item;
                   Msg.chat_id := Msg.chat_id item;
                   Msg.created_at := created_at |}
  end.

Fixpoint history_loop (cursor : list Msg.t) (history : list Msg.t)
    : fetched (list Msg.t) :=
  match cursor with
  | [] => Fetched history
  | item :: cursor' =>
      match history_view item with
      | Fetched view => history_loop cursor' (history ++ [view])
      | Failed e => Failed e
      end
  end.

Definition fetch_history (messages : list Msg.t) (scope : string)
    (room_id chat_id : option string) (limit : nat) (before : option datetime)
    : fetched (list Msg.t) :=
  let cursor :=
    take_limit limit
      (sort_newest_first created
         (List.filter (selected scope room_id chat_id before) messages)) in
  match history_loop cursor [] with
  | Fetched history => Fetched (reverse history)
  | Failed e => Failed e
  end.

End SortedReads.

(** ** An instance of the library interfaces

    The properties below hold for every [MathModule] and every
    [DatetimeModule].  To run the code on concrete documents, [Sample]
    gives one of each: the trigonometric functions by their Taylor
    polynomials of degree seven, and the ISO format
    [YYYY-MM-DDTHH:MM:SS] of whole seconds, a datetime being the number
    [YYYYMMDDHHMMSS]; an aware datetime is read and written in UTC, with
    the suffix [+00:00]. *)

Module Sample.

Definition sin (x : float) : float :=
  (x - x * x * x / 6 + x * x * x * x * x / 120
   - x * x * x * x * x * x * x / 5040)%float.

Definition cos (x : float) : float :=
  (1 - x * x / 2 + x * x * x * x / 24 - x * x * x * x * x * x / 720)%float.

Definition asin (x : float) : float :=
  (x + x * x * x / 6 + 3 * x * x * x * x * x / 40
   + 15 * x * x * x * x * x * x * x / 336)%float.

Definition pow (x y : float) : result float :=
  if (y =? 2)%float then Ok (x * x)%float
  else Raise (OverflowError "unsupported exponent").

Definition math : MathModule :=
  {| math_sin x := Ok (sin x);
     math_cos x := Ok (cos x);
     math_asin x :=
       if (1 <? abs x)%float then Raise (ValueError "math domain error")
       else Ok (asin x);
     float_pow := pow |}.

Definition digit (c : ascii) : option Z :=
  let n := Z.of_N (N_of_ascii c) in
  if ((48 <=? n) && (n <=? 57))%Z then Some (n - 48)%Z else None.

Fixpoint number (s : string) (acc : Z) : option Z :=
  match s with
  | EmptyString => Some acc
  | String c s' =>
      match digit c with
      | Some d => number s' (10 * acc + d)%Z
      | None => None
      end
  end.

(** The number written at [width] characters from position [start]. *)
Definition read (s : string) (start width : nat) : option Z :=
  number (String.substring start width s) 0%Z.

Definition separator (s : string) (position : nat) (c : ascii) : bool :=
  bool_decide (String.get position s = Some c).

Definition parse_naive (s : string) : option datetime :=
  if negb (String.length s =? 19)%nat then None
  else if negb (separator s 4 "-" && separator s 7 "-" && separator s 10 "T"
                && separator s 13 ":" && separator s 16 ":") then None
  else
    match read s 0 4, read s 5 2, read s 8 2, read s 11 2, read s 14 2, read s 17 2 with
    | Some y, Some m, Some d, Some hh, Some mm, Some ss =>
        if ((1 <=? y) && (1 <=? m) && (m <=? 12) && (1 <=? d) && (d <=? 31)
            && (hh <? 24) && (mm <? 60) && (ss <? 60))%Z
        then Some (((((y * 100 + m) * 100 + d) * 100 + hh) * 100 + mm) * 100 + ss)%Z
        else None
    | _, _, _, _, _, _ => None
    end.

Fixpoint decimal (width : nat) (n : Z) : string :=
  match width with
  | O => EmptyString
  | S width' =>
      (decimal width' (n / 10)
       ++ String (ascii_of_N (Z.to_N (48 + n mod 10))) EmptyString)%string
  end.

Definition format_naive (t : datetime) : string :=
  (decimal 4 (t / 10000000000) ++ "-" ++ decimal 2 (t / 100000000) ++ "-"
   ++ decimal 2 (t / 1000000) ++ "T" ++ decimal 2 (t / 10000) ++ ":"
   ++ decimal 2 (t / 100) ++ ":" ++ decimal 2 t)%string.

(** A string that ends in [+00:00] is read as an aware datetime. *)
Definition parse (s : string) : option pydatetime :=
  if (String.length s =? 25)%nat
     && bool_decide (String.substring 19 6 s = "+00:00")
  then (fun utc => Aware utc 0) <$> parse_naive (String.substring 0 19 s)
  else Naive <$> parse_naive s.

Definition format (d : pydatetime) : string :=
  match d with
  | Naive t => format_naive t
  | Aware utc _ => (format_naive utc ++ "+00:00")%string
  end.

Definition dates : DatetimeModule :=
  {| fromisoformat := parse; isoformat := format |}.

(** Documents sorted by a merge sort, a missing date being the lowest. *)
Definition not_older {A : Type} (key : A → option datetime) (a b : A) : Prop :=
  match key a, key b with
  | _, None => True
  | None, Some _ => False
  | Some ta, Some tb => (tb ≤ ta)%Z
  end.

Definition not_older_dec {A : Type} (key : A → option datetime) (a b : A)
    : Decision (not_older key a b).
Proof. unfold not_older. destruct (key a), (key b); apply _. Defined.

Definition sorting : SortModule.
Proof.
  refine {| sort_newest_first A key :=
              @merge_sort A (not_older key) (not_older_dec key) |}.
  - intros A key l. apply merge_sort_Permutation.
  - intros A key l.
    assert (Transitive (not_older key)) as Htrans.
    { intros a b c. unfold not_older.
      destruct (key a), (key b), (key c); try done. lia. }
    assert (Total (not_older key)) as Htotal.
    { intros a b. unfold not_older.
      destruct (key a), (key b); try (by left); try (by right). lia. }
    pose proof (@StronglySorted_merge_sort A (not_older key) (not_older_dec key)
                  Htrans Htotal l) as Hs.
    unfold newest_first. induction Hs as [|a l' Hs IH Hall]; constructor; [done|].
    eapply Forall_impl; [exact Hall|].
    intros b Hab ta tb Ha Hb. unfold not_older in Hab. by rewrite Ha, Hb in Hab.
Defined.

End Sample.

(** ** Vocabulary of the properties *)

(** [k] occurs in [s], letter case set aside: some substring of [s] and
    [k] have the same lower-case form. *)
Definition occurs_ignoring_case (k s : string) : Prop :=
  ∃ pre mid post,
    s = (pre ++ mid ++ post)%string ∧ Str.lower mid = Str.lower k.

(** A string that does not begin with white space. *)
Definition clean_left (s : string) : Prop :=
  match s with
  | EmptyString => True
  | String c _ => Str.isspace c = false
  end.

(** A keyword as [create_subscription] stores it. *)
Definition normalised (k : string) : Prop :=
  Str.strip k = k ∧ Str.lower k = k ∧ k ≠ "".


(** The datetime a time stands for; none when its string does not parse. *)
Definition instant `{DatetimeModule} (v : pytime) : option pydatetime :=
  match v with
  | TimeObj d => Some d
  | TimeStr s => fromisoformat s
  end.

(** A subscription with a bound on the time. *)
Definition bounded (subscription : Sub.t) : Prop :=
  Sub.when_start subscription ≠ None ∨ Sub.when_end subscription ≠ None.


(** The value of [raw_event] in [_match_time]. *)
Definition raw_event (message : Msg.t) : option pytime :=
  if pytime_truthy (Msg.event_time message) then Msg.event_time message
  else Msg.created_at message.

(** A document carries the identifier [r] in an optional field. *)
Definition carries (v : option string) (r : string) : Prop :=
  v = Some r ∧ r ≠ "".

(** The radius that switches the location filter off: absent, zero (of
    either sign), or at most zero. *)
Definition radius_disabled (f : Location) : Prop :=
  radius_km f = None
  ∨ ∃ r, radius_km f = Some r ∧ ((r =? 0)%float = true ∨ (r <=? 0)%float = true).


Definition blank_subscription : Sub.t :=
  {| Sub._id := "s0";
     Sub.user_id := Some "alice";
     Sub.scope := Some "any";
     Sub.what := Some [];
     Sub.where_ := None;
     Sub.when_start := None;
     Sub.when_end := None;
     Sub.room_id := None;
     Sub.chat_id := None;
     Sub.created_at := None |}.

Definition blank_message : Msg.t :=
  {| Msg.id := "m0";
     Msg.user_id := "bob";
     Msg.content := Some "hello";
     Msg.location := None;
     Msg.event_time := None;
     Msg.scope := Some "common";
     Msg.room_id := None;
     Msg.chat_id := None;
     Msg.created_at := None |}.

(** All four predicates hold of a subscription and a message. *)
Definition all_four `{MathModule} `{DatetimeModule}
    (message : Msg.t) (subscription : Sub.t) : bool :=
  _match_scope subscription message
  && _match_keywords subscription message
  && match _match_location subscription message with
     | Ok b => b
     | Raise _ => false
     end
  && match _match_time subscription message with
     | Ok b => b
     | Raise _ => false
     end.

(** A stored subscription with no [scope] field. *)
Definition no_scope_subscription : Sub.t :=
  {| Sub._id := "s1";
     Sub.user_id := Some "alice";
     Sub.scope := None;
     Sub.what := Some [];
     Sub.where_ := None;
     Sub.when_start := None;
     Sub.when_end := None;
     Sub.room_id := None;
     Sub.chat_id := None;
     Sub.created_at := None |}.

(** A stored subscription whose location filter has a radius and neither
    [latitude] nor [longitude]. *)
Definition no_latitude_subscription : Sub.t :=
  {| Sub._id := "s2";
     Sub.user_id := Some "alice";
     Sub.scope := Some "any";
     Sub.what := Some [];
     Sub.where_ :=
       Some {| name := None; latitude := None; longitude := None;
               radius_km := Some 5%float |};
     Sub.when_start := None;
     Sub.when_end := None;
     Sub.room_id := None;
     Sub.chat_id := None;
     Sub.created_at := None |}.

Definition located_message : Msg.t :=
  {| Msg.id := "m1";
     Msg.user_id := "bob";
     Msg.content := Some "hello";
     Msg.location :=
       Some {| name := None; latitude := Some 0%float; longitude := Some 0%float;
               radius_km := None |};
     Msg.event_time := None;
     Msg.scope := Some "common";
     Msg.room_id := None;
     Msg.chat_id := None;
     Msg.created_at := None |}.

(** A subscription to the room ["R1"]. *)
Definition room_subscription : Sub.t :=
  {| Sub._id := "s3";
     Sub.user_id := Some "carol";
     Sub.scope := Some "room";
     Sub.what := Some ["urgent"];
     Sub.where_ := None;
     Sub.when_start := None;
     Sub.when_end := None;
     Sub.room_id := Some "R1";
     Sub.chat_id := None;
     Sub.created_at := None |}.

Definition room_message (room_id content : string) : Msg.t :=
  {| Msg.id := "m2";
     Msg.user_id := "bob";
     Msg.content := Some content;
     Msg.location := None;
     Msg.event_time := None;
     Msg.scope := Some "room";
     Msg.room_id := Some room_id;
     Msg.chat_id := None;
     Msg.created_at := None |}.

(** A subscription to what happens within [radius] km of (0, 0). *)
Definition near_origin (radius : float) : Sub.t :=
  {| Sub._id := "s4";
     Sub.user_id := Some "dave";
     Sub.scope := Some "any";
     Sub.what := Some [];
     Sub.where_ :=
       Some {| name := None; latitude := Some 0%float; longitude := Some 0%float;
               radius_km := Some radius |};
     Sub.when_start := None;
     Sub.when_end := None;
     Sub.room_id := None;
     Sub.chat_id := None;
     Sub.created_at := None |}.

Definition message_at (lat lon : float) : Msg.t :=
  {| Msg.id := "m3";
     Msg.user_id := "bob";
     Msg.content := Some "hello";
     Msg.location :=
       Some {| name := None; latitude := Some lat; longitude := Some lon;
               radius_km := None |};
     Msg.event_time := None;
     Msg.scope := Some "common";
     Msg.room_id := None;
     Msg.chat_id := None;
     Msg.created_at := None |}.

(** A subscription to the first of January 2024, from 08:00:00 to 18:00:00. *)
Definition day_subscription : Sub.t :=
  {| Sub._id := "s5";
     Sub.user_id := Some "erin";
     Sub.scope := Some "any";
     Sub.what := Some [];
     Sub.where_ := None;
     Sub.when_start := Some 20240101080000%Z;
     Sub.when_end := Some 20240101180000%Z;
     Sub.room_id := None;
     Sub.chat_id := None;
     Sub.created_at := None |}.

Definition message_of (event_time : option pytime) (created_at : option pytime) : Msg.t :=
  {| Msg.id := "m4";
     Msg.user_id := "bob";
     Msg.content := Some "hello";
     Msg.location := None;
     Msg.event_time := event_time;
     Msg.scope := Some "common";
     Msg.room_id := None;
     Msg.chat_id := None;
     Msg.created_at := created_at |}.

(** The members of [s] on which a send does not fail. *)
Definition survivors (fails : WebSocket → bool) (s : gset WebSocket) : gset WebSocket :=
  filter (fun c => fails c = false) s.

(** The connection registered for [user_id] in a session, if any:
    [sessions.get(session_id, {}).get(user_id)]. *)
Definition registered (session_id : string)
    (sessions : gmap string (gmap string WebSocket)) (user_id : string)
    : option WebSocket :=
  sessions !! session_id ≫= (λ session : gmap string WebSocket, session !! user_id).

(** What a broadcast of [message] over [snapshot] sends. *)
Definition attempts (message : frame) (snapshot : list WebSocket) : list delivery :=
  (fun c => (c, message)) <$> snapshot.

(** The registries of the examples: a room of three, a session of two, a
    user with one notification connection. *)
Definition lobby : gmap string (gset WebSocket) :=
  foldl (room_step "lobby") ∅ [Join 1; Join 2; Join 3].

Definition duo : gmap string (gmap string WebSocket) :=
  foldl (session_step "chat") ∅ [SJoin "alice" 1; SJoin "bob" 2].

Definition listeners : gmap string (gset WebSocket) :=
  SubscriptionConnectionManager.connect "alice" 7 ∅.

Definition hello : MessageIn.t :=
  {| MessageIn.user_id := "alice";
     MessageIn.content := "hello";
     MessageIn.location := None;
     MessageIn.event_time := None |}.

Definition sample_world : World :=
  {| messages := [];
     subscriptions := [blank_subscription];
     common_connections := {[1; 2]};
     room_connections := lobby;
     p2p_manager := duo;
     subscription_manager := listeners |}.

(** The first component of a delivery. *)
Definition receivers (log : list delivery) : list WebSocket := log.*1.

(** A message that names ["bob"] as its author. *)
Definition forged : MessageIn.t :=
  {| MessageIn.user_id := "bob";
     MessageIn.content := "hello";
     MessageIn.location := None;
     MessageIn.event_time := None |}.

(** ** Vocabulary of the further properties *)

(** [t] is within the time window of a subscription, bounds included. *)
Definition within (subscription : Sub.t) (t : datetime) : Prop :=
  (∀ s, Sub.when_start subscription = Some s → (s ≤ t)%Z)
  ∧ (∀ e, Sub.when_end subscription = Some e → (t ≤ e)%Z).

(** The ISO string of [d] is not empty and parses back to [d]. *)
Definition iso_round_trip `{DatetimeModule} (d : pydatetime) : Prop :=
  isoformat d ≠ "" ∧ fromisoformat (isoformat d) = Some d.

(** A payload that sets no filter: any scope, no keyword left after
    normalisation, no location, no time bound. *)
Definition open_payload (payload : Payload.t) : Prop :=
  default "any" (Payload.scope payload) = "any"
  ∧ _normalise_keywords (default [] (Payload.what payload)) = []
  ∧ Payload.where_ payload = None
  ∧ Payload.when_start payload = None
  ∧ Payload.when_end payload = None.

Definition open_sample_payload : Payload.t :=
  {| Payload.user_id := Some "alice";
     Payload.scope := None;
     Payload.what := Some ["   "];
     Payload.where_ := None;
     Payload.when_start := None;
     Payload.when_end := None;
     Payload.room_id := None;
     Payload.chat_id := None |}.

(** A stored subscription whose keyword was not lower-cased. *)
Definition shouting_subscription : Sub.t :=
  {| Sub._id := "s6";
     Sub.user_id := Some "alice";
     Sub.scope := Some "any";
     Sub.what := Some ["URGENT"];
     Sub.where_ := None;
     Sub.when_start := None;
     Sub.when_end := None;
     Sub.room_id := None;
     Sub.chat_id := None;
     Sub.created_at := None |}.

(** No key of a registry of groups is left with the empty set. *)
Definition no_empty_group (d : gmap string (gset WebSocket)) : Prop :=
  ∀ key members, d !! key = Some members → members ≠ ∅.

(** No session is left without a participant. *)
Definition no_empty_session (sessions : gmap string (gmap string WebSocket)) : Prop :=
  ∀ session_id session, sessions !! session_id = Some session → session ≠ ∅.

(** [send] ran into a failing connection of [user] in [snapshot]. *)
Definition dropped (fails : WebSocket → bool) (exclude : gset string)
    (snapshot : list (string * WebSocket)) (user : string) : bool :=
  existsb (fun uc : string * WebSocket =>
             bool_decide (uc.1 = user) && negb (bool_decide (uc.1 ∈ exclude))
             && fails uc.2) snapshot.

(** A registry with one room of one connection, and one with one session
    of one participant. *)
Definition one_room : gmap string (gset WebSocket) := {["lobby" := {[1]}]}.

Definition one_session : gmap string (gmap string WebSocket) :=
  {["chat" := {["alice" := 1]}]}.

Definition timed_payload : MsgPayload.t :=
  {| MsgPayload.user_id := "bob";
     MsgPayload.content := "hello";
     MsgPayload.location := None;
     MsgPayload.event_time := Some (TimeObj (Naive 20240101080000%Z));
     MsgPayload.scope := "common";
     MsgPayload.room_id := None;
     MsgPayload.chat_id := None |}.

(** ** Vocabulary of the sorted reads *)

Definition oldest_first {A : Type} (key : A → option datetime) (l : list A) : Prop :=
  StronglySorted
    (fun a b => ∀ ta tb, key a = Some ta → key b = Some tb → (ta ≤ tb)%Z) l.

(** A stored message that [fetch_history] can render: its [created_at] is
    a date and its [event_time] is a date, empty or absent. *)
Definition well_stored (item : Msg.t) : Prop :=
  (∃ t, Msg.created_at item = Some (TimeObj t))
  ∧ ∀ s, Msg.event_time item = Some (TimeStr s) → s = "".

(** What the arguments of [fetch_history] ask of a message. *)
Definition requested (scope : string) (room_id chat_id : option string)
    (before : option datetime) (item : Msg.t) : Prop :=
  Msg.scope item = Some scope
  ∧ (∀ r, room_id = Some r → r ≠ "" → Msg.room_id item = Some r)
  ∧ (∀ c, chat_id = Some c → c ≠ "" → Msg.chat_id item = Some c)
  ∧ (∀ b, before = Some b → ∃ t, Msg.created_at item = Some (TimeObj (Naive t)) ∧ (t < b)%Z).

(** A store of three messages, two of the room [lobby]. *)
Definition stored (user_id content scope : string) (room_id : option string)
    (at_ : datetime) : Msg.t :=
  {| Msg.id := content;
     Msg.user_id := user_id;
     Msg.content := Some content;
     Msg.location := None;
     Msg.event_time := None;
     Msg.scope := Some scope;
     Msg.room_id := room_id;
     Msg.chat_id := None;
     Msg.created_at := Some (TimeObj (Naive at_)) |}.

Definition sample_store : list Msg.t :=
  [ stored "alice" "second" "room" (Some "lobby") 20240102000000%Z;
    stored "bob" "elsewhere" "common" None 20240103000000%Z;
    stored "bob" "first" "room" (Some "lobby") 20240101000000%Z;
    stored "alice" "third" "room" (Some "lobby") 20240104000000%Z ].


(** ** Histories ([chat.py], [main.py])

    [CommonChat.history], [RoomManager.history] and [p2p_history], up to
    the dictionaries they give to [MessageOut]. *)

Section Histories.
Context `{DatetimeModule} `{SortModule}.




End Histories.


(** A world with the store of the sample messages and three connections
    in the room [lobby]. *)
Definition history_world : World :=
  {| messages := sample_store;
     subscriptions := [];
     common_connections := ∅;
     room_connections := lobby;
     p2p_manager := ∅;
     subscription_manager := ∅ |}.

(** ** Settings ([app/config.py]) *)

(** [s.split(",")] *)
Fixpoint split_commas (s : string) : list string :=
  match s with
  | EmptyString => [EmptyString]
  | String c s' =>
      if Ascii.eqb c "," then EmptyString :: split_commas s'
      else match split_commas s' with
           | head :: tail => String c head :: tail
           | [] => [String c EmptyString]
           end
  end.

(** [os.getenv(key, default)] on an environment. *)
Definition getenv (environ : gmap string string) (key default : string) : string :=
  match environ !! key with
  | Some value => value
  | None => default
  end.

Module Settings.
Record t : Type := {
  mongo_uri : string;
  mongo_db : string;
  allowed_origins : list string;
  debug : bool;
}.

(** [Settings.__init__] *)
Definition __init__ (environ : gmap string string) : t :=
  {| mongo_uri := getenv environ "MONGO_URI" "mongodb://localhost:27017";
     mongo_db := getenv environ "MONGO_DB" "chat_server";
     allowed_origins :=
       List.map (fun origin => Str.strip origin)
         (split_commas (getenv environ "ALLOWED_ORIGINS" "*"));
     debug :=
       bool_decide (Str.lower (getenv environ "DEBUG" "false") = "true") |}.
End Settings.

(** [",".join(parts)] *)
Fixpoint join_commas (parts : list string) : string :=
  match parts with
  | [] => ""
  | [part] => part
  | part :: rest => (part ++ String "," (join_commas rest))%string
  end.

(** The characters of a string. *)
Fixpoint characters (s : string) : list ascii :=
  match s with
  | EmptyString => []
  | String c s' => c :: characters s'
  end.

Definition comma_free (s : string) : Prop := ","%char ∉ characters s.

(** ** Rooms ([RoomManager.create], [RoomManager.list] of [app/chat.py])

    A stored room is a document that [create] has written: a dumped
    [RoomCreate] and its [_id]. *)

Module Place.
(** A dumped [schemas.Location] of a room. *)
Record t : Type := {
  name : option string;
  latitude : float;
  longitude : float;
  radius_km : option float;
}.
End Place.

Module RoomCreate.
Record t : Type := {
  name : string;
  description : option string;
  tags : list string;
  topic : option string;
  location : option Place.t;
  event_time : option datetime;
}.
End RoomCreate.

Module Room.
Record t : Type := {
  _id : string;
  name : string;
  description : option string;
  tags : list string;
  topic : option string;
  location : option Place.t;
  event_time : option datetime;
}.
End Room.

Module RoomOut.
Record t : Type := {
  id : string;
  name : string;
  description : option string;
  tags : list string;
  topic : option string;
  location : option Place.t;
  event_time : option datetime;
}.
End RoomOut.

(** What the store decides: whether a room matches a [$text] search, and
    the order [$gte] and [$lte] compare two numbers by. *)
Class RoomStore := {
  text_search : string → Room.t → bool;
  number_le : float → float → bool;
}.

Inductive room_exn : Type :=
| MathError (e : exn)
| ZeroDivisionError.

Inductive listed (A : Type) : Type :=
| Listed (a : A)
| NotListed (e : room_exn).
Arguments Listed {A} a.
Arguments NotListed {A} e.

(** [x / y] on floats *)
Definition float_div (x y : float) : listed float :=
  if (y =? 0)%float then NotListed ZeroDivisionError else Listed (x / y)%float.

(** [max(x, y)] on floats: the first unless the second is greater. *)
Definition float_max (x y : float) : float :=
  if (x <? y)%float then y else x.

(** The arguments of [RoomManager.list]. *)
Module RoomQuery.
Record t : Type := {
  tags : list string;
  topic : option string;
  q : option string;
  latitude : option float;
  longitude : option float;
  radius_km : option float;
  start_time : option datetime;
  end_time : option datetime;
}.
End RoomQuery.

(** The box around a position that [list] asks the rooms to be in. *)
Record box : Type := {
  south : float; north : float; west : float; east : float;
}.

Section Rooms.
Context `{MathModule} `{RoomStore}.

Definition RoomManager_create (rooms : list Room.t) (room : RoomCreate.t)
    (inserted_id : string) : list Room.t * RoomOut.t :=
  let tags := List.map (fun tag => Str.lower tag) (RoomCreate.tags room) in
  let document :=
    {| Room._id := inserted_id;
       Room.name := RoomCreate.name room;
       Room.description := RoomCreate.description room;
       Room.tags := tags;
       Room.topic := RoomCreate.topic room;
       Room.location := RoomCreate.location room;
       Room.event_time := RoomCreate.event_time room |} in
  (rooms ++ [document],
   {| RoomOut.id := _serialize_id inserted_id;
      RoomOut.name := Room.name document;
      RoomOut.description := Room.description document;
      RoomOut.tags := Room.tags document;
      RoomOut.topic := Room.topic document;
      RoomOut.location := Room.location document;
      RoomOut.event_time := Room.event_time document |}).

(** The filter on the position, when the three numbers are given. *)
Definition bounding_box (query : RoomQuery.t) : listed (option box) :=
  match RoomQuery.latitude query, RoomQuery.longitude query,
        RoomQuery.radius_km query with
  | Some latitude, Some longitude, Some radius_km =>
      match float_div radius_km 0x1.ba4bc6a7ef9dbp+6 with
      | NotListed e => NotListed e
      | Listed lat_delta =>
          match math_cos (radians latitude) with
          | Raise e => NotListed (MathError e)
          | Ok c =>
              match float_div radius_km
                      (0x1.bd47ae147ae14p+6
                       * float_max (PrimFloat.abs c) 0x1.a36e2eb1c432dp-14)%float with
              | NotListed e => NotListed e
              | Listed lon_delta =>
                  Listed (Some {| south := (latitude - lat_delta)%float;
                                  north := (latitude + lat_delta)%float;
                                  west := (longitude - lon_delta)%float;
                                  east := (longitude + lon_delta)%float |})
              end
          end
      end
  | _, _, _ => Listed None
  end.

(** The query that [list] gives to [rooms.find], on one room. *)
Definition room_selected (query : RoomQuery.t) (around : option box)
    (document : Room.t) : bool :=
  (match RoomQuery.tags query with
   | [] => true
   | tags =>
       forallb (fun tag => bool_decide (tag ∈ Room.tags document))
         (List.map (fun tag => Str.lower tag) tags)
   end)
  && (if str_truthy (RoomQuery.topic query)
      then bool_decide (Room.topic document = RoomQuery.topic query) else true)
  && (match RoomQuery.start_time query, RoomQuery.end_time query with
      | None, None => true
      | start_time, end_time =>
          match Room.event_time document with
          | None => false
          | Some t =>
              (match start_time with Some s => (s <=? t)%Z | None => true end)
              && (match end_time with Some e => (t <=? e)%Z | None => true end)
          end
      end)
  && (match RoomQuery.q query with
      | Some q => if Str.is_empty q then true else text_search q document
      | None => true
      end)
  && (match around with
      | None => true
      | Some b =>
          match Room.location document with
          | None => false
          | Some place =>
              number_le (south b) (Place.latitude place)
              && number_le (Place.latitude place) (north b)
              && number_le (west b) (Place.longitude place)
              && number_le (Place.longitude place) (east b)
          end
      end).

Definition room_out (document : Room.t) : RoomOut.t :=
  {| RoomOut.id := _serialize_id (Room._id document);
     RoomOut.name := Room.name document;
     RoomOut.description := Room.description document;
     RoomOut.tags := Room.tags document;
     RoomOut.topic := Room.topic document;
     RoomOut.location := Room.location document;
     RoomOut.event_time := Room.event_time document |}.

Definition RoomManager_list (rooms : list Room.t) (query : RoomQuery.t)
    : listed (list RoomOut.t) :=
  match bounding_box query with
  | NotListed e => NotListed e
  | Listed around =>
      Listed (List.map room_out (List.filter (room_selected query around) rooms))
  end.

End Rooms.

(** A query by tags and topic alone. *)
Definition by_tags (tags : list string) (topic : option string) : RoomQuery.t :=
  {| RoomQuery.tags := tags;
     RoomQuery.topic := topic;
     RoomQuery.q := None;
     RoomQuery.latitude := None;
     RoomQuery.longitude := None;
     RoomQuery.radius_km := None;
     RoomQuery.start_time := None;
     RoomQuery.end_time := None |}.

(** A store that finds no text and compares numbers as IEEE does. *)
Definition plain_store : RoomStore :=
  {| text_search := fun _ _ => false;
     number_le := fun x y => (x <=? y)%float |}.

Definition fire_drill : RoomCreate.t :=
  {| RoomCreate.name := "Drill";
     RoomCreate.description := None;
     RoomCreate.tags := ["Fire"; "SAFETY"];
     RoomCreate.topic := Some "training";
     RoomCreate.location := None;
     RoomCreate.event_time := None |}.

(** Two tags that differ in the case of their letters at most. *)
Definition same_tag (a b : string) : Prop := Str.lower a = Str.lower b.

(** A subscription to what happens within ten km of (0, 0) on the first of
    January 2024, from 08:00:00 to 18:00:00, and one whose location filter
    has no coordinates. *)
Definition near_origin_that_day : Sub.t :=
  {| Sub._id := "s7";
     Sub.user_id := Some "erin";
     Sub.scope := Some "any";
     Sub.what := Some [];
     Sub.where_ :=
       Some {| name := None; latitude := Some 0%float; longitude := Some 0%float;
               radius_km := Some 10%float |};
     Sub.when_start := Some 20240101080000%Z;
     Sub.when_end := Some 20240101180000%Z;
     Sub.room_id := None;
     Sub.chat_id := None;
     Sub.created_at := None |}.

Definition no_latitude_that_day : Sub.t :=
  {| Sub._id := "s8";
     Sub.user_id := Some "erin";
     Sub.scope := Some "any";
     Sub.what := Some [];
     Sub.where_ :=
       Some {| name := None; latitude := None; longitude := None;
               radius_km := Some 5%float |};
     Sub.when_start := Some 20240101080000%Z;
     Sub.when_end := Some 20240101180000%Z;
     Sub.room_id := None;
     Sub.chat_id := None;
     Sub.created_at := None |}.

(** A message sent from ([lat], [lon]) with the event time [event_time]. *)
Definition message_at_time (lat lon : float) (event_time : string) : Msg.t :=
  {| Msg.id := "m5";
     Msg.user_id := "bob";
     Msg.content := Some "hello";
     Msg.location :=
       Some {| name := None; latitude := Some lat; longitude := Some lon;
               radius_km := None |};
     Msg.event_time := Some (TimeStr event_time);
     Msg.scope := Some "common";
     Msg.room_id := None;
     Msg.chat_id := None;
     Msg.created_at := None |}.

(** A payload whose event time was given with its offset from UTC. *)
Definition aware_payload : MsgPayload.t :=
  {| MsgPayload.user_id := "bob";
     MsgPayload.content := "hello";
     MsgPayload.location := None;
     MsgPayload.event_time := Some (TimeObj (Aware 20240101120000%Z 0));
     MsgPayload.scope := "common";
     MsgPayload.room_id := None;
     MsgPayload.chat_id := None |}.



(** ** The haversine formula

    The formula as the specification names it: the great-circle distance
    between two points of a sphere of radius [r], given by their latitudes
    and longitudes in degrees, is
    [2 r asin (sqrt (hav (lat2 - lat1) + cos lat1 cos lat2 hav (lon2 - lon1)))],
    where [hav x] is the square of [sin (x / 2)]. *)

Section Haversine.
Context `{MathModule}.

Definition hav (degrees : float) : result float :=
  half ← math_sin (radians degrees / 2)%float;
  float_pow half 2%float.

Definition haversine_formula (r lat1 lon1 lat2 lon2 : float) : result float :=
  hav_lat ← hav (lat2 - lat1)%float;
  cos1 ← math_cos (radians lat1);
  cos2 ← math_cos (radians lat2);
  hav_lon ← hav (lon2 - lon1)%float;
  root ← math_sqrt (hav_lat + cos1 * cos2 * hav_lon)%float;
  angle ← math_asin root;
  Ok (r * (2 * angle))%float.

End Haversine.

(** ** The keyword functions on other strings

    [_normalise_keywords] and [_match_keywords] use four operations of
    [str]: [lower], [strip], the truth value and [in].  [normalise_on] and
    [match_keywords_on] are the two functions over any type of strings
    with these operations; over [string] they are the functions above. *)

Record StrOps (S : Type) : Type := {
  op_lower : S → S;
  op_strip : S → S;
  op_is_empty : S → bool;
  op_contains : S → S → bool;
}.
Arguments op_lower {S} _ _.
Arguments op_strip {S} _ _.
Arguments op_is_empty {S} _ _.
Arguments op_contains {S} _ _ _.

Definition normalise_on {S : Type} (ops : StrOps S) (keywords : list S) : list S :=
  List.map (fun word => op_lower ops (op_strip ops word))
    (List.filter (fun word => negb (op_is_empty ops (op_strip ops word))) keywords).

(** [_match_keywords] on the keywords of the subscription and the content
    of the message. *)
Definition match_keywords_on {S : Type} (ops : StrOps S) (keywords : list S)
    (content : S) : bool :=
  match keywords with
  | [] => true
  | _ =>
      let content := op_lower ops content in
      existsb (fun keyword => op_contains ops content keyword) keywords
  end.

Definition latin1 : StrOps string :=
  {| op_lower := Str.lower;
     op_strip := Str.strip;
     op_is_empty := Str.is_empty;
     op_contains := Str.contains |}.

(** *** Strings of code points

    A [str] as the list of its code points.  The tables are those of
    Unicode for the code points below 256 and for the Greek letters
    U+0391 to U+03C9; on strings of these code points [lower] is
    [str.lower], [strip] is [str.strip] and [contains] is [in]. *)

Module Unicode.

Local Open Scope N_scope.

Definition between (first last c : N) : bool := (first <=? c) && (c <=? last).

(** The code points with a lower-case form of their own, which is 32
    further in each of these ranges. *)
Definition has_lower (c : N) : bool :=
  between 0x41 0x5A c || between 0xC0 0xD6 c || between 0xD8 0xDE c
  || between 0x391 0x3A1 c || between 0x3A3 0x3AB c.

Definition lower_one (c : N) : N := if has_lower c then c + 32 else c.

(** The properties [Cased] and [Case_Ignorable]. *)
Definition cased (c : N) : bool :=
  between 0x41 0x5A c || between 0x61 0x7A c || (c =? 0xAA) || (c =? 0xB5)
  || (c =? 0xBA) || between 0xC0 0xD6 c || between 0xD8 0xF6 c
  || between 0xF8 0xFF c || between 0x391 0x3A1 c || between 0x3A3 0x3C9 c.

Definition case_ignorable (c : N) : bool :=
  (c =? 0x27) || (c =? 0x2E) || (c =? 0x3A) || (c =? 0x5E) || (c =? 0x60)
  || (c =? 0xA8) || (c =? 0xAD) || (c =? 0xAF) || (c =? 0xB4)
  || between 0xB7 0xB8 c.

Fixpoint skip_ignorable (s : list N) : list N :=
  match s with
  | [] => []
  | c :: rest => if case_ignorable c then skip_ignorable rest else s
  end.

(** A capital sigma is final when a cased letter comes before it and none
    comes after it, the code points that case ignores being skipped;
    [before] holds the code points before it, the nearest first. *)
Definition final_sigma (before after : list N) : bool :=
  match skip_ignorable before with
  | c :: _ => cased c
  | [] => false
  end
  && match skip_ignorable after with
     | c :: _ => negb (cased c)
     | [] => true
     end.

Fixpoint lower_from (before s : list N) : list N :=
  match s with
  | [] => []
  | c :: rest =>
      (if c =? 0x3A3
       then if final_sigma before rest then 0x3C2 else 0x3C3
       else lower_one c)
      :: lower_from (c :: before) rest
  end.

(** [s.lower()] *)
Definition lower (s : list N) : list N := lower_from [] s.

Definition isspace (c : N) : bool :=
  between 9 13 c || between 28 32 c || (c =? 133) || (c =? 160).

Fixpoint lstrip (s : list N) : list N :=
  match s with
  | [] => []
  | c :: rest => if isspace c then lstrip rest else s
  end.

(** [s.strip()] *)
Definition strip (s : list N) : list N := reverse (lstrip (reverse (lstrip s))).

Definition is_empty (s : list N) : bool :=
  match s with [] => true | _ => false end.

Fixpoint startswith (s p : list N) {struct p} : bool :=
  match p, s with
  | [], _ => true
  | a :: p', b :: s' => (a =? b) && startswith s' p'
  | _ :: _, [] => false
  end.

(** [k in s] *)
Fixpoint contains (s k : list N) : bool :=
  startswith s k ||
  match s with
  | [] => false
  | _ :: s' => contains s' k
  end.

Definition ops : StrOps (list N) :=
  {| op_lower := lower;
     op_strip := strip;
     op_is_empty := is_empty;
     op_contains := contains |}.

(** [k] occurs in [s], letter case set aside. *)
Definition occurs_ignoring_case (k s : list N) : Prop :=
  ∃ pre mid post, s = pre ++ mid ++ post ∧ lower mid = lower k.

End Unicode.

(** * Properties *)

(** ** Strings *)

Module StrFacts.
Import Str.

Lemma app_nil_l s : ("" ++ s)%string = s.
Proof. reflexivity. Qed.

Lemma app_cons c s t : (String c s ++ t)%string = String c (s ++ t)%string.
Proof. reflexivity. Qed.

Ltac norm := repeat first [rewrite app_cons | rewrite app_nil_l | progress simpl].
Ltac norm_in H :=
  repeat first [rewrite app_cons in H | rewrite app_nil_l in H | progress simpl in H].

Lemma startswith_spec s p :
  startswith s p = true ↔ ∃ post, s = (p ++ post)%string.
Proof.
  revert s; induction p as [|a p IH]; intros s; simpl.
  - split; [intros _; by exists s | done].
  - destruct s as [|b s]; simpl.
    + split; [done | intros [post Hp]; discriminate].
    + destruct (ascii_dec a b) as [->|Hne].
      * rewrite IH. split; intros [post Hp]; exists post; norm_in Hp; norm; congruence.
      * split; [done | intros [post Hp]; norm_in Hp; congruence].
Qed.

Lemma contains_spec s k :
  contains s k = true ↔ ∃ pre post, s = (pre ++ k ++ post)%string.
Proof.
  induction s as [|c s IH]; simpl.
  - rewrite orb_false_r, startswith_spec. split.
    + intros [post Hp]. by exists "", post.
    + intros (pre & post & Hp). destruct pre; [by exists post | discriminate].
  - rewrite orb_true_iff, startswith_spec, IH. split.
    + intros [[post Hp] | (pre & post & Hp)].
      * by exists "", post.
      * exists (String c pre), post. norm. by rewrite Hp.
    + intros (pre & post & Hp). destruct pre as [|c' pre]; norm_in Hp.
      * left. by exists post.
      * right. exists pre, post. congruence.
Qed.

Lemma lower_char_idemp c : lower_char (lower_char c) = lower_char c.
Proof. by destruct c as [[] [] [] [] [] [] [] []]. Qed.

Lemma isspace_lower_char c : isspace (lower_char c) = isspace c.
Proof. by destruct c as [[] [] [] [] [] [] [] []]. Qed.

Lemma lower_idemp s : lower (lower s) = lower s.
Proof. induction s; simpl; [done | by rewrite lower_char_idemp, IHs]. Qed.


Lemma lower_split s a b :
  lower s = (a ++ b)%string →
  ∃ a' b', s = (a' ++ b')%string ∧ lower a' = a ∧ lower b' = b.
Proof.
  revert s; induction a as [|c a IH]; intros s Hs; norm_in Hs.
  - by exists "", s.
  - destruct s as [|d s]; simpl in Hs; [discriminate|].
    injection Hs as Hc Hs. destruct (IH _ Hs) as (a' & b' & -> & Ha & Hb).
    exists (String d a'), b'. norm. by rewrite Hc, Ha.
Qed.

Lemma is_empty_lower s : is_empty (lower s) = is_empty s.
Proof. by destruct s. Qed.

Lemma is_empty_true s : is_empty s = true ↔ s = "".
Proof. by destruct s. Qed.

Lemma lstrip_lower s : lstrip (lower s) = lower (lstrip s).
Proof.
  induction s as [|c s IH]; simpl; [done|].
  rewrite isspace_lower_char. by destruct (isspace c).
Qed.

Lemma rstrip_lower s : rstrip (lower s) = lower (rstrip s).
Proof.
  induction s as [|c s IH]; simpl; [done|].
  rewrite isspace_lower_char, IH, is_empty_lower.
  by destruct (isspace c && is_empty (rstrip s)).
Qed.

Lemma strip_lower s : strip (lower s) = lower (strip s).
Proof. unfold strip. by rewrite lstrip_lower, rstrip_lower. Qed.

Lemma rstrip_idemp s : rstrip (rstrip s) = rstrip s.
Proof.
  induction s as [|c s IH]; simpl; [done|].
  destruct (isspace c && is_empty (rstrip s)) eqn:E; simpl; [done|].
  by rewrite IH, E.
Qed.

Lemma lstrip_clean s : clean_left (lstrip s).
Proof.
  induction s as [|c s IH]; simpl; [done|].
  by destruct (isspace c) eqn:E.
Qed.

Lemma rstrip_clean s : clean_left s → clean_left (rstrip s).
Proof. destruct s as [|c s]; simpl; [done|]. intros E. by rewrite E. Qed.

Lemma lstrip_of_clean s : clean_left s → lstrip s = s.
Proof. destruct s as [|c s]; simpl; [done|]. intros E. by rewrite E. Qed.

Lemma strip_idemp s : strip (strip s) = strip s.
Proof.
  unfold strip.
  rewrite (lstrip_of_clean (rstrip (lstrip s)));
    [apply rstrip_idemp | apply rstrip_clean, lstrip_clean].
Qed.


End StrFacts.

(** ** The four predicates *)

Section MatcherFacts.
Context `{MathModule} `{DatetimeModule}.

Lemma normalise_keywords_normalised keywords :
  Forall normalised (_normalise_keywords keywords).
Proof.
  unfold _normalise_keywords. apply Forall_forall. intros k Hk.
  apply list_elem_of_In, in_map_iff in Hk. destruct Hk as (w & <- & Hw).
  apply filter_In in Hw. destruct Hw as [_ Hw].
  apply negb_true_iff in Hw.
  repeat split.
  - by rewrite StrFacts.strip_lower, StrFacts.strip_idemp.
  - apply StrFacts.lower_idemp.
  - intros E. destruct (Str.strip w); [done | discriminate].
Qed.




(** C6.  The scope predicate passes when the scope filter of the
    subscription is ["any"]; under another filter it fails when the scope of
    the message differs from the filter; under the filter ["room"] and a
    room message it passes exactly when the subscription carries no room
    identifier or the one of the message; and likewise for ["p2p"] and the
    chat identifier.  Under any other filter an equal scope passes. *)
Theorem scope_predicate (subscription : Sub.t) (message : Msg.t) :
  let filter := default "any" (Sub.scope subscription) in
  (filter = "any" → _match_scope subscription message = true)
  ∧ (filter ≠ "any" → Msg.scope message ≠ Some filter →
     _match_scope subscription message = false)
  ∧ (filter = "room" → Msg.scope message = Some "room" →
     _match_scope subscription message = true
     ↔ ∀ r, carries (Sub.room_id subscription) r → Msg.room_id message = Some r)
  ∧ (filter = "p2p" → Msg.scope message = Some "p2p" →
     _match_scope subscription message = true
     ↔ ∀ c, carries (Sub.chat_id subscription) c → Msg.chat_id message = Some c)
  ∧ (filter ≠ "room" → filter ≠ "p2p" → Msg.scope message = Some filter →
     _match_scope subscription message = true).
Proof.
  intros filter. unfold _match_scope. fold filter. clearbody filter.
  unfold carries. split; [|split; [|split; [|split]]].
  - intros ->. done.
  - intros Hne Hs. rewrite (bool_decide_false (filter = "any")) by done.
    by rewrite (bool_decide_true (Msg.scope message ≠ Some filter)).
  - intros -> Hs. simpl. rewrite Hs. simpl.
    destruct (Sub.room_id subscription) as [[|c0 r]|]; simpl;
      [by split; [intros _ r [[= <-] ?]|] | | by split; [intros _ r [[=] ?]|]].
    case_bool_decide as E; simpl.
    + split; [done|]. intros Hall. exfalso. apply E. symmetry. by apply Hall.
    + split; [|done]. intros _ r' [[= <-] _].
      destruct (decide (Some (String c0 r) = Msg.room_id message)); [done|].
      by destruct E.
  - intros -> Hs. simpl. rewrite Hs. simpl.
    destruct (Sub.chat_id subscription) as [[|c0 r]|]; simpl;
      [by split; [intros _ r [[= <-] ?]|] | | by split; [intros _ r [[=] ?]|]].
    case_bool_decide as E; simpl.
    + split; [done|]. intros Hall. exfalso. apply E. symmetry. by apply Hall.
    + split; [|done]. intros _ r' [[= <-] _].
      destruct (decide (Some (String c0 r) = Msg.chat_id message)); [done|].
      by destruct E.
  - intros Hr Hp Hs.
    destruct (decide (filter = "any")) as [->|Hne]; [done|].
    rewrite (bool_decide_false (filter = "any")) by done.
    rewrite (bool_decide_false (Msg.scope message ≠ Some filter)) by (by intros ?).
    by rewrite (bool_decide_false (filter = "room")), (bool_decide_false (filter = "p2p")).
Qed.

End MatcherFacts.

Section TimeFacts.
Context `{DatetimeModule}.



Lemma match_time_unfold subscription message :
  _match_time subscription message =
    match raw_event message with
    | Some v =>
        if pytime_truthy (Some v) then
          match instant v with
          | Some (Naive t) =>
              Ok (negb (match Sub.when_start subscription with
                        | Some s => (t <? s)%Z
                        | None => false
                        end)
                  && negb (match Sub.when_end subscription with
                           | Some e => (e <? t)%Z
                           | None => false
                           end))
          | Some (Aware _ _) =>
              match Sub.when_start subscription, Sub.when_end subscription with
              | None, None => Ok true
              | _, _ => Raise naive_and_aware
              end
          | None => Ok true
          end
        else Ok true
    | None => Ok true
    end.
Proof.
  assert (∀ d : pydatetime,
    (match Sub.when_start subscription with
     | Some s => datetime_lt d (Naive s)
     | None => Ok false
     end ≫= (λ before_start : bool,
       if before_start then Ok false
       else
         match Sub.when_end subscription with
         | Some e => datetime_lt (Naive e) d
         | None => Ok false
         end ≫= (λ after_end : bool, if after_end then Ok false else Ok true)))
    = match d with
      | Naive t =>
          Ok (negb (match Sub.when_start subscription with
                    | Some s => (t <? s)%Z
                    | None => false
                    end)
              && negb (match Sub.when_end subscription with
                       | Some e => (e <? t)%Z
                       | None => false
                       end))
      | Aware _ _ =>
          match Sub.when_start subscription, Sub.when_end subscription with
          | None, None => Ok true
          | _, _ => Raise naive_and_aware
          end
      end) as Hcmp.
  { intros [t|utc offset]; simpl.
    - by destruct (Sub.when_start subscription) as [s|]; simpl;
        [destruct (t <? s)%Z; simpl|];
        destruct (Sub.when_end subscription) as [e|]; simpl;
        try destruct (e <? t)%Z.
    - by destruct (Sub.when_start subscription) as [s|],
                  (Sub.when_end subscription) as [e|]. }
  unfold _match_time. fold (raw_event message).
  destruct (raw_event message) as [[d|s]|]; simpl; [apply Hcmp| |done].
  destruct (Str.is_empty s); simpl; [done|].
  destruct (fromisoformat s) as [d|]; [apply Hcmp|done].
Qed.

Lemma match_time_unbounded subscription message :
  Sub.when_start subscription = None → Sub.when_end subscription = None →
  _match_time subscription message = Ok true.
Proof.
  intros Hs He. rewrite match_time_unfold, Hs, He.
  destruct (raw_event message) as [v|]; [|done].
  destruct (pytime_truthy (Some v)); [|done]. by destruct (instant v) as [[]|].
Qed.


End TimeFacts.

Section LocationFacts.
Context `{MathModule}.

(** The radius that [_match_location] compares: [radius_km], or zero. *)
Lemma radius_positive f r :
  radius_km f = Some r → (r =? 0)%float = false →
  match radius_km f with
  | Some r => if float_truthy r then r else 0%float
  | None => 0%float
  end = r.
Proof. intros -> Hz. unfold float_truthy. by rewrite Hz. Qed.

Lemma match_location_no_filter subscription message :
  Sub.where_ subscription = None →
  _match_location subscription message = Ok true.
Proof. unfold _match_location. by intros ->. Qed.

Lemma match_location_no_position subscription message f :
  Sub.where_ subscription = Some f → Msg.location message = None →
  _match_location subscription message = Ok false.
Proof. unfold _match_location. by intros -> ->. Qed.

Lemma match_location_disabled subscription message f l :
  Sub.where_ subscription = Some f → Msg.location message = Some l →
  radius_disabled f →
  _match_location subscription message = Ok true.
Proof.
  unfold _match_location.
  intros -> -> [Hn | (r & Hr & [Hz | Hle])]; rewrite ?Hn, ?Hr.
  - done.
  - unfold float_truthy. by rewrite Hz.
  - unfold float_truthy. destruct (r =? 0)%float; simpl; [done | by rewrite Hle].
Qed.

Lemma haversine_distance_formula lat1 lon1 lat2 lon2 :
  _haversine_distance lat1 lon1 lat2 lon2
  = haversine_formula 6371.0 lat1 lon1 lat2 lon2.
Proof.
  unfold _haversine_distance, haversine_formula, hav, EARTH_RADIUS_KM.
  destruct (math_sin (radians (lat2 - lat1) / 2)) as [s1|]; simpl; [|done].
  destruct (float_pow s1 2) as [p1|]; simpl; [|done].
  destruct (math_cos (radians lat1)) as [c1|]; simpl; [|done].
  destruct (math_cos (radians lat2)) as [c2|]; simpl; [|done].
  destruct (math_sin (radians (lon2 - lon1) / 2)) as [s2|]; simpl; [|done].
  by destruct (float_pow s2 2) as [p2|].
Qed.

(** C5.  The location predicate passes when the subscription has no
    location filter; fails when it has one and the message has no
    location; passes, wherever the message is, when the radius of the
    filter is absent, zero or negative; and otherwise passes exactly when
    the distance that the haversine formula gives between the two
    positions, on a sphere of radius 6371.0 km, is at most the radius.
    [_haversine_distance] computes this formula. *)
Theorem location_predicate (subscription : Sub.t) (message : Msg.t) :
  (Sub.where_ subscription = None →
   _match_location subscription message = Ok true)
  ∧ (∀ f, Sub.where_ subscription = Some f → Msg.location message = None →
     _match_location subscription message = Ok false)
  ∧ (∀ f l, Sub.where_ subscription = Some f → Msg.location message = Some l →
     radius_disabled f →
     _match_location subscription message = Ok true)
  ∧ (∀ f l r lat1 lon1 lat2 lon2,
     Sub.where_ subscription = Some f → Msg.location message = Some l →
     radius_km f = Some r → ¬ radius_disabled f →
     latitude f = Some lat1 → longitude f = Some lon1 →
     latitude l = Some lat2 → longitude l = Some lon2 →
     _match_location subscription message = Ok true
     ↔ ∃ distance,
         haversine_formula 6371.0 lat1 lon1 lat2 lon2 = Ok distance
         ∧ (distance <=? r)%float = true)
  ∧ (∀ lat1 lon1 lat2 lon2,
     _haversine_distance lat1 lon1 lat2 lon2
     = haversine_formula 6371.0 lat1 lon1 lat2 lon2).
Proof.
  split; [|split; [|split; [|split]]].
  - apply match_location_no_filter.
  - apply match_location_no_position.
  - apply match_location_disabled.
  - unfold _match_location. intros f l r lat1 lon1 lat2 lon2 -> -> Hr Hnd Hlat1 Hlon1 Hlat2 Hlon2.
    assert ((r =? 0)%float = false) as Hz.
    { destruct (r =? 0)%float eqn:E; [|done]. destruct Hnd. right. eauto. }
    assert ((r <=? 0)%float = false) as Hle.
    { destruct (r <=? 0)%float eqn:E; [|done]. destruct Hnd. right. eauto. }
    rewrite (radius_positive f r Hr Hz), Hle, Hlat1, Hlon1, Hlat2, Hlon2. simpl.
    rewrite haversine_distance_formula.
    destruct (haversine_formula 6371.0 lat1 lon1 lat2 lon2) as [d|e]; simpl.
    + split; [intros [= Hd]; by exists d | by intros (d' & [= <-] & ->)].
    + split; [done | by intros (d' & [=] & _)].
  - apply haversine_distance_formula.
Qed.

End LocationFacts.

(** ** The dispatch pass *)

Section DispatchFacts.
Context `{MathModule} `{DatetimeModule}.

Lemma matches_unfold subscription message :
  matches subscription message =
    if _match_scope subscription message then
      if _match_keywords subscription message then
        match _match_location subscription message with
        | Ok true => _match_time subscription message
        | Ok false => Ok false
        | Raise e => Raise e
        end
      else Ok false
    else Ok false.
Proof.
  unfold matches, and_then. simpl.
  destruct (_match_scope subscription message); simpl; [|done].
  destruct (_match_keywords subscription message); simpl; [|done].
  by destruct (_match_location subscription message) as [[]|].
Qed.

Lemma matches_all_four subscription message b :
  matches subscription message = Ok b → b = all_four message subscription.
Proof.
  rewrite matches_unfold. unfold all_four.
  destruct (_match_scope subscription message); simpl; [|by intros [= <-]].
  destruct (_match_keywords subscription message); simpl; [|by intros [= <-]].
  destruct (_match_location subscription message) as [[]|]; simpl;
    [|by intros [= <-]|done].
  by intros ->.
Qed.

Lemma prefilter_base message :
  ∃ extra,
    prefilter message
    = [[("scope", Some "any")]; [("scope", Msg.scope message)]] ++ extra.
Proof.
  unfold prefilter.
  destruct (bool_decide (Msg.scope message = Some "room") && _),
           (bool_decide (Msg.scope message = Some "p2p") && _);
    eexists; simpl; reflexivity.
Qed.







(** C2 (amended).  A stored subscription with a missing field is not
    failed closed.  A missing [scope] is read as ["any"]: the scope
    predicate passes.  A missing [what], [where] or pair of time bounds
    makes its predicate pass.  A location filter without [latitude] or
    [longitude] is a non-match when the message has no location, passes
    when its radius is absent, zero or negative, and is not looked at when
    the scope or the keyword predicate fails.  The pass over the
    subscriptions returns whenever each evaluation of [matches] does. *)
Theorem missing_fields (subscription : Sub.t) (message : Msg.t)
    (collection : list Sub.t) :
  (Sub.scope subscription = None → _match_scope subscription message = true)
  ∧ (Sub.what subscription = None → _match_keywords subscription message = true)
  ∧ (Sub.where_ subscription = None →
     _match_location subscription message = Ok true)
  ∧ (Sub.when_start subscription = None → Sub.when_end subscription = None →
     _match_time subscription message = Ok true)
  ∧ (∀ f, Sub.where_ subscription = Some f → Msg.location message = None →
     _match_location subscription message = Ok false)
  ∧ (∀ f l, Sub.where_ subscription = Some f → Msg.location message = Some l →
     radius_disabled f → _match_location subscription message = Ok true)
  ∧ (_match_scope subscription message = false
     ∨ _match_keywords subscription message = false →
     matches subscription message = Ok false)
  ∧ (Forall (fun s => ∃ b, matches s message = Ok b) collection →
     ∃ found, find_matching_subscriptions collection message = Ok found).
Proof.
  repeat split.
  all: try apply match_location_no_filter.
  all: try apply match_location_no_position.
  all: try apply match_location_disabled.
  - intros Hs. unfold _match_scope. by rewrite Hs.
  - intros Hw. unfold _match_keywords. by rewrite Hw.
  - apply match_time_unbounded.
  - intros [E|E]; rewrite matches_unfold, E; [done|].
    by destruct (_match_scope subscription message).
  - rewrite Forall_forall. intros Hall. unfold find_matching_subscriptions, find.
    assert (∀ l found, (∀ s, s ∈ l → ∃ b, matches s message = Ok b) →
              ∃ r, scan message l found = Ok r) as Hscan.
    { induction l as [|s l IH]; intros found Hl; simpl; [eauto|].
      destruct (Hl s) as [b ->]; [by left|]. simpl.
      destruct b; apply IH; intros s' Hs'; apply Hl; by right. }
    apply Hscan. intros s Hin. apply Hall.
    apply list_elem_of_In, filter_In in Hin. apply list_elem_of_In, Hin.
Qed.

End DispatchFacts.

(** ** The matcher on concrete documents *)


(** Over [string] the keyword functions on any strings are
    [_normalise_keywords] and [_match_keywords]. *)
Lemma keyword_functions_on_latin1 :
  (∀ keywords, _normalise_keywords keywords = normalise_on latin1 keywords)
  ∧ ∀ subscription message,
      _match_keywords subscription message
      = match_keywords_on latin1 (default [] (Sub.what subscription))
          (default "" (Msg.content message)).
Proof. split; reflexivity. Qed.


Example normalise_keywords_example :
  _normalise_keywords ["  Urgent "; "   "; "FIRE"] = ["urgent"; "fire"].
Proof. reflexivity. Qed.

Example keyword_examples :
  _match_keywords room_subscription (room_message "R1" "This is URGENT now") = true
  ∧ _match_keywords room_subscription (room_message "R1" "nothing here") = false.
Proof. split; reflexivity. Qed.

Example scope_examples :
  _match_scope room_subscription (room_message "R1" "x") = true
  ∧ _match_scope room_subscription (room_message "R2" "x") = false
  ∧ _match_scope room_subscription blank_message = false.
Proof. repeat split; reflexivity. Qed.

Example location_examples :
  @_match_location Sample.math (near_origin 10) (message_at 0 0x1.999999999999ap-5) = Ok true
  ∧ @_match_location Sample.math (near_origin 10) (message_at 0 1) = Ok false
  ∧ @_match_location Sample.math (near_origin 0) (message_at 0 1) = Ok true
  ∧ @_match_location Sample.math (near_origin (-3)) (message_at 0 1) = Ok true
  ∧ @_match_location Sample.math (near_origin 10) blank_message = Ok false
  ∧ @_match_location Sample.math (near_origin 0) blank_message = Ok false.
Proof. repeat split; vm_compute; reflexivity. Qed.

Example time_examples :
  let at_ s := message_of (Some (TimeStr s)) None in
  @_match_time Sample.dates day_subscription (at_ "2024-01-01T08:00:00") = Ok true
  ∧ @_match_time Sample.dates day_subscription (at_ "2024-01-01T18:00:00") = Ok true
  ∧ @_match_time Sample.dates day_subscription (at_ "2024-01-01T07:59:59") = Ok false
  ∧ @_match_time Sample.dates day_subscription (at_ "2024-01-01T18:00:01") = Ok false
  ∧ @_match_time Sample.dates day_subscription (at_ "yesterday") = Ok true
  ∧ @_match_time Sample.dates day_subscription (message_of None None) = Ok true
  ∧ @_match_time Sample.dates day_subscription
      (message_of None (Some (TimeStr "2024-01-02T09:00:00"))) = Ok false
  ∧ @_match_time Sample.dates day_subscription
      (message_of (Some (TimeStr "")) (Some (TimeObj (Naive 20240101090000%Z))))
    = Ok true
  ∧ @_match_time Sample.dates day_subscription (at_ "2024-01-01T12:00:00+00:00")
    = Raise naive_and_aware
  ∧ @_match_time Sample.dates blank_subscription (at_ "2024-01-01T12:00:00+00:00")
    = Ok true.
Proof. repeat split; vm_compute; reflexivity. Qed.

(** The order of the evaluation shows where two predicates disagree: a
    message out of reach with an aware event time is a non-match, the time
    predicate not being asked; a filter without [latitude] raises although
    the time of the message is before the window. *)
Example evaluation_order_examples :
  let far_aware := message_at_time 0 1 "2024-01-01T12:00:00+00:00" in
  let near_early := message_at_time 0 0 "2024-01-01T07:00:00" in
  @_match_location Sample.math near_origin_that_day far_aware = Ok false
  ∧ @_match_time Sample.dates near_origin_that_day far_aware = Raise naive_and_aware
  ∧ @matches Sample.math Sample.dates near_origin_that_day far_aware = Ok false
  ∧ @_match_location Sample.math no_latitude_that_day near_early
    = Raise (KeyError "latitude")
  ∧ @_match_time Sample.dates no_latitude_that_day near_early = Ok false
  ∧ @matches Sample.math Sample.dates no_latitude_that_day near_early
    = Raise (KeyError "latitude").
Proof. repeat split; vm_compute; reflexivity. Qed.




(** A stored subscription with no [scope] field is matched, and one whose
    location filter has no [latitude] ends the pass with [KeyError] before
    the subscription after it, which matches, is looked at. *)
Lemma malformed_subscription_counterexample :
  Sub.scope no_scope_subscription = None
  ∧ @matches Sample.math Sample.dates no_scope_subscription blank_message = Ok true
  ∧ (∃ f, Sub.where_ no_latitude_subscription = Some f ∧ latitude f = None)
  ∧ @matches Sample.math Sample.dates no_latitude_subscription located_message
    = Raise (KeyError "latitude")
  ∧ @matches Sample.math Sample.dates blank_subscription located_message = Ok true
  ∧ @find_matching_subscriptions Sample.math Sample.dates
      [no_latitude_subscription; blank_subscription] located_message
    = Raise (KeyError "latitude").
Proof. repeat split; try reflexivity. eexists; split; reflexivity. Qed.

(** ** The registries *)

Section RegistryFacts.
Variable fails : WebSocket → bool.

Lemma survivors_spec (s : gset WebSocket) h :
  h ∈ survivors fails s ↔ h ∈ s ∧ fails h = false.
Proof. unfold survivors. rewrite elem_of_filter. tauto. Qed.

(** Removing the failing connections of a list, one by one. *)
Lemma difference_failing (s : gset WebSocket) (snapshot : list WebSocket) h :
  h ∈ s ∖ list_to_set (List.filter fails snapshot)
  ↔ h ∈ s ∧ (h ∈ snapshot → fails h = false).
Proof.
  rewrite elem_of_difference, elem_of_list_to_set, list_elem_of_In, filter_In.
  rewrite <- list_elem_of_In. split.
  - intros [Hs Hn]. split; [done|]. intros Hin.
    destruct (fails h) eqn:E; [|done]. by destruct Hn.
  - intros [Hs Hn]. split; [done|]. intros [Hin Hf]. rewrite Hn in Hf; done.
Qed.

Lemma common_broadcast_loop message snapshot (active : gset WebSocket) :
  (ConnectionManager.broadcast_loop fails message snapshot active).1
    = active ∖ list_to_set (List.filter fails snapshot)
  ∧ (ConnectionManager.broadcast_loop fails message snapshot active).2
    = attempts message snapshot.
Proof.
  revert active. induction snapshot as [|c l IH]; intros active; simpl.
  - split; [by rewrite difference_empty_L | done].
  - destruct (IH (if fails c then active ∖ {[c]} else active)) as [-> ->].
    split; [|done]. destruct (fails c); simpl; [|done].
    by rewrite difference_difference_l_L.
Qed.

(** The loop of [RoomConnectionManager.broadcast], which is also that of
    [SubscriptionConnectionManager.notify]. *)
Lemma keyed_loop key message snapshot (d : gmap string (gset WebSocket)) :
  is_Some (d !! key) ∨ snapshot = [] →
  (∀ k, (RoomConnectionManager.broadcast_loop fails key message snapshot d).1 !! k
        = if decide (k = key)
          then (fun s => s ∖ list_to_set (List.filter fails snapshot)) <$> d !! key
          else d !! k)
  ∧ (RoomConnectionManager.broadcast_loop fails key message snapshot d).2
    = attempts message snapshot.
Proof.
  revert d. induction snapshot as [|c l IH]; intros d Hd; simpl.
  - split; [|done]. intros k. case_decide as E; [|done]. subst k.
    destruct (d !! key) as [s|]; simpl; [|done]. by rewrite difference_empty_L.
  - destruct Hd as [[s Hs]|?]; [|done].
    set (d' := if fails c then <[key := getitem key d ∖ {[c]}]> d else d).
    assert (d' !! key = Some (if fails c then s ∖ {[c]} else s)) as Hk.
    { unfold d', getitem. destruct (fails c); [|done].
      by rewrite lookup_insert_eq, Hs. }
    destruct (IH d') as [Hl ->]; [left; by rewrite Hk|]. split; [|done].
    intros k. rewrite Hl. case_decide as E.
    + rewrite Hk, Hs. simpl. f_equal. destruct (fails c); simpl; [|done].
      by rewrite difference_difference_l_L.
    + unfold d'. destruct (fails c); [|done]. by rewrite lookup_insert_ne.
Qed.

Lemma notify_loop_is_keyed_loop :
  SubscriptionConnectionManager.notify_loop = RoomConnectionManager.broadcast_loop.
Proof. reflexivity. Qed.

Lemma snapshot_or_missing key (d : gmap string (gset WebSocket)) :
  is_Some (d !! key) ∨ elements (getitem key d) = [].
Proof.
  unfold getitem. destruct (d !! key); [left; eauto | right; apply elements_empty].
Qed.

Lemma getitem_survivors key (d : gmap string (gset WebSocket)) :
  default ∅ ((fun s => s ∖ list_to_set (List.filter fails (elements (getitem key d))))
               <$> d !! key)
  = survivors fails (getitem key d).
Proof.
  apply set_eq. intros h. rewrite survivors_spec. unfold getitem.
  destruct (d !! key) as [s|]; simpl; [|rewrite elem_of_empty; tauto].
  rewrite difference_failing, elem_of_elements. tauto.
Qed.

Lemma room_broadcast_spec room_id message (rooms : gmap string (gset WebSocket)) :
  getitem room_id (RoomConnectionManager.broadcast fails room_id message rooms).1
    = survivors fails (getitem room_id rooms)
  ∧ (∀ other, other ≠ room_id →
       (RoomConnectionManager.broadcast fails room_id message rooms).1 !! other
       = rooms !! other)
  ∧ (RoomConnectionManager.broadcast fails room_id message rooms).2
    = attempts message (elements (getitem room_id rooms)).
Proof.
  unfold RoomConnectionManager.broadcast.
  destruct (keyed_loop room_id message (elements (getitem room_id rooms)) rooms
              (snapshot_or_missing room_id rooms)) as [Hl Hlog].
  simpl. rewrite Hlog.
  set (looped := (RoomConnectionManager.broadcast_loop fails room_id message
                    (elements (getitem room_id rooms)) rooms).1) in *.
  split; [|split; [|done]].
  - rewrite <- getitem_survivors. unfold getitem at 1.
    pose proof (Hl room_id) as Hr. rewrite decide_True in Hr by done.
    destruct (looped !! room_id) as [members|] eqn:E.
    + case_bool_decide as Hm.
      * rewrite lookup_delete_eq. rewrite <- Hr. simpl. by rewrite Hm.
      * by rewrite E, <- Hr.
    + by rewrite E, <- Hr.
  - intros other Hne. pose proof (Hl other) as Ho.
    rewrite decide_False in Ho by done.
    destruct (looped !! room_id) as [members|]; [|done].
    case_bool_decide; [|done]. by rewrite lookup_delete_ne.
Qed.

Lemma notify_lookup user_id payload (users : gmap string (gset WebSocket)) k :
  (SubscriptionConnectionManager.notify fails user_id payload users).1 !! k
  = if decide (k = user_id)
    then survivors fails <$> users !! user_id
    else users !! k.
Proof.
  unfold SubscriptionConnectionManager.notify. rewrite notify_loop_is_keyed_loop.
  destruct (keyed_loop user_id payload (elements (getitem user_id users)) users
              (snapshot_or_missing user_id users)) as [Hl _].
  rewrite Hl. case_decide; [|done].
  pose proof (getitem_survivors user_id users) as Hg. unfold getitem in Hg at 2.
  destruct (users !! user_id) as [s|]; simpl in *; [|done]. by rewrite Hg.
Qed.

End RegistryFacts.

Section BroadcastFacts.
Variable fails : WebSocket → bool.

Lemma elem_of_attempts message snapshot h m :
  (h, m) ∈ attempts message snapshot ↔ m = message ∧ h ∈ snapshot.
Proof.
  unfold attempts. rewrite list_elem_of_fmap. split.
  - intros (c & [= -> ->] & Hc). done.
  - intros [-> Hh]. by exists h.
Qed.


Lemma broadcast_inner_dom user payload snapshot (users : gmap string (gset WebSocket)) :
  dom (SubscriptionConnectionManager.broadcast_inner fails user payload snapshot users).1
  = dom users.
Proof.
  revert users. induction snapshot as [|c l IH]; intros users; simpl; [done|].
  rewrite IH. destruct (fails c); [|done]. apply dom_alter_L.
Qed.

Lemma broadcast_outer_dom payload values (users : gmap string (gset WebSocket)) :
  dom (SubscriptionConnectionManager.broadcast_outer fails payload values users).1
  = dom users.
Proof.
  revert users. induction values as [|[user conns] l IH]; intros users; simpl; [done|].
  by rewrite IH, broadcast_inner_dom.
Qed.

(** C10.  [notify] leaves the set of user keys as it was, also when every
    connection of the user fails and the user is left with the empty set;
    [connect] and [broadcast] remove no key either; [disconnect] removes
    the key of a user whose set it leaves empty. *)
Theorem notify_keeps_users (user_id : string) (payload : frame)
    (users : gmap string (gset WebSocket)) :
  let notified := (SubscriptionConnectionManager.notify fails user_id payload users).1 in
  dom notified = dom users
  ∧ (∀ connections, users !! user_id = Some connections →
       (∀ c, c ∈ connections → fails c = true) →
       notified !! user_id = Some ∅)
  ∧ (∀ websocket connections, notified !! user_id = Some connections →
       connections ∖ {[websocket]} = ∅ →
       SubscriptionConnectionManager.disconnect user_id websocket notified !! user_id
       = None)
  ∧ dom (SubscriptionConnectionManager.broadcast fails payload users).1 = dom users
  ∧ (∀ other websocket,
       dom users ⊆ dom (SubscriptionConnectionManager.connect other websocket users)).
Proof.
  intros notified.
  assert (∀ k, notified !! k
               = if decide (k = user_id) then survivors fails <$> users !! user_id
                 else users !! k) as Hl
    by (intros k; apply notify_lookup).
  split; [|split; [|split; [|split]]].
  - apply set_eq. intros k. rewrite !elem_of_dom, Hl.
    case_decide as E; [|done]. subst k. by rewrite fmap_is_Some.
  - intros connections Hu Hf. rewrite Hl, decide_True, Hu by done. simpl.
    f_equal. apply set_eq. intros h. rewrite survivors_spec. split; [|set_solver].
    intros [Hh Hn]. rewrite (Hf h Hh) in Hn. done.
  - intros websocket connections Hn He.
    unfold SubscriptionConnectionManager.disconnect. rewrite Hn. simpl.
    rewrite bool_decide_true by done. apply lookup_delete_eq.
  - apply broadcast_outer_dom.
  - intros other websocket. unfold SubscriptionConnectionManager.connect.
    rewrite dom_insert_L. set_solver.
Qed.

End BroadcastFacts.

(** ** Replaying joins and leaves *)

Section ReplayFacts.

Lemma snoc_split {A} (ops before after : list A) (op x : A) :
  ops ++ [op] = before ++ x :: after →
  (after = [] ∧ ops = before ∧ op = x)
  ∨ (∃ after', after = after' ++ [op] ∧ ops = before ++ x :: after').
Proof.
  destruct after as [|a after' _] using rev_ind; intros E.
  - apply app_inj_tail in E as [-> ->]. by left.
  - right. exists after'.
    change (before ++ x :: after' ++ [a]) with (before ++ (x :: after') ++ [a]) in E.
    rewrite app_assoc in E. apply app_inj_tail in E as [-> ->]. done.
Qed.

Lemma joined_not_left_nil websocket : ¬ joined_not_left [] websocket.
Proof. intros (before & after & E & _). by destruct before. Qed.

Lemma joined_not_left_join ops w websocket :
  joined_not_left (ops ++ [Join w]) websocket
  ↔ websocket = w ∨ joined_not_left ops websocket.
Proof.
  unfold joined_not_left. split.
  - intros (before & after & E & Hn).
    apply snoc_split in E as [(-> & -> & [= ->]) | (after' & -> & ->)]; [by left|].
    right. exists before, after'. split; [done|].
    intros Hin. apply Hn, elem_of_app. by left.
  - intros [-> | (before & after & -> & Hn)].
    + exists ops, []. split; [done|]. apply not_elem_of_nil.
    + exists before, (after ++ [Join w]). split; [by rewrite <- app_assoc|].
      rewrite elem_of_app, list_elem_of_singleton. by intros [?|?].
Qed.

Lemma joined_not_left_leave ops w websocket :
  joined_not_left (ops ++ [Leave w]) websocket
  ↔ websocket ≠ w ∧ joined_not_left ops websocket.
Proof.
  unfold joined_not_left. split.
  - intros (before & after & E & Hn).
    apply snoc_split in E as [(-> & -> & [=]) | (after' & -> & ->)].
    split.
    + intros ->. apply Hn, elem_of_app. right. by apply list_elem_of_singleton.
    + exists before, after'. split; [done|].
      intros Hin. apply Hn, elem_of_app. by left.
  - intros [Hne (before & after & -> & Hn)].
    exists before, (after ++ [Leave w]). split; [by rewrite <- app_assoc|].
    rewrite elem_of_app, list_elem_of_singleton. intros [?|[= ->]]; done.
Qed.

(** A registry of connections replays its operations to the connections
    joined and not left since. *)
Lemma replay_set {S} (members : S → gset WebSocket) (step : S → set_op → S)
    (init : S) :
  members init = ∅ →
  (∀ s w, members (step s (Join w)) = members s ∪ {[w]}) →
  (∀ s w, members (step s (Leave w)) = members s ∖ {[w]}) →
  ∀ ops websocket,
    websocket ∈ members (foldl step init ops) ↔ joined_not_left ops websocket.
Proof.
  intros Hinit Hjoin Hleave ops websocket.
  induction ops as [|op ops IH] using rev_ind.
  - simpl. rewrite Hinit. split; [set_solver|]. intros H. by apply joined_not_left_nil in H.
  - rewrite foldl_app. simpl. destruct op as [w|w].
    + rewrite Hjoin, joined_not_left_join, elem_of_union, elem_of_singleton, IH. tauto.
    + rewrite Hleave, joined_not_left_leave, elem_of_difference, elem_of_singleton, IH.
      tauto.
Qed.

Lemma keyed_connect key websocket (d : gmap string (gset WebSocket)) :
  getitem key (RoomConnectionManager.connect key websocket d)
  = getitem key d ∪ {[websocket]}.
Proof.
  unfold RoomConnectionManager.connect. unfold getitem at 1.
  by rewrite lookup_insert_eq.
Qed.

Lemma keyed_disconnect key websocket (d : gmap string (gset WebSocket)) :
  getitem key (RoomConnectionManager.disconnect key websocket d)
  = getitem key d ∖ {[websocket]}.
Proof.
  unfold RoomConnectionManager.disconnect, getitem.
  destruct (d !! key) as [members|] eqn:E; simpl.
  - case_bool_decide as Hm.
    + by rewrite lookup_delete_eq, Hm.
    + by rewrite lookup_insert_eq.
  - rewrite E. simpl. apply set_eq. intros x.
    rewrite elem_of_difference, elem_of_empty. tauto.
Qed.

Lemma registered_connect session_id user_id websocket sessions user :
  registered session_id
    (P2PConnectionManager.connect session_id user_id websocket sessions) user
  = if decide (user = user_id) then Some websocket
    else registered session_id sessions user.
Proof.
  unfold registered, P2PConnectionManager.connect.
  rewrite lookup_insert_eq. simpl. case_decide as E.
  - subst. by rewrite lookup_insert_eq.
  - rewrite lookup_insert_ne by done. by destruct (sessions !! session_id).
Qed.

Lemma registered_disconnect session_id user_id sessions user :
  registered session_id
    (P2PConnectionManager.disconnect session_id user_id sessions) user
  = if decide (user = user_id) then None
    else registered session_id sessions user.
Proof.
  unfold registered, P2PConnectionManager.disconnect.
  destruct (sessions !! session_id) as [session|] eqn:E; simpl.
  - case_bool_decide as Hu.
    + case_bool_decide as He.
      * rewrite lookup_delete_eq. simpl. case_decide as D; [done|].
        rewrite <- (lookup_delete_ne session user_id user) by done.
        by rewrite He.
      * rewrite lookup_insert_eq. simpl. case_decide as D.
        -- subst. apply lookup_delete_eq.
        -- by apply lookup_delete_ne.
    + rewrite E. simpl. case_decide as D; [|done]. subst.
      by apply eq_None_not_Some.
  - rewrite E. simpl. by case_decide.
Qed.

Lemma latest_join_nil user_id websocket : ¬ latest_join [] user_id websocket.
Proof. intros (before & after & E & _). by destruct before. Qed.

Lemma latest_join_join ops u w user_id websocket :
  latest_join (ops ++ [SJoin u w]) user_id websocket
  ↔ (user_id = u ∧ websocket = w) ∨ (user_id ≠ u ∧ latest_join ops user_id websocket).
Proof.
  unfold latest_join. split.
  - intros (before & after & E & Hl & Hj).
    apply snoc_split in E as [(-> & -> & [= -> ->]) | (after' & -> & ->)]; [by left|].
    right. split.
    + intros ->. apply (Hj w), elem_of_app. right. by apply list_elem_of_singleton.
    + exists before, after'. split; [done|]. split.
      * intros Hin. apply Hl, elem_of_app. by left.
      * intros other Hin. apply (Hj other), elem_of_app. by left.
  - intros [[-> ->] | [Hne (before & after & -> & Hl & Hj)]].
    + exists ops, []. split; [done|]. split; [|intros other]; apply not_elem_of_nil.
    + exists before, (after ++ [SJoin u w]). split; [by rewrite <- app_assoc|].
      split; [|intros other];
        rewrite elem_of_app, list_elem_of_singleton; intros [?|[=]];
        first [done | by apply (Hj other) | congruence].
Qed.

Lemma latest_join_leave ops u user_id websocket :
  latest_join (ops ++ [SLeave u]) user_id websocket
  ↔ user_id ≠ u ∧ latest_join ops user_id websocket.
Proof.
  unfold latest_join. split.
  - intros (before & after & E & Hl & Hj).
    apply snoc_split in E as [(-> & -> & [=]) | (after' & -> & ->)].
    split.
    + intros ->. apply Hl, elem_of_app. right. by apply list_elem_of_singleton.
    + exists before, after'. split; [done|]. split.
      * intros Hin. apply Hl, elem_of_app. by left.
      * intros other Hin. apply (Hj other), elem_of_app. by left.
  - intros [Hne (before & after & -> & Hl & Hj)].
    exists before, (after ++ [SLeave u]). split; [by rewrite <- app_assoc|].
    split; [|intros other];
      rewrite elem_of_app, list_elem_of_singleton; intros [?|[=]];
      first [done | by apply (Hj other) | congruence].
Qed.

Lemma replay_session session_id ops user_id websocket :
  registered session_id (foldl (session_step session_id) ∅ ops) user_id = Some websocket
  ↔ latest_join ops user_id websocket.
Proof.
  revert user_id websocket.
  induction ops as [|op ops IH] using rev_ind; intros user_id websocket.
  - simpl. unfold registered. rewrite lookup_empty. simpl.
    split; [done|]. intros H. by apply latest_join_nil in H.
  - rewrite foldl_app. simpl. destruct op as [u w|u]; simpl.
    + rewrite registered_connect, latest_join_join, <- IH.
      case_decide as E; [subst|]; split.
      * intros [= ->]. by left.
      * intros [[_ ->]|[? _]]; done.
      * intros Hr. by right.
      * intros [[? _]|[_ Hr]]; done.
    + rewrite registered_disconnect, latest_join_leave, <- IH.
      case_decide as E; [subst|]; split; try done.
      * by intros [? _].
      * by intros [_ ?].
Qed.

(** C8.  After any sequence of joins and leaves on one key of an empty
    registry, the members are the connections joined and not left since:
    in a room, on the common channel and in a user's notification group,
    where a leave names a connection; and in a session, where a
    participant has the connection of their most recent join unless they
    left after it, a second join of the same participant replacing the
    connection of the first. *)
Theorem replay_membership :
  (∀ room_id ops websocket,
     websocket ∈ getitem room_id (foldl (room_step room_id) ∅ ops)
     ↔ joined_not_left ops websocket)
  ∧ (∀ ops websocket,
       websocket ∈ foldl common_step ∅ ops ↔ joined_not_left ops websocket)
  ∧ (∀ user_id ops websocket,
       websocket ∈ getitem user_id (foldl (user_step user_id) ∅ ops)
       ↔ joined_not_left ops websocket)
  ∧ (∀ session_id ops user_id websocket,
       registered session_id (foldl (session_step session_id) ∅ ops) user_id
         = Some websocket
       ↔ latest_join ops user_id websocket)
  ∧ (∀ session_id user_id first second sessions,
       registered session_id
         (P2PConnectionManager.connect session_id user_id second
            (P2PConnectionManager.connect session_id user_id first sessions))
         user_id
       = Some second).
Proof.
  split; [|split; [|split; [|split]]].
  - intros room_id. apply (replay_set (getitem room_id) (room_step room_id)).
    + done.
    + intros s w. apply keyed_connect.
    + intros s w. apply keyed_disconnect.
  - apply (replay_set (fun s => s) common_step); [done| |]; intros s w; done.
  - intros user_id. apply (replay_set (getitem user_id) (user_step user_id)).
    + done.
    + intros s w. apply keyed_connect.
    + intros s w. apply keyed_disconnect.
  - apply replay_session.
  - intros. rewrite registered_connect. by rewrite decide_True.
Qed.

End ReplayFacts.

(** ** Who receives a message *)

Section DeliveryFacts.
Context `{MathModule} `{DatetimeModule}.
Variable fails : WebSocket → bool.

Lemma send_loop_log session_id message (exclude : gset string) snapshot sessions :
  (P2PConnectionManager.send_loop fails session_id message exclude snapshot sessions).2
  = (fun uc : string * WebSocket => (uc.2, message))
      <$> List.filter (fun uc => negb (bool_decide (uc.1 ∈ exclude))) snapshot.
Proof.
  revert sessions. induction snapshot as [|[user connection] l IH]; intros sessions;
    simpl; [done|].
  case_bool_decide; simpl; [apply IH|]. by rewrite IH.
Qed.

Lemma send_log session_id message (exclude : gset string) sessions h m :
  (h, m) ∈ (P2PConnectionManager.send fails session_id message exclude sessions).2
  ↔ m = message
    ∧ ∃ user, (user ∉ exclude) ∧ registered session_id sessions user = Some h.
Proof.
  unfold P2PConnectionManager.send. rewrite send_loop_log, list_elem_of_fmap.
  unfold registered. split.
  - intros ([user c] & [= -> ->] & Hin). split; [done|]. exists user.
    apply list_elem_of_In, filter_In in Hin. destruct Hin as [Hin Hex].
    apply list_elem_of_In, elem_of_map_to_list in Hin. simpl in *.
    apply negb_true_iff, bool_decide_eq_false in Hex. split; [done|].
    by destruct (sessions !! session_id).
  - intros [-> (user & Hex & Hr)]. exists (user, h). split; [done|].
    apply list_elem_of_In, filter_In. split.
    + apply list_elem_of_In, elem_of_map_to_list.
      by destruct (sessions !! session_id).
    + simpl. by apply negb_true_iff, bool_decide_eq_false.
Qed.

Lemma notify_log user_id payload (users : gmap string (gset WebSocket)) :
  (SubscriptionConnectionManager.notify fails user_id payload users).2
  = attempts payload (elements (getitem user_id users)).
Proof.
  unfold SubscriptionConnectionManager.notify. rewrite notify_loop_is_keyed_loop.
  apply keyed_loop, snapshot_or_missing.
Qed.

Lemma recipients_spec session_id (exclude : gset string) sessions h :
  h ∈ recipients session_id exclude sessions
  ↔ ∃ user, (user ∉ exclude) ∧ registered session_id sessions user = Some h.
Proof.
  unfold recipients, registered. rewrite list_elem_of_fmap. split.
  - intros ([user c] & -> & Hin). exists user.
    apply list_elem_of_In, filter_In in Hin. destruct Hin as [Hin Hex].
    apply list_elem_of_In, elem_of_map_to_list in Hin. simpl in *.
    apply negb_true_iff, bool_decide_eq_false in Hex. split; [done|].
    by destruct (sessions !! session_id).
  - intros (user & Hex & Hr). exists (user, h). split; [done|].
    apply list_elem_of_In, filter_In. split.
    + apply list_elem_of_In, elem_of_map_to_list.
      by destruct (sessions !! session_id).
    + simpl. by apply negb_true_iff, bool_decide_eq_false.
Qed.

Lemma refused_sent {S} (registry after : S) snapshot :
  sent (refused registry snapshot after) = [].
Proof. by destruct snapshot. Qed.

Lemma refused_raised {S} (registry after : S) snapshot :
  (snapshot = [] → raised (refused registry snapshot after) = None)
  ∧ (snapshot ≠ [] → raised (refused registry snapshot after) = Some not_serializable).
Proof. by destruct snapshot. Qed.

Lemma notify_each_stored_sent found users :
  sent (notify_each_stored found users) = [].
Proof.
  revert users. induction found as [|subscription l IH]; intros users; simpl; [done|].
  destruct (SubOut.user_id subscription) as [user_id|]; [|done].
  unfold notify_stored.
  destruct (elements (getitem user_id users)); simpl; [apply IH|done].
Qed.

Lemma notify_stored_sent collection stored users :
  sent (_notify_stored collection stored users) = [].
Proof.
  unfold _notify_stored.
  destruct (find_matching_subscriptions collection (Stored.message stored));
    [apply notify_each_stored_sent|done].
Qed.

(** C3.  With a dictionary that can be encoded, [send] calls [send_json]
    on the connections registered under the identities outside the
    exclude set and on no other, and the broadcasts of the common channel
    and of a room call it on every registered connection.  The handlers
    pass on the dictionary of [store_message], which cannot be encoded:
    [websocket_p2p], [CommonChat.handle_incoming] and
    [RoomManager.handle_incoming] send nothing, to the sender's connection
    or to another, and end with [TypeError] as soon as a connection is
    there to send to. *)
Theorem sender_exclusion (session_id user_id room_id : string) (data : MessageIn.t)
    (inserted_id : string) (utcnow : datetime) (w : World) :
  let p2p := websocket_p2p_receive session_id user_id data inserted_id utcnow w in
  let common := (CommonChat_handle_incoming data inserted_id utcnow w).1 in
  let room := (RoomManager_handle_incoming room_id data inserted_id utcnow w).1 in
  (∀ message exclude sessions h m,
     (h, m) ∈ (P2PConnectionManager.send fails session_id message exclude sessions).2
     ↔ m = message
       ∧ ∃ user, (user ∉ exclude) ∧ registered session_id sessions user = Some h)
  ∧ (∀ message active h,
       h ∈ active → (h, message) ∈ (ConnectionManager.broadcast fails message active).2)
  ∧ (∀ message rooms h,
       h ∈ getitem room_id rooms →
       (h, message) ∈ (RoomConnectionManager.broadcast fails room_id message rooms).2)
  ∧ sent p2p = [] ∧ sent common = [] ∧ sent room = []
  ∧ (∀ h, h ∈ common_connections w → raised common = Some not_serializable)
  ∧ (∀ h, h ∈ getitem room_id (room_connections w) →
          raised room = Some not_serializable)
  ∧ (∀ user h, user ≠ MessageIn.user_id data →
               registered session_id (p2p_manager w) user = Some h →
               raised p2p = Some not_serializable)
  ∧ (common_connections w = ∅ → raised common = None)
  ∧ (getitem room_id (room_connections w) = ∅ → raised room = None).
Proof.
  intros p2p common room.
  split; [|split; [|split; [|split; [|split; [|split; [|split; [|split; [|split;
    [|split]]]]]]]]].
  - intros message exclude sessions h m. apply send_log.
  - intros message active h Hh. unfold ConnectionManager.broadcast.
    destruct (common_broadcast_loop fails message (elements active) active) as [_ ->].
    apply elem_of_attempts. by rewrite elem_of_elements.
  - intros message rooms h Hh.
    destruct (room_broadcast_spec fails room_id message rooms) as (_ & _ & ->).
    apply elem_of_attempts. by rewrite elem_of_elements.
  - unfold p2p, websocket_p2p_receive, send_stored. simpl.
    rewrite refused_sent. simpl.
    destruct (raised (refused _ _ _)); [done|apply notify_stored_sent].
  - apply refused_sent.
  - apply refused_sent.
  - intros h Hh. apply refused_raised. intros He.
    apply elem_of_elements in Hh. rewrite He in Hh. by apply not_elem_of_nil in Hh.
  - intros h Hh. apply refused_raised. intros He.
    apply elem_of_elements in Hh. rewrite He in Hh. by apply not_elem_of_nil in Hh.
  - intros user h Hne Hr. unfold p2p, websocket_p2p_receive, send_stored. simpl.
    assert (recipients session_id {[MessageIn.user_id data]} (p2p_manager w) ≠ [])
      as Hrec.
    { intros He. assert (h ∈ recipients session_id {[MessageIn.user_id data]}
                               (p2p_manager w)) as Hin.
      { apply recipients_spec. exists user. split; [|done].
        by rewrite elem_of_singleton. }
      rewrite He in Hin. by apply not_elem_of_nil in Hin. }
    destruct (recipients session_id {[MessageIn.user_id data]} (p2p_manager w));
      [done|reflexivity].
  - intros He. apply refused_raised. by rewrite He, elements_empty.
  - intros He. apply refused_raised. by rewrite He, elements_empty.
Qed.

End DeliveryFacts.

(** ** The registries on concrete runs *)

Example room_broadcast_example :
  let sound := RoomConnectionManager.broadcast (fun _ => false) "lobby"
                 (MessageFrame blank_message) lobby in
  let broken := RoomConnectionManager.broadcast (fun c => bool_decide (c = 2)) "lobby"
                  (MessageFrame blank_message) lobby in
  let dead := RoomConnectionManager.broadcast (fun _ => true) "lobby"
                (MessageFrame blank_message) lobby in
  receivers sound.2 ≡ₚ [1; 2; 3]
  ∧ sound.1 = lobby
  ∧ receivers broken.2 ≡ₚ [1; 2; 3]
  ∧ broken.1 !! "lobby" = Some {[1; 3]}
  ∧ receivers dead.2 ≡ₚ [1; 2; 3]
  ∧ dead.1 !! "lobby" = None.
Proof. vm_compute. repeat split; try reflexivity; by apply (bool_decide_unpack _). Qed.

Example session_replace_example :
  let sessions := foldl (session_step "chat") duo [SJoin "alice" 5] in
  registered "chat" sessions "alice" = Some 5
  ∧ registered "chat" (P2PConnectionManager.disconnect "chat" "alice" sessions) "alice"
    = None
  ∧ registered "chat" sessions "bob" = Some 2.
Proof. repeat split; reflexivity. Qed.

Example notify_example :
  let notified :=
    (SubscriptionConnectionManager.notify (fun _ => true) "alice"
       (MessageFrame blank_message) listeners).1 in
  notified !! "alice" = Some ∅
  ∧ SubscriptionConnectionManager.disconnect "alice" 7 notified !! "alice" = None.
Proof. split; reflexivity. Qed.

(** A message that arrives on the common channel, where connections 1
    and 2 are registered, is stored and reaches neither of them. *)
Example common_scenario :
  let r := @CommonChat_handle_incoming Sample.dates hello "m9" 20240101120000%Z
             sample_world in
  common_connections sample_world = {[1; 2]}
  ∧ length (messages (state r.1)) = 1
  ∧ sent r.1 = []
  ∧ raised r.1 = Some not_serializable
  ∧ Stored._id r.2 = "m9".
Proof. vm_compute. repeat split; reflexivity. Qed.

(** Three connections are in the room ["lobby"]; a message sent there is
    stored under its scope and its room and reaches none of them. *)
Example room_scenario :
  let r := @RoomManager_handle_incoming Sample.dates
             "lobby" hello "m9" 20240101120000%Z sample_world in
  sent r.1 = []
  ∧ raised r.1 = Some not_serializable
  ∧ Msg.scope (Stored.message r.2) = Some "room"
  ∧ Msg.room_id (Stored.message r.2) = Some "lobby"
  ∧ Msg.created_at (Stored.message r.2) = Some (TimeStr "2024-01-01T12:00:00").
Proof. vm_compute. repeat split; reflexivity. Qed.

Example p2p_receive_example :
  let o := @websocket_p2p_receive Sample.math Sample.dates
             "chat" "alice" hello "m9" 20240101120000%Z sample_world in
  sent o = []
  ∧ raised o = Some not_serializable
  ∧ p2p_manager (state o) = p2p_manager sample_world.
Proof. vm_compute. repeat split; reflexivity. Qed.

(** The identity that [websocket_p2p] excludes is the [user_id] of the
    message, not the one the connection joined under: for a message that
    connection 1, joined as ["alice"], sends in the name of ["bob"], the
    connection that [send] goes to is connection 1 and not connection 2. *)
Example p2p_foreign_identity :
  registered "chat" (p2p_manager sample_world) "alice" = Some 1
  ∧ recipients "chat" {[MessageIn.user_id forged]} (p2p_manager sample_world) = [1]
  ∧ receivers (P2PConnectionManager.send (fun _ => false) "chat"
                 (MessageFrame blank_message) {[MessageIn.user_id forged]}
                 (p2p_manager sample_world)).2 = [1].
Proof. repeat split; reflexivity. Qed.

(** ** The predicates at work *)

Lemma scope_predicate_witness :
  default "any" (Sub.scope room_subscription) = "room"
  ∧ Msg.scope (room_message "R1" "x") = Some "room"
  ∧ (_match_scope room_subscription (room_message "R1" "x") = true
     ↔ ∀ r, carries (Sub.room_id room_subscription) r →
            Msg.room_id (room_message "R1" "x") = Some r).
Proof.
  split; [reflexivity|]. split; [reflexivity|].
  exact (proj1 (proj2 (proj2 (scope_predicate room_subscription
                                (room_message "R1" "x"))))
           eq_refl eq_refl).
Defined.


Lemma location_predicate_witness :
  let f := {| name := None; latitude := Some 0%float; longitude := Some 0%float;
              radius_km := Some 10%float |} in
  ¬ radius_disabled f
  ∧ (@_match_location Sample.math (near_origin 10)
       (message_at 0 0x1.999999999999ap-5) = Ok true
     ↔ ∃ distance,
         @haversine_formula Sample.math 6371.0 0 0 0 0x1.999999999999ap-5
           = Ok distance
         ∧ (distance <=? 10)%float = true).
Proof.
  intros f.
  assert (¬ radius_disabled f) as Hnd.
  { intros [E | (r & E & [E' | E'])]; [discriminate E | |];
      injection E as <-; vm_compute in E'; discriminate E'. }
  split; [exact Hnd|].
  exact (proj1 (proj2 (proj2 (proj2 (@location_predicate Sample.math (near_origin 10)
                                       (message_at 0 0x1.999999999999ap-5)))))
           f _ _ _ _ _ _ eq_refl eq_refl eq_refl Hnd eq_refl eq_refl eq_refl eq_refl).
Defined.

(** One twentieth of a degree of longitude on the equator is some five
    and a half kilometres away. *)
Example haversine_example :
  ∃ distance,
    @_haversine_distance Sample.math 0 0 0 0x1.999999999999ap-5 = Ok distance
    ∧ (5.5 <=? distance)%float = true ∧ (distance <=? 5.625)%float = true.
Proof. eexists. split; [vm_compute; reflexivity|]. split; vm_compute; reflexivity. Qed.

(** * Further properties *)

(** ** Keywords *)

Section KeywordFacts.

Lemma normalise_fixed keywords :
  Forall normalised keywords → _normalise_keywords keywords = keywords.
Proof.
  unfold _normalise_keywords. induction 1 as [|k l (Hs & Hl & Hne) _ IH]; [done|].
  simpl. rewrite Hs. destruct k as [|c k]; [done|]. simpl.
  rewrite IH. f_equal. by rewrite Hs.
Qed.

(** X1.  [_normalise_keywords] gives the same list when applied to its own
    result, and the lists it leaves as they are are the lists of trimmed,
    lower-case, non-empty keywords. *)
Theorem normalise_keywords_idempotent (keywords : list string) :
  _normalise_keywords (_normalise_keywords keywords) = _normalise_keywords keywords
  ∧ (_normalise_keywords keywords = keywords ↔ Forall normalised keywords).
Proof.
  split.
  - apply normalise_fixed, normalise_keywords_normalised.
  - split; [|apply normalise_fixed].
    intros E. rewrite <- E. apply normalise_keywords_normalised.
Qed.

(** A substring of a lower-case string is lower-case. *)
Lemma contains_lower_only content k :
  Str.contains (Str.lower content) k = true → Str.lower k = k.
Proof.
  rewrite StrFacts.contains_spec. intros (pre & post & E).
  destruct (StrFacts.lower_split _ _ _ E) as (pre' & rest & _ & _ & Hrest).
  destruct (StrFacts.lower_split _ _ _ Hrest) as (mid & post' & _ & <- & _).
  apply StrFacts.lower_idemp.
Qed.

Lemma contains_empty s : Str.contains s "" = true.
Proof. by destruct s. Qed.

(** X2.  The keyword predicate compares the stored keywords as they are
    with the lower-cased content: a subscription whose stored keywords all
    have a capital letter passes on no message, and one that has the empty
    string among its keywords passes on every message. *)
Theorem keywords_outside_normal_form (subscription : Sub.t) (message : Msg.t)
    (keywords : list string) :
  Sub.what subscription = Some keywords →
  (keywords ≠ [] → Forall (fun k => Str.lower k ≠ k) keywords →
   _match_keywords subscription message = false)
  ∧ ("" ∈ keywords → _match_keywords subscription message = true).
Proof.
  intros Hw. unfold _match_keywords. rewrite Hw. simpl. split.
  - intros Hne Hup. destruct keywords as [|k0 ks]; [done|].
    apply not_true_is_false. rewrite existsb_exists.
    intros (k & Hin & Hk). apply contains_lower_only in Hk.
    rewrite Forall_forall in Hup. apply (Hup k); [|done]. by apply list_elem_of_In.
  - intros Hin. destruct keywords as [|k0 ks]; [done|].
    apply existsb_exists. exists "". split; [by apply list_elem_of_In|].
    apply contains_empty.
Qed.

End KeywordFacts.

Lemma keywords_outside_normal_form_witness :
  Sub.what shouting_subscription = Some ["URGENT"]
  ∧ _match_keywords shouting_subscription (room_message "R1" "This is URGENT now")
    = false.
Proof.
  split; [reflexivity|].
  apply (proj1 (keywords_outside_normal_form shouting_subscription
                  (room_message "R1" "This is URGENT now") ["URGENT"] eq_refl)).
  - discriminate.
  - repeat constructor. discriminate.
Defined.

(** ** The query and the pass *)

Section PassFacts.
Context `{MathModule} `{DatetimeModule}.

(** X3.  The query of [find_matching_subscriptions] selects the documents
    whose [scope] is ["any"] or the scope of the message: the clauses added
    for a room or a chat identifier select nothing more. *)
Theorem prefilter_selects (message : Msg.t) (subscription : Sub.t) :
  query_holds (prefilter message) subscription = true
  ↔ Sub.scope subscription = Some "any"
    ∨ Sub.scope subscription = Msg.scope message.
Proof.
  unfold prefilter.
  assert (query_holds [[("scope", Some "any")]; [("scope", Msg.scope message)]]
            subscription = true
          ↔ Sub.scope subscription = Some "any"
            ∨ Sub.scope subscription = Msg.scope message) as Hbase.
  { unfold query_holds, clause_holds, field. simpl.
    rewrite !andb_true_r, orb_false_r, orb_true_iff, !bool_decide_eq_true. done. }
  assert (∀ q key value kind,
            Msg.scope message = Some kind →
            (query_holds q subscription = true
             ↔ Sub.scope subscription = Some "any"
               ∨ Sub.scope subscription = Msg.scope message) →
            (query_holds (q ++ [[("scope", Some kind); (key, value)]]) subscription
               = true
             ↔ Sub.scope subscription = Some "any"
               ∨ Sub.scope subscription = Msg.scope message)) as Hmore.
  { intros q key value kind Hk Hq. unfold query_holds in *.
    rewrite existsb_app, orb_true_iff, Hq. simpl. rewrite orb_false_r.
    split; [|by left]. intros [?|Hc]; [done|]. right.
    unfold clause_holds in Hc. simpl in Hc.
    apply andb_true_iff in Hc as [Hc _]. apply bool_decide_eq_true in Hc.
    unfold field in Hc. simpl in Hc. congruence. }
  destruct (bool_decide (Msg.scope message = Some "room")
            && str_truthy (Msg.room_id message)) eqn:Er;
    destruct (bool_decide (Msg.scope message = Some "p2p")
              && str_truthy (Msg.chat_id message)) eqn:Ep;
    try (apply andb_true_iff in Er as [Er _]; apply bool_decide_eq_true in Er);
    try (apply andb_true_iff in Ep as [Ep _]; apply bool_decide_eq_true in Ep).
  - apply (Hmore _ _ _ "p2p" Ep), (Hmore _ _ _ "room" Er), Hbase.
  - apply (Hmore _ _ _ "room" Er), Hbase.
  - apply (Hmore _ _ _ "p2p" Ep), Hbase.
  - exact Hbase.
Qed.

Lemma filter_sublist {A} (f : A → bool) (l : list A) :
  sublist (List.filter f l) l.
Proof.
  induction l as [|x l IH]; simpl; [constructor|].
  destruct (f x); by constructor.
Qed.

Lemma matches_returns subscription message b :
  matches subscription message = Ok b → b = all_four message subscription.
Proof. apply matches_all_four. Qed.

Lemma scan_sound message cursor found result_ :
  scan message cursor found = Ok result_ →
  ∃ kept,
    sublist kept cursor
    ∧ result_ = found ++ List.map serialise kept
    ∧ Forall (fun s => all_four message s = true) kept.
Proof.
  revert found. induction cursor as [|s l IH]; intros found; simpl.
  - intros [= <-]. exists []. by rewrite app_nil_r.
  - destruct (matches s message) as [b|e] eqn:Em; simpl; [|done].
    apply matches_returns in Em. subst b.
    destruct (all_four message s) eqn:Ea.
    + intros (kept & Hs & -> & Hk)%IH. exists (s :: kept).
      split; [by constructor|]. split; [by rewrite <- app_assoc|].
      by constructor.
    + intros (kept & Hs & -> & Hk)%IH. exists kept.
      split; [by constructor|]. done.
Qed.

(** X4.  Whatever the store holds, a result of
    [find_matching_subscriptions] is made of stored subscriptions, each at
    most once and in the order of the store, that the query selects and on
    which all four predicates hold. *)
Theorem find_matching_sound (collection : list Sub.t) (message : Msg.t)
    (found : list SubOut.t) :
  find_matching_subscriptions collection message = Ok found →
  ∃ kept,
    sublist kept collection
    ∧ found = List.map serialise kept
    ∧ Forall (fun s => all_four message s = true
                       ∧ query_holds (prefilter message) s = true) kept.
Proof.
  unfold find_matching_subscriptions, find.
  intros (kept & Hs & -> & Hk)%scan_sound. exists kept.
  split; [|split; [done|]].
  - etrans; [exact Hs|]. apply filter_sublist.
  - rewrite Forall_forall in Hk |- *. intros s Hin. split; [by apply Hk|].
    apply (elem_of_sublist _ _ _ Hin) in Hs as Hin'.
    apply list_elem_of_In, filter_In in Hin'. apply Hin'.
Qed.

Lemma scan_app message l1 l2 found :
  scan message (l1 ++ l2) found
  = scan message l1 found ≫= (λ r : list SubOut.t, scan message l2 r).
Proof.
  revert found. induction l1 as [|s l IH]; intros found; simpl; [done|].
  destruct (matches s message) as [[]|]; simpl; by rewrite ?IH.
Qed.

Lemma prefilter_any message subscription :
  Sub.scope subscription = Some "any" →
  query_holds (prefilter message) subscription = true.
Proof.
  intros Hs. destruct (prefilter_base message) as [extra ->].
  unfold query_holds. rewrite existsb_app. apply orb_true_iff. left.
  unfold clause_holds, field. simpl. rewrite Hs. by rewrite bool_decide_true.
Qed.

Lemma scan_single message subscription found :
  scan message [subscription] found
  = matches subscription message ≫= (λ ok : bool,
      if ok then Ok (found ++ [serialise subscription]) else Ok found).
Proof. reflexivity. Qed.

(** X5.  A subscription created from a payload that sets no filter
    matches every message, and the query selects it: once it is stored,
    each later pass that returned before returns the same list with this
    subscription added at its end. *)
Theorem open_subscription_matches_all
    (collection : list Sub.t) (payload : Payload.t) (user : string)
    (inserted_id : string) (utcnow : datetime) :
  Payload.user_id payload = Some user →
  open_payload payload →
  ∃ document response,
    create_subscription collection payload inserted_id utcnow
      = Ok (collection ++ [document], response)
    ∧ ∀ message,
        matches document message = Ok true
        ∧ find_matching_subscriptions (collection ++ [document]) message
          = find_matching_subscriptions collection message
              ≫= (λ found : list SubOut.t, Ok (found ++ [serialise document])).
Proof.
  intros Hu (Hs & Hw & Hl & Hst & Hen). unfold create_subscription.
  rewrite Hu. simpl. eexists _, _. split; [reflexivity|].
  rewrite Hs, Hw, Hl, Hst, Hen.
  set (document := {| Sub._id := inserted_id |}).
  intros message.
  assert (matches document message = Ok true) as Hm.
  { rewrite matches_unfold.
    assert (_match_scope document message = true) as -> by done.
    assert (_match_keywords document message = true) as -> by done.
    rewrite (match_location_no_filter document message eq_refl).
    by apply match_time_unbounded. }
  split; [exact Hm|].
  unfold find_matching_subscriptions, find.
  rewrite List.filter_app. simpl.
  assert (query_holds (prefilter message) document = true) as ->
    by (by apply prefilter_any).
  rewrite scan_app.
  destruct (scan message _ []) as [found|e]; [|done].
  change (scan message [document] found = Ok (found ++ [serialise document])).
  rewrite scan_single. by rewrite Hm.
Qed.

End PassFacts.

(** ** From a handler to the matcher *)

Section StoredFacts.
Context `{MathModule} `{DatetimeModule}.

Lemma match_time_naive subscription message v t :
  raw_event message = Some v → pytime_truthy (Some v) = true →
  instant v = Some (Naive t) →
  ∃ b, _match_time subscription message = Ok b ∧ (b = true ↔ within subscription t).
Proof.
  intros Hr Ht Hi. rewrite match_time_unfold, Hr, Ht, Hi. eexists. split; [done|].
  unfold within. rewrite andb_true_iff, !negb_true_iff.
  destruct (Sub.when_start subscription) as [s|],
           (Sub.when_end subscription) as [e|];
    rewrite ?Z.ltb_ge; split.
  all: try (intros [? ?]; split; intros ? [= <-]; lia).
  all: try (intros [Hs He]; split; first [done | by apply Hs | by apply He]).
  all: try (intros [? ?]; split; by intros ? [=]).
Qed.

Lemma match_time_aware subscription message v utc utcoffset :
  raw_event message = Some v → pytime_truthy (Some v) = true →
  instant v = Some (Aware utc utcoffset) →
  (bounded subscription → _match_time subscription message = Raise naive_and_aware)
  ∧ (¬ bounded subscription → _match_time subscription message = Ok true).
Proof.
  intros Hr Ht Hi. rewrite match_time_unfold, Hr, Ht, Hi. unfold bounded. split.
  - intros [Hb | Hb];
      destruct (Sub.when_start subscription) as [s|],
               (Sub.when_end subscription) as [e|]; done.
  - intros Hn. destruct (Sub.when_start subscription) as [s|];
      [destruct Hn; by left|].
    destruct (Sub.when_end subscription) as [e|]; [destruct Hn; by right|done].
Qed.

(** X6.  What [store_message] returns carries its times as ISO strings,
    and the time predicate reads them back.  When the ISO string of a
    datetime parses back to it and the event time given to
    [store_message], or the time of storing when none was given, is
    naive, the predicate returns on the stored message, and passes exactly
    when this time is within the window of the subscription.  When the
    event time was given with its offset from UTC, the predicate raises
    [TypeError] under a subscription with a bound, and passes under one
    with none. *)
Theorem stored_message_time (messages : list Msg.t) (payload : MsgPayload.t)
    (inserted_id : string) (utcnow : datetime) (subscription : Sub.t)
    (d : pydatetime) :
  MsgPayload.event_time payload = Some (TimeObj d)
  ∨ (MsgPayload.event_time payload = None ∧ d = Naive utcnow) →
  iso_round_trip d →
  let stored := Stored.message (store_message messages payload inserted_id utcnow).2 in
  match d with
  | Naive t =>
      ∃ b, _match_time subscription stored = Ok b
           ∧ (b = true ↔ within subscription t)
  | Aware _ _ =>
      (bounded subscription →
       _match_time subscription stored = Raise naive_and_aware)
      ∧ (¬ bounded subscription → _match_time subscription stored = Ok true)
  end.
Proof.
  intros Hev [Hne Hrt] stored.
  assert (raw_event stored = Some (TimeStr (isoformat d))) as Hraw.
  { unfold stored, raw_event, store_message. simpl.
    destruct Hev as [-> | [-> ->]]; simpl; [|done].
    by destruct (isoformat d). }
  assert (pytime_truthy (Some (TimeStr (isoformat d))) = true) as Ht.
  { simpl. by destruct (isoformat d). }
  destruct d as [t|utc utcoffset].
  - by apply (match_time_naive _ _ (TimeStr (isoformat (Naive t)))).
  - by apply (match_time_aware _ _ (TimeStr (isoformat (Aware utc utcoffset))) utc
                utcoffset).
Qed.

Lemma match_scope_iff subscription message :
  let filter := default "any" (Sub.scope subscription) in
  _match_scope subscription message = true
  ↔ filter = "any"
    ∨ (Msg.scope message = Some filter
       ∧ (filter = "room" →
          ∀ r, carries (Sub.room_id subscription) r → Msg.room_id message = Some r)
       ∧ (filter = "p2p" →
          ∀ c, carries (Sub.chat_id subscription) c → Msg.chat_id message = Some c)).
Proof.
  intros filter. unfold _match_scope. fold filter. clearbody filter.
  unfold carries.
  case_bool_decide as Ea; [by split; [left|]|].
  case_bool_decide as Es.
  { split; [done|]. intros [?|[? _]]; done. }
  assert (∀ (kind : string) (mine theirs : option string),
            (bool_decide (filter = kind) && str_truthy mine
             && bool_decide (mine ≠ theirs) = false)
            ↔ (filter = kind → ∀ r, mine = Some r ∧ r ≠ "" → theirs = Some r))
    as Hid.
  { intros kind mine theirs. case_bool_decide as Ek; simpl; [|by split].
    destruct mine as [[|c0 r]|]; simpl.
    - split; [|done]. by intros _ _ r [[= <-] ?].
    - case_bool_decide as En; split; try done.
      + intros Hall. symmetry in Hall. destruct En.
        by rewrite (Hall Ek (String c0 r)).
      + intros _ _ r' [[= <-] _]. done.
    - split; [|done]. by intros _ _ r [[=] ?]. }
  destruct (bool_decide (filter = "room") && str_truthy (Sub.room_id subscription)
            && bool_decide (Sub.room_id subscription ≠ Msg.room_id message)) eqn:Er.
  { split; [done|]. intros [?|(_ & Hr & _)]; [done|].
    apply (proj2 (Hid _ _ _)) in Hr. congruence. }
  pose proof (proj1 (Hid _ _ _) Er) as Er'.
  destruct (bool_decide (filter = "p2p") && str_truthy (Sub.chat_id subscription)
            && bool_decide (Sub.chat_id subscription ≠ Msg.chat_id message)) eqn:Ep.
  { split; [done|]. intros [?|(_ & _ & Hp)]; [done|].
    apply (proj2 (Hid _ _ _)) in Hp. congruence. }
  pose proof (proj1 (Hid _ _ _) Ep) as Ep'. split; [|done]. intros _. right. done.
Qed.

(** X7.  The message that a handler stores passes the scope predicate of
    a subscription as follows: one of the common channel under the filters
    ["any"] and ["common"]; one of a room under ["any"], and under ["room"]
    when the subscription carries no room identifier or the one of the
    room; one of a session under ["any"], and under ["p2p"] when the
    subscription carries no chat identifier or the one of the session. *)
Theorem handler_scope (data : MessageIn.t)
    (inserted_id : string) (utcnow : datetime) (w : World)
    (room_id session_id : string) (subscription : Sub.t) :
  let filter := default "any" (Sub.scope subscription) in
  let common :=
    Stored.message (CommonChat_handle_incoming data inserted_id utcnow w).2 in
  let room :=
    Stored.message (RoomManager_handle_incoming room_id data inserted_id utcnow w).2 in
  let p2p :=
    Stored.message
      (store_message (messages w) (model_dump data "p2p" None (Some session_id))
         inserted_id utcnow).2 in
  (_match_scope subscription common = true ↔ filter = "any" ∨ filter = "common")
  ∧ (_match_scope subscription room = true
     ↔ filter = "any"
       ∨ (filter = "room"
          ∧ ∀ r, carries (Sub.room_id subscription) r → r = room_id))
  ∧ (_match_scope subscription p2p = true
     ↔ filter = "any"
       ∨ (filter = "p2p"
          ∧ ∀ c, carries (Sub.chat_id subscription) c → c = session_id)).
Proof.
  intros filter common room p2p.
  split; [|split]; rewrite match_scope_iff; fold filter; simpl.
  - split; (intros [?|Hc]; [by left|right]).
    + destruct Hc as ([= <-] & _). done.
    + subst filter. rewrite Hc. split; [done|]. split; intros [=].
  - split; (intros [?|Hc]; [by left|right]).
    + destruct Hc as ([= <-] & Hr & _). split; [done|].
      intros r Hcar. specialize (Hr eq_refl r Hcar). congruence.
    + destruct Hc as [Hf Hr]. rewrite Hf. split; [done|]. split; [|intros [=]].
      intros _ r Hcar. by rewrite (Hr r Hcar).
  - split; (intros [?|Hc]; [by left|right]).
    + destruct Hc as ([= <-] & _ & Hp). split; [done|].
      intros c Hcar. specialize (Hp eq_refl c Hcar). congruence.
    + destruct Hc as [Hf Hp]. rewrite Hf. split; [done|]. split; [intros [=]|].
      intros _ c Hcar. by rewrite (Hp c Hcar).
Qed.

End StoredFacts.

(** ** More on the registries *)

Section MoreRegistryFacts.
Variable fails : WebSocket → bool.

Lemma disconnect_other_session session_id user_id sessions other :
  other ≠ session_id →
  P2PConnectionManager.disconnect session_id user_id sessions !! other
  = sessions !! other.
Proof.
  intros Hne. unfold P2PConnectionManager.disconnect.
  destruct (sessions !! session_id) as [session|]; [|done].
  case_bool_decide; [|done].
  case_bool_decide; [by rewrite lookup_delete_ne | by rewrite lookup_insert_ne].
Qed.

Lemma send_loop_registry session_id message (exclude : gset string) snapshot
    sessions :
  (∀ user,
     registered session_id
       (P2PConnectionManager.send_loop fails session_id message exclude
          snapshot sessions).1 user
     = if dropped fails exclude snapshot user then None
       else registered session_id sessions user)
  ∧ (∀ other, other ≠ session_id →
       (P2PConnectionManager.send_loop fails session_id message exclude
          snapshot sessions).1 !! other
       = sessions !! other).
Proof.
  revert sessions. induction snapshot as [|[u c] l IH]; intros sessions; simpl.
  - done.
  - case_bool_decide as Hex; simpl.
    + destruct (IH sessions) as [IH1 IH2]. split; [|done].
      intros user. rewrite IH1. by rewrite andb_false_r.
    + destruct (IH (if fails c
                    then P2PConnectionManager.disconnect session_id u sessions
                    else sessions)) as [IH1 IH2].
      split.
      * intros user. rewrite IH1. rewrite andb_true_r.
        destruct (fails c); simpl.
        -- rewrite registered_disconnect, andb_true_r.
           case_bool_decide as Eu; simpl.
           ++ subst. rewrite decide_True by done. by destruct (dropped _ _ _ _).
           ++ by rewrite decide_False by done.
        -- by rewrite andb_false_r.
      * intros other Hne. rewrite IH2 by done.
        destruct (fails c); [by apply disconnect_other_session | done].
Qed.

Lemma dropped_map_to_list (exclude : gset string) (session : gmap string WebSocket)
    user :
  dropped fails exclude (map_to_list session) user
  = match session !! user with
    | Some h => negb (bool_decide (user ∈ exclude)) && fails h
    | None => false
    end.
Proof.
  unfold dropped. apply eq_true_iff_eq. rewrite existsb_exists. split.
  - intros ([u h] & Hin & Hc). simpl in Hc.
    apply andb_true_iff in Hc as [Hc Hf]. apply andb_true_iff in Hc as [Hu Hx].
    apply bool_decide_eq_true in Hu. subst u.
    apply list_elem_of_In, elem_of_map_to_list in Hin. rewrite Hin.
    by rewrite Hx, Hf.
  - destruct (session !! user) as [h|] eqn:E; [|done]. intros Hc.
    exists (user, h). split; [by apply list_elem_of_In, elem_of_map_to_list|].
    simpl. by rewrite bool_decide_true by done.
Qed.

(** X8.  [send] takes out of the session the participants outside the
    exclude set whose connection failed, and no one else: an excluded
    participant stays registered whatever the state of their connection,
    and the other sessions are untouched. *)
Theorem send_self_heal (session_id : string) (message : frame)
    (exclude : gset string) (sessions : gmap string (gmap string WebSocket)) :
  let after := (P2PConnectionManager.send fails session_id message exclude sessions).1 in
  (∀ user,
     registered session_id after user
     = match registered session_id sessions user with
       | Some h => if bool_decide (user ∈ exclude) || negb (fails h)
                   then Some h else None
       | None => None
       end)
  ∧ (∀ other, other ≠ session_id → after !! other = sessions !! other).
Proof.
  intros after. unfold after, P2PConnectionManager.send.
  destruct (send_loop_registry session_id message exclude
              (map_to_list (default ∅ (sessions !! session_id))) sessions)
    as [H1 H2].
  split; [|exact H2]. intros user. rewrite H1, dropped_map_to_list.
  unfold registered. destruct (sessions !! session_id) as [session|]; simpl; [|done].
  destruct (session !! user) as [h|]; [|done].
  by destruct (bool_decide (user ∈ exclude)), (fails h).
Qed.

Lemma broadcast_inner_spec user payload snapshot (users : gmap string (gset WebSocket)) :
  SubscriptionConnectionManager.broadcast_inner fails user payload snapshot users
  = (alter (fun s => s ∖ list_to_set (List.filter fails snapshot)) user users,
     attempts payload snapshot).
Proof.
  revert users. induction snapshot as [|c l IH]; intros users; simpl.
  - f_equal. apply map_eq. intros k. rewrite lookup_alter.
    case_decide as E; [subst k|done]. destruct (users !! user); simpl; [|done].
    by rewrite difference_empty_L.
  - rewrite IH. simpl. f_equal. destruct (fails c); simpl; [|done].
    apply map_eq. intros k. rewrite !lookup_alter.
    case_decide as E; [subst k|done]. rewrite decide_True by done.
    destruct (users !! user); simpl; [|done].
    by rewrite difference_difference_l_L.
Qed.

Lemma survivors_difference (s : gset WebSocket) :
  s ∖ list_to_set (List.filter fails (elements s)) = survivors fails s.
Proof.
  apply set_eq. intros h.
  rewrite difference_failing, survivors_spec, elem_of_elements. tauto.
Qed.

Lemma broadcast_outer_spec payload values (users : gmap string (gset WebSocket)) :
  NoDup values.*1 →
  (∀ u s, (u, s) ∈ values → users !! u = Some s) →
  (∀ k, (SubscriptionConnectionManager.broadcast_outer fails payload values users).1 !! k
        = if decide (k ∈ values.*1) then survivors fails <$> users !! k
          else users !! k)
  ∧ (∀ c m, (c, m) ∈ (SubscriptionConnectionManager.broadcast_outer fails payload
                        values users).2
            ↔ m = payload ∧ ∃ u s, (u, s) ∈ values ∧ c ∈ s).
Proof.
  revert users. induction values as [|[u s] l IH]; intros users Hnd Hv; simpl.
  - split; [done|]. intros c m. split; [by intros ?%elem_of_nil|].
    intros (_ & ? & ? & ?%elem_of_nil & _). done.
  - apply NoDup_cons in Hnd as [Hu Hnd]. simpl in Hu.
    rewrite broadcast_inner_spec. simpl.
    set (users' := alter (fun s0 => s0 ∖ list_to_set (List.filter fails (elements s)))
                     u users).
    assert (users !! u = Some s) as Hus by (apply Hv; by left).
    assert (users' !! u = Some (survivors fails s)) as Hu'.
    { unfold users'. rewrite lookup_alter, decide_True, Hus by done. simpl.
      by rewrite survivors_difference. }
    assert (∀ k, k ≠ u → users' !! k = users !! k) as Hk'.
    { intros k Hne. unfold users'. by rewrite lookup_alter, decide_False. }
    destruct (IH users' Hnd) as [IH1 IH2].
    { intros u0 s0 Hin. rewrite Hk'; [apply Hv; by right|].
      intros ->. apply Hu. apply list_elem_of_fmap. by exists (u, s0). }
    split.
    + intros k. rewrite IH1. destruct (decide (k = u)) as [->|Hne].
      * rewrite decide_False by done.
        rewrite decide_True by (by left). by rewrite Hu', Hus.
      * rewrite Hk' by done.
        destruct (decide (k ∈ l.*1)) as [Hin|Hin].
        -- by rewrite decide_True by (by right).
        -- rewrite decide_False; [done|]. by intros [?|?]%elem_of_cons.
    + intros c m. rewrite elem_of_app, elem_of_attempts, IH2, elem_of_elements.
      split.
      * intros [[-> Hc] | [-> (u0 & s0 & Hin & Hc)]]; (split; [done|]).
        -- exists u, s. split; [by left | done].
        -- exists u0, s0. split; [by right | done].
      * intros [-> (u0 & s0 & Hin & Hc)].
        apply elem_of_cons in Hin as [[= -> ->] | Hin]; [by left|].
        right. split; [done|]. by exists u0, s0.
Qed.

(** X9.  [SubscriptionConnectionManager.broadcast] sends the payload to the
    connections of every user and to nothing else, and afterwards each
    user has the connections of before on which the send did not fail, a
    user left with none keeping their key. *)
Theorem subscription_broadcast_spec (payload : frame)
    (users : gmap string (gset WebSocket)) :
  (SubscriptionConnectionManager.broadcast fails payload users).1
    = survivors fails <$> users
  ∧ (∀ c m, (c, m) ∈ (SubscriptionConnectionManager.broadcast fails payload users).2
            ↔ m = payload ∧ ∃ user connections,
                users !! user = Some connections ∧ c ∈ connections).
Proof.
  unfold SubscriptionConnectionManager.broadcast.
  destruct (broadcast_outer_spec payload (map_to_list users) users) as [H1 H2].
  - apply NoDup_fst_map_to_list.
  - intros u s. apply elem_of_map_to_list.
  - split.
    + apply map_eq. intros k. rewrite H1, lookup_fmap.
      case_decide as E; [done|].
      destruct (users !! k) as [s|] eqn:Ek; [|done]. destruct E.
      apply list_elem_of_fmap. exists (k, s). split; [done|].
      by apply elem_of_map_to_list.
    + intros c m. rewrite H2. split; intros [-> (u & s & Hin & Hc)];
        (split; [done|]); exists u, s; split; try done;
        by apply elem_of_map_to_list.
Qed.

End MoreRegistryFacts.

Section InvariantFacts.
Variable fails : WebSocket → bool.

Lemma no_empty_group_insert key members (d : gmap string (gset WebSocket)) :
  members ≠ ∅ → no_empty_group d → no_empty_group (<[key := members]> d).
Proof.
  intros Hm Hd k s. destruct (decide (k = key)) as [->|Hne].
  - rewrite lookup_insert_eq. by intros [= <-].
  - rewrite lookup_insert_ne by done. apply Hd.
Qed.

Lemma no_empty_group_delete key (d : gmap string (gset WebSocket)) :
  no_empty_group d → no_empty_group (delete key d).
Proof.
  intros Hd k s. destruct (decide (k = key)) as [->|Hne].
  - by rewrite lookup_delete_eq.
  - rewrite lookup_delete_ne by done. apply Hd.
Qed.

Lemma room_broadcast_lookup room_id message (rooms : gmap string (gset WebSocket)) :
  (RoomConnectionManager.broadcast fails room_id message rooms).1 !! room_id
  = match rooms !! room_id with
    | Some members =>
        if bool_decide (survivors fails members = ∅) then None
        else Some (survivors fails members)
    | None => None
    end.
Proof.
  unfold RoomConnectionManager.broadcast.
  destruct (keyed_loop fails room_id message (elements (getitem room_id rooms)) rooms
              (snapshot_or_missing room_id rooms)) as [Hl _].
  simpl.
  set (looped := (RoomConnectionManager.broadcast_loop fails room_id message
                    (elements (getitem room_id rooms)) rooms).1) in *.
  pose proof (Hl room_id) as Hr. rewrite decide_True in Hr by done.
  clearbody looped. unfold getitem in Hr.
  destruct (rooms !! room_id) as [members|]; simpl in Hr.
  - rewrite survivors_difference in Hr. rewrite Hr. case_bool_decide.
    + by rewrite lookup_delete_eq.
    + done.
  - by rewrite Hr.
Qed.

(** X10.  A room is kept only while it has a member: when no room of the
    registry is empty, none is after [connect], [disconnect] or
    [broadcast], so that a room has a key exactly when it has a member. *)
Theorem rooms_never_empty (room_id : string) (websocket : WebSocket)
    (message : frame) (rooms : gmap string (gset WebSocket)) :
  no_empty_group rooms →
  no_empty_group (RoomConnectionManager.connect room_id websocket rooms)
  ∧ no_empty_group (RoomConnectionManager.disconnect room_id websocket rooms)
  ∧ no_empty_group (RoomConnectionManager.broadcast fails room_id message rooms).1
  ∧ (rooms !! room_id = None ↔ getitem room_id rooms = ∅).
Proof.
  intros Hd. split; [|split; [|split]].
  - apply no_empty_group_insert; [|done].
    apply (non_empty_inhabited_L websocket), elem_of_union. right.
    by apply elem_of_singleton.
  - unfold RoomConnectionManager.disconnect.
    destruct (rooms !! room_id) as [members|]; [|done].
    case_bool_decide; [by apply no_empty_group_delete|].
    by apply no_empty_group_insert.
  - intros k s. destruct (decide (k = room_id)) as [->|Hne].
    + rewrite room_broadcast_lookup.
      destruct (rooms !! room_id) as [members|]; [|done].
      case_bool_decide; [done|]. by intros [= <-].
    + destruct (room_broadcast_spec fails room_id message rooms) as (_ & Ho & _).
      rewrite Ho by done. apply Hd.
  - unfold getitem. destruct (rooms !! room_id) as [members|] eqn:E; simpl.
    + split; [done|]. intros ->. by destruct (Hd _ _ E).
    + done.
Qed.

Lemma no_empty_session_disconnect session_id user_id sessions :
  no_empty_session sessions →
  no_empty_session (P2PConnectionManager.disconnect session_id user_id sessions).
Proof.
  intros Hs. unfold P2PConnectionManager.disconnect.
  destruct (sessions !! session_id) as [session|]; [|done].
  case_bool_decide; [|done]. case_bool_decide as He.
  - intros k m. destruct (decide (k = session_id)) as [->|Hne].
    + by rewrite lookup_delete_eq.
    + rewrite lookup_delete_ne by done. apply Hs.
  - intros k m. destruct (decide (k = session_id)) as [->|Hne].
    + rewrite lookup_insert_eq. by intros [= <-].
    + rewrite lookup_insert_ne by done. apply Hs.
Qed.

Lemma no_empty_session_send_loop session_id message (exclude : gset string)
    snapshot sessions :
  no_empty_session sessions →
  no_empty_session
    (P2PConnectionManager.send_loop fails session_id message exclude snapshot
       sessions).1.
Proof.
  revert sessions. induction snapshot as [|[u c] l IH]; intros sessions Hs; simpl;
    [done|].
  case_bool_decide; [by apply IH|]. simpl. apply IH.
  destruct (fails c); [by apply no_empty_session_disconnect | done].
Qed.

(** X11.  A session is kept only while it has a participant: when no
    session of the registry is empty, none is after [connect],
    [disconnect] or [send]. *)
Theorem sessions_never_empty (session_id user_id : string) (websocket : WebSocket)
    (message : frame) (exclude : gset string)
    (sessions : gmap string (gmap string WebSocket)) :
  no_empty_session sessions →
  no_empty_session (P2PConnectionManager.connect session_id user_id websocket sessions)
  ∧ no_empty_session (P2PConnectionManager.disconnect session_id user_id sessions)
  ∧ no_empty_session
      (P2PConnectionManager.send fails session_id message exclude sessions).1.
Proof.
  intros Hs. split; [|split].
  - unfold P2PConnectionManager.connect. intros k m.
    destruct (decide (k = session_id)) as [->|Hne].
    + rewrite lookup_insert_eq. intros [= <-]. apply insert_non_empty.
    + rewrite lookup_insert_ne by done. apply Hs.
  - by apply no_empty_session_disconnect.
  - by apply no_empty_session_send_loop.
Qed.

End InvariantFacts.

Lemma join_leave_set (members : gset WebSocket) websocket :
  websocket ∉ members → (members ∪ {[websocket]}) ∖ {[websocket]} = members.
Proof.
  intros Hn. apply set_eq. intros x.
  rewrite elem_of_difference, elem_of_union, elem_of_singleton. split.
  - tauto.
  - intros Hx. split; [by left|]. by intros ->.
Qed.

(** X12.  Leaving undoes joining: in a registry with no empty room,
    [disconnect] after [connect] of a connection that was not in the room
    gives the registry back, the room being removed again if the join had
    created it; and so for a participant who was not in the session. *)
Theorem join_then_leave (room_id session_id user_id : string)
    (websocket : WebSocket) (rooms : gmap string (gset WebSocket))
    (sessions : gmap string (gmap string WebSocket)) :
  (no_empty_group rooms → websocket ∉ getitem room_id rooms →
   RoomConnectionManager.disconnect room_id websocket
     (RoomConnectionManager.connect room_id websocket rooms) = rooms)
  ∧ (no_empty_session sessions → registered session_id sessions user_id = None →
     P2PConnectionManager.disconnect session_id user_id
       (P2PConnectionManager.connect session_id user_id websocket sessions)
     = sessions).
Proof.
  split.
  - intros Hd Hn. unfold RoomConnectionManager.disconnect,
      RoomConnectionManager.connect.
    rewrite lookup_insert_eq. unfold getitem in *.
    destruct (rooms !! room_id) as [members|] eqn:E; simpl in *.
    + rewrite (join_leave_set members websocket Hn).
      rewrite bool_decide_false by (by apply (Hd _ _ E)).
      rewrite insert_insert_eq. by apply insert_id.
    + rewrite (join_leave_set ∅ websocket Hn).
      rewrite bool_decide_true by done.
      rewrite delete_insert_eq. by apply delete_id.
  - intros Hs Hn. unfold P2PConnectionManager.disconnect,
      P2PConnectionManager.connect.
    rewrite lookup_insert_eq, lookup_insert_eq.
    rewrite bool_decide_true by eauto. unfold registered in Hn.
    destruct (sessions !! session_id) as [session|] eqn:E; simpl in *.
    + rewrite delete_insert_eq, (delete_id session) by done.
      rewrite bool_decide_false by (by apply (Hs _ _ E)).
      rewrite insert_insert_eq. by apply insert_id.
    + rewrite delete_insert_eq, delete_empty.
      rewrite bool_decide_true by done.
      rewrite delete_insert_eq. by apply delete_id.
Qed.

Section CallFacts.
Variable fails : WebSocket → bool.

(** X13.  A broadcast to a room, a send to a session or a notification of
    a user that the registry does not know sends nothing and leaves the
    registry as it is. *)
Theorem unknown_key_is_noop (key : string) (message : frame) (exclude : gset string)
    (rooms users : gmap string (gset WebSocket))
    (sessions : gmap string (gmap string WebSocket)) :
  (rooms !! key = None →
   RoomConnectionManager.broadcast fails key message rooms = (rooms, []))
  ∧ (sessions !! key = None →
     P2PConnectionManager.send fails key message exclude sessions = (sessions, []))
  ∧ (users !! key = None →
     SubscriptionConnectionManager.notify fails key message users = (users, [])).
Proof.
  split; [|split]; intros E.
  - unfold RoomConnectionManager.broadcast, getitem. rewrite E. simpl.
    rewrite elements_empty. simpl. by rewrite E.
  - unfold P2PConnectionManager.send. rewrite E. simpl.
    by rewrite map_to_list_empty.
  - unfold SubscriptionConnectionManager.notify, getitem. rewrite E. simpl.
    by rewrite elements_empty.
Qed.

(** X14.  One call sends at most once to a connection: the receivers of a
    broadcast on the common channel, of a broadcast in a room and of a
    notification of a user are pairwise distinct. *)
Theorem one_attempt_per_connection (key : string) (message : frame)
    (active : gset WebSocket) (d : gmap string (gset WebSocket)) :
  NoDup (receivers (ConnectionManager.broadcast fails message active).2)
  ∧ NoDup (receivers (RoomConnectionManager.broadcast fails key message d).2)
  ∧ NoDup (receivers (SubscriptionConnectionManager.notify fails key message d).2).
Proof.
  assert (∀ snapshot, receivers (attempts message snapshot) = snapshot) as Hr.
  { intros snapshot. unfold receivers, attempts.
    rewrite <- list_fmap_compose. apply list_fmap_id. }
  split; [|split].
  - unfold ConnectionManager.broadcast.
    destruct (common_broadcast_loop fails message (elements active) active) as [_ ->].
    rewrite Hr. apply NoDup_elements.
  - destruct (room_broadcast_spec fails key message d) as (_ & _ & ->).
    rewrite Hr. apply NoDup_elements.
  - unfold SubscriptionConnectionManager.notify.
    rewrite notify_loop_is_keyed_loop.
    destruct (keyed_loop fails key message (elements (getitem key d)) d
                (snapshot_or_missing key d)) as [_ ->].
    rewrite Hr. apply NoDup_elements.
Qed.

End CallFacts.

(** ** The dispatcher *)

Section DispatcherFacts.
Context `{MathModule} `{DatetimeModule}.
Variable fails : WebSocket → bool.

Lemma notify_getitem user_id payload (users : gmap string (gset WebSocket)) key :
  getitem key (SubscriptionConnectionManager.notify fails user_id payload users).1
  = if decide (key = user_id) then survivors fails (getitem user_id users)
    else getitem key users.
Proof.
  unfold getitem. rewrite notify_lookup. case_decide; [|done].
  destruct (users !! user_id); simpl; [done|].
  apply set_eq. intros x. rewrite survivors_spec, elem_of_empty. tauto.
Qed.

Lemma notify_each_sound message found users c f :
  (c, f) ∈ sent (notify_each fails message found users) →
  ∃ o user, o ∈ found ∧ f = SubscriptionFrame o message
            ∧ SubOut.user_id o = Some user ∧ c ∈ getitem user users.
Proof.
  revert users. induction found as [|o l IH]; intros users; simpl.
  - by intros ?%elem_of_nil.
  - destruct (SubOut.user_id o) as [user|] eqn:Eo; simpl;
      [|by intros ?%elem_of_nil].
    rewrite elem_of_app, notify_log, elem_of_attempts, elem_of_elements.
    intros [[-> Hc] | Hin].
    + exists o, user. repeat split; [by left | done..].
    + apply IH in Hin as (o' & user' & Ho' & -> & Hu' & Hc). exists o', user'.
      repeat split; [by right | done |].
      rewrite notify_getitem in Hc. case_decide; [subst|done].
      by apply survivors_spec in Hc as [Hc _].
Qed.

Lemma notify_each_complete message found users o user c :
  raised (notify_each fails message found users) = None →
  o ∈ found → SubOut.user_id o = Some user →
  c ∈ getitem user users → fails c = false →
  (c, SubscriptionFrame o message) ∈ sent (notify_each fails message found users).
Proof.
  revert users. induction found as [|o' l IH]; intros users; simpl.
  - by intros _ ?%elem_of_nil.
  - destruct (SubOut.user_id o') as [user'|] eqn:Eo; simpl; [|done].
    intros Hr Hin Hu Hc Hf. rewrite elem_of_app, notify_log, elem_of_attempts.
    apply elem_of_cons in Hin as [-> | Hin].
    + left. split; [done|]. rewrite elem_of_elements. congruence.
    + right. apply IH; try done.
      rewrite notify_getitem. case_decide; [subst|done].
      by apply survivors_spec.
Qed.

(** X15.  A notification goes only to a connection registered for the
    owner of a stored subscription on which all four predicates hold, and
    it carries that subscription and the message. *)
Theorem notification_only_to_owner (collection : list Sub.t) (message : Msg.t)
    (users : gmap string (gset WebSocket)) (c : WebSocket) (f : frame) :
  (c, f) ∈ sent (_notify_subscribers fails collection message users) →
  ∃ s user,
    s ∈ collection
    ∧ all_four message s = true
    ∧ f = SubscriptionFrame (serialise s) message
    ∧ Sub.user_id s = Some user
    ∧ c ∈ getitem user users.
Proof.
  unfold _notify_subscribers.
  destruct (find_matching_subscriptions collection message) as [found|e] eqn:Ef;
    simpl; [|by intros ?%elem_of_nil].
  intros (o & user & Ho & -> & Hu & Hc)%notify_each_sound.
  unfold find_matching_subscriptions, find in Ef.
  apply scan_sound in Ef as (kept & Hs & -> & Hk).
  apply list_elem_of_fmap in Ho as (s & -> & Hin).
  exists s, user. rewrite Forall_forall in Hk.
  split.
  - apply (elem_of_sublist _ _ _ Hin).
    etrans; [exact Hs | apply filter_sublist].
  - split; [by apply Hk|]. done.
Qed.

(** X16.  When the dispatch ends without an exception, every connection
    of the owner of a matched subscription on which the send does not fail
    receives that subscription with the message: two matched subscriptions
    of one user make two notifications. *)
Theorem working_connection_notified (collection : list Sub.t) (message : Msg.t)
    (users : gmap string (gset WebSocket)) (found : list SubOut.t)
    (o : SubOut.t) (user : string) (c : WebSocket) :
  find_matching_subscriptions collection message = Ok found →
  raised (_notify_subscribers fails collection message users) = None →
  o ∈ found → SubOut.user_id o = Some user →
  c ∈ getitem user users → fails c = false →
  (c, SubscriptionFrame o message)
    ∈ sent (_notify_subscribers fails collection message users).
Proof.
  unfold _notify_subscribers. intros ->. apply notify_each_complete.
Qed.

End DispatcherFacts.

(** ** The further properties at work *)

Lemma find_matching_sound_witness :
  @find_matching_subscriptions Sample.math Sample.dates
    [blank_subscription; room_subscription] blank_message
    = Ok [@serialise Sample.dates blank_subscription]
  ∧ ∃ kept,
      sublist kept [blank_subscription; room_subscription]
      ∧ [@serialise Sample.dates blank_subscription]
        = List.map (@serialise Sample.dates) kept
      ∧ Forall (fun s => @all_four Sample.math Sample.dates blank_message s = true
                         ∧ query_holds (prefilter blank_message) s = true) kept.
Proof.
  split; [reflexivity|].
  apply (@find_matching_sound Sample.math Sample.dates
           [blank_subscription; room_subscription] blank_message).
  reflexivity.
Defined.

Lemma open_subscription_matches_all_witness :
  Payload.user_id open_sample_payload = Some "alice"
  ∧ open_payload open_sample_payload
  ∧ ∃ document response,
      @create_subscription Sample.dates [room_subscription] open_sample_payload
        "s9" 20240101000000%Z
        = Ok ([room_subscription] ++ [document], response)
      ∧ ∀ message,
          @matches Sample.math Sample.dates document message = Ok true
          ∧ @find_matching_subscriptions Sample.math Sample.dates
              ([room_subscription] ++ [document]) message
            = @find_matching_subscriptions Sample.math Sample.dates
                [room_subscription] message
                ≫= (λ found : list SubOut.t,
                      Ok (found ++ [@serialise Sample.dates document])).
Proof.
  assert (open_payload open_sample_payload) as Ho by (repeat split; reflexivity).
  split; [reflexivity|]. split; [exact Ho|].
  exact (@open_subscription_matches_all Sample.math Sample.dates
           [room_subscription] open_sample_payload "alice" "s9" 20240101000000%Z
           eq_refl Ho).
Defined.

Lemma stored_message_time_witness :
  @iso_round_trip Sample.dates (Naive 20240101080000%Z)
  ∧ @iso_round_trip Sample.dates (Aware 20240101120000%Z 0)
  ∧ bounded day_subscription
  ∧ (∃ b, @_match_time Sample.dates day_subscription
            (Stored.message
               (@store_message Sample.dates [] timed_payload "m9" 20240102000000%Z).2)
          = Ok b
          ∧ (b = true ↔ within day_subscription 20240101080000%Z))
  ∧ @_match_time Sample.dates day_subscription
      (Stored.message
         (@store_message Sample.dates [] aware_payload "m9" 20240102000000%Z).2)
    = Raise naive_and_aware.
Proof.
  assert (@iso_round_trip Sample.dates (Naive 20240101080000%Z)) as Hn
    by (split; [discriminate | reflexivity]).
  assert (@iso_round_trip Sample.dates (Aware 20240101120000%Z 0)) as Ha
    by (split; [discriminate | reflexivity]).
  assert (bounded day_subscription) as Hb by (left; discriminate).
  split; [exact Hn|]. split; [exact Ha|]. split; [exact Hb|]. split.
  - exact (@stored_message_time Sample.dates [] timed_payload "m9" 20240102000000%Z
             day_subscription (Naive 20240101080000%Z) (or_introl eq_refl) Hn).
  - exact (proj1 (@stored_message_time Sample.dates [] aware_payload "m9"
                    20240102000000%Z day_subscription (Aware 20240101120000%Z 0)
                    (or_introl eq_refl) Ha) Hb).
Defined.

Lemma rooms_never_empty_witness :
  no_empty_group one_room
  ∧ no_empty_group (RoomConnectionManager.connect "lobby" 2 one_room)
  ∧ no_empty_group (RoomConnectionManager.disconnect "lobby" 1 one_room)
  ∧ no_empty_group
      (RoomConnectionManager.broadcast (fun _ => true) "lobby"
         (MessageFrame blank_message) one_room).1.
Proof.
  assert (no_empty_group one_room) as Hn.
  { intros key members Hl. unfold one_room in Hl.
    apply lookup_singleton_Some in Hl as [_ <-].
    apply (non_empty_inhabited_L 1). by apply elem_of_singleton. }
  split; [exact Hn|].
  destruct (rooms_never_empty (fun _ => true) "lobby" 2 (MessageFrame blank_message)
              one_room Hn) as (H1 & _ & _ & _).
  destruct (rooms_never_empty (fun _ => true) "lobby" 1 (MessageFrame blank_message)
              one_room Hn) as (_ & H2 & H3 & _).
  exact (conj H1 (conj H2 H3)).
Defined.

Lemma sessions_never_empty_witness :
  no_empty_session one_session
  ∧ no_empty_session (P2PConnectionManager.disconnect "chat" "alice" one_session)
  ∧ no_empty_session
      (P2PConnectionManager.send (fun _ => true) "chat" (MessageFrame blank_message)
         ∅ one_session).1.
Proof.
  assert (no_empty_session one_session) as Hn.
  { intros key session Hl. unfold one_session in Hl.
    apply lookup_singleton_Some in Hl as [_ <-]. apply insert_non_empty. }
  split; [exact Hn|].
  destruct (sessions_never_empty (fun _ => true) "chat" "alice" 1
              (MessageFrame blank_message) ∅ one_session Hn) as (_ & H2 & H3).
  exact (conj H2 H3).
Defined.

Lemma join_then_leave_witness :
  no_empty_group one_room
  ∧ (2 ∉ getitem "lobby" one_room)
  ∧ RoomConnectionManager.disconnect "lobby" 2
      (RoomConnectionManager.connect "lobby" 2 one_room) = one_room.
Proof.
  assert (no_empty_group one_room) as Hn.
  { intros key members Hl. unfold one_room in Hl.
    apply lookup_singleton_Some in Hl as [_ <-].
    apply (non_empty_inhabited_L 1). by apply elem_of_singleton. }
  assert (2 ∉ getitem "lobby" one_room) as Hm.
  { unfold getitem, one_room. rewrite lookup_singleton_eq. simpl.
    rewrite elem_of_singleton. discriminate. }
  split; [exact Hn|]. split; [exact Hm|].
  exact (proj1 (join_then_leave "lobby" "chat" "alice" 2 one_room one_session) Hn Hm).
Defined.

Lemma notification_only_to_owner_witness :
  let f := SubscriptionFrame (@serialise Sample.dates blank_subscription)
             blank_message in
  (7, f) ∈ sent (@_notify_subscribers Sample.math Sample.dates (fun _ => false)
                   [blank_subscription] blank_message listeners)
  ∧ ∃ s user,
      s ∈ [blank_subscription]
      ∧ @all_four Sample.math Sample.dates blank_message s = true
      ∧ f = SubscriptionFrame (@serialise Sample.dates s) blank_message
      ∧ Sub.user_id s = Some user
      ∧ 7 ∈ getitem user listeners.
Proof.
  intros f.
  assert ((7, f) ∈ sent (@_notify_subscribers Sample.math Sample.dates
                           (fun _ => false) [blank_subscription] blank_message
                           listeners)) as Hin
    by (vm_compute; left).
  split; [exact Hin|].
  exact (@notification_only_to_owner Sample.math Sample.dates (fun _ => false)
           [blank_subscription] blank_message listeners 7 f Hin).
Defined.

Lemma working_connection_notified_witness :
  let o := @serialise Sample.dates blank_subscription in
  7 ∈ getitem "alice" listeners
  ∧ (7, SubscriptionFrame o blank_message)
      ∈ sent (@_notify_subscribers Sample.math Sample.dates (fun _ => false)
                [blank_subscription; blank_subscription] blank_message listeners).
Proof.
  intros o.
  assert (7 ∈ getitem "alice" listeners) as Hc.
  { unfold getitem, listeners, SubscriptionConnectionManager.connect.
    rewrite lookup_insert_eq. simpl. apply elem_of_union. right.
    by apply elem_of_singleton. }
  split; [exact Hc|].
  apply (@working_connection_notified Sample.math Sample.dates (fun _ => false)
           [blank_subscription; blank_subscription] blank_message listeners
           [o; o] o "alice" 7).
  - reflexivity.
  - reflexivity.
  - by left.
  - reflexivity.
  - exact Hc.
  - reflexivity.
Defined.

(** ** Sorted reads *)

Section ListFacts.
Context `{DatetimeModule} `{SortModule}.

Lemma find_user user_id collection :
  find [[("user_id", Some user_id)]] collection
  = List.filter (fun s => bool_decide (Sub.user_id s = Some user_id)) collection.
Proof.
  unfold find. apply List.filter_ext. intros s.
  unfold query_holds, clause_holds, field. simpl.
  by rewrite andb_true_r, orb_false_r.
Qed.

Lemma elem_of_filter_user user_id collection s :
  s ∈ List.filter (fun s => bool_decide (Sub.user_id s = Some user_id)) collection
  ↔ s ∈ collection ∧ Sub.user_id s = Some user_id.
Proof.
  rewrite !list_elem_of_In, filter_In, bool_decide_eq_true. done.
Qed.

(** X17.  [list_subscriptions] returns the stored subscriptions of the
    user and no other, each as many times as it is stored, none before
    one created later. *)
Theorem listed_subscriptions (collection : list Sub.t) (user_id : string) :
  (∀ o, o ∈ list_subscriptions collection user_id
        ↔ ∃ s, s ∈ collection ∧ Sub.user_id s = Some user_id ∧ o = serialise s)
  ∧ ∃ documents,
      list_subscriptions collection user_id = List.map serialise documents
      ∧ documents ≡ₚ List.filter (fun s => bool_decide (Sub.user_id s = Some user_id))
                       collection
      ∧ newest_first Sub.created_at documents.
Proof.
  unfold list_subscriptions. rewrite find_user.
  set (mine := List.filter _ collection).
  split.
  - intros o. rewrite list_elem_of_fmap. split.
    + intros (s & -> & Hin). exists s.
      rewrite (sort_permutation _ Sub.created_at mine) in Hin.
      apply elem_of_filter_user in Hin as [? ?]. done.
    + intros (s & Hin & Hu & ->). exists s. split; [done|].
      rewrite (sort_permutation _ Sub.created_at mine).
      by apply elem_of_filter_user.
  - exists (sort_newest_first Sub.created_at mine).
    split; [done|]. split; [apply sort_permutation | apply sort_sorted].
Qed.



End ListFacts.

Section HistoryFacts.
Context `{DatetimeModule} `{SortModule}.

Lemma selected_requested scope room_id chat_id before item :
  selected scope room_id chat_id before item = true
  ↔ requested scope room_id chat_id before item.
Proof.
  unfold selected, requested, created, str_truthy.
  rewrite !andb_true_iff, bool_decide_eq_true.
  split.
  - intros [[[Hs Hr] Hc] Hb]. split; [done|]. split; [|split].
    + intros r -> Hne. destruct (Str.is_empty r) eqn:Er.
      * by destruct r.
      * simpl in Hr. by apply bool_decide_eq_true in Hr.
    + intros c -> Hne. destruct (Str.is_empty c) eqn:Ec.
      * by destruct c.
      * simpl in Hc. by apply bool_decide_eq_true in Hc.
    + intros b ->. destruct (Msg.created_at item) as [[[t|utc o]|s]|]; try done.
      exists t. split; [done|]. by apply Z.ltb_lt.
  - intros (Hs & Hr & Hc & Hb). split; [split; [split|]|]; [done| | |].
    + destruct room_id as [r|]; [|done]. destruct (Str.is_empty r) eqn:Er; [done|].
      simpl. apply bool_decide_eq_true. apply Hr; [done|]. by intros ->.
    + destruct chat_id as [c|]; [|done]. destruct (Str.is_empty c) eqn:Ec; [done|].
      simpl. apply bool_decide_eq_true. apply Hc; [done|]. by intros ->.
    + destruct before as [b|]; [|done].
      destruct (Hb b eq_refl) as (t & -> & Hlt). by apply Z.ltb_lt.
Qed.

Lemma history_loop_spec cursor history out :
  history_loop cursor history = Fetched out
  ↔ ∃ views, Forall2 (fun d v => history_view d = Fetched v) cursor views
             ∧ out = history ++ views.
Proof.
  revert history. induction cursor as [|item cursor IH]; intros history; simpl.
  - split.
    + intros [= <-]. exists []. split; [constructor|by rewrite app_nil_r].
    + intros (views & Hv & ->). apply Forall2_nil_inv_l in Hv as ->.
      by rewrite app_nil_r.
  - destruct (history_view item) as [view|e] eqn:Ev.
    + rewrite IH. split.
      * intros (views & Hv & ->). exists (view :: views).
        split; [by constructor|]. by rewrite <- app_assoc.
      * intros (views & Hv & ->).
        apply Forall2_cons_inv_l in Hv as (v & views' & Hvv & Hrest & ->).
        assert (v = view) as -> by congruence.
        exists views'. split; [done|]. by rewrite <- app_assoc.
    + split; [done|]. intros (views & Hv & _).
      apply Forall2_cons_inv_l in Hv as (v & views' & Hvv & _ & _). congruence.
Qed.

Lemma history_loop_failed cursor history e :
  history_loop cursor history = Failed e →
  ∃ item, item ∈ cursor ∧ history_view item = Failed e.
Proof.
  revert history. induction cursor as [|item cursor IH]; intros history; simpl; [done|].
  destruct (history_view item) as [view|e'] eqn:Ev.
  - intros Hl. destruct (IH _ Hl) as (i & Hi & Hf). exists i. split; [by right|done].
  - intros [= ->]. exists item. split; [by left|done].
Qed.

Lemma fetch_history_spec messages scope room_id chat_id limit before history :
  fetch_history messages scope room_id chat_id limit before = Fetched history
  ↔ Forall2 (fun d v => history_view d = Fetched v)
      (reverse (take_limit limit
         (sort_newest_first created
            (List.filter (selected scope room_id chat_id before) messages))))
      history.
Proof.
  unfold fetch_history.
  set (cursor := take_limit _ _).
  destruct (history_loop cursor []) as [views|e] eqn:El.
  - apply history_loop_spec in El as (views' & Hv & ->). simpl.
    split.
    + intros [= <-]. by apply Forall2_reverse.
    + intros Hr. f_equal. apply Forall2_reverse in Hr.
      rewrite reverse_involutive in Hr.
      assert (∀ (l : list Msg.t) v1 v2,
                 Forall2 (fun d v => history_view d = Fetched v) l v1 →
                 Forall2 (fun d v => history_view d = Fetched v) l v2 → v1 = v2) as Hfun.
      { induction l as [|d l IH]; intros v1 v2 H1 H2.
        - apply Forall2_nil_inv_l in H1, H2. by subst.
        - apply Forall2_cons_inv_l in H1 as (a1 & r1 & E1 & R1 & ->).
          apply Forall2_cons_inv_l in H2 as (a2 & r2 & E2 & R2 & ->).
          f_equal; [congruence|by apply IH]. }
      rewrite <- (reverse_involutive history). f_equal. by apply (Hfun cursor).
  - split; [done|]. intros Hr. exfalso.
    apply history_loop_failed in El as (item & Hin & Hf).
    apply Forall2_reverse in Hr. rewrite reverse_involutive in Hr.
    apply list_elem_of_lookup in Hin as [i Hi].
    destruct (Forall2_lookup_l _ _ _ _ _ Hr Hi) as (v & _ & Hv). congruence.
Qed.

Lemma take_limit_split {A} limit (l : list A) :
  ∃ dropped, l = take_limit limit l ++ dropped
             ∧ (limit = 0 → dropped = [])
             ∧ length (take_limit limit l)
               = (if limit is 0 then length l else limit `min` length l).
Proof.
  destruct limit as [|n].
  - exists []. simpl. by rewrite app_nil_r.
  - exists (drop (S n) l). unfold take_limit.
    rewrite take_drop, length_take. done.
Qed.

Lemma view_keeps_fields item view :
  history_view item = Fetched view →
  Msg.scope view = Msg.scope item
  ∧ Msg.room_id view = Msg.room_id item
  ∧ Msg.chat_id view = Msg.chat_id item
  ∧ Msg.user_id view = Msg.user_id item
  ∧ Msg.content view = Msg.content item
  ∧ Msg.location view = Msg.location item
  ∧ ∃ t, Msg.created_at item = Some (TimeObj t)
         ∧ Msg.created_at view = Some (TimeStr (isoformat t)).
Proof.
  unfold history_view.
  destruct (Msg.created_at item) as [[t|s]|]; try done.
  destruct (pytime_truthy (Msg.event_time item)).
  - destruct (Msg.event_time item) as [[e|s]|]; try done.
    intros [= <-]. simpl. repeat (split; [done|]). by exists t.
  - intros [= <-]. simpl. repeat (split; [done|]). by exists t.
Qed.

Lemma newest_first_reverse {A} (key : A → option datetime) (l : list A) :
  newest_first key l → oldest_first key (reverse l).
Proof.
  unfold newest_first, oldest_first. induction 1 as [|a l Hs IH Hall].
  - constructor.
  - rewrite reverse_cons. apply StronglySorted_app. split; [|split].
    + intros x1 x2 Hx1 Hx2%list_elem_of_singleton. subst x2.
      rewrite elem_of_reverse in Hx1. rewrite Forall_forall in Hall. intros ta tb Ha Hb.
      by apply (Hall x1 Hx1 tb ta).
    + done.
    + repeat constructor.
Qed.

(** X19.  Every message of a history that [fetch_history] returns is the
    rendering of a stored message of the requested scope, of the requested
    room and chat when one is named, and created before [before] when it is
    given; with no limit every such stored message is rendered in it. *)
Theorem history_selection (messages : list Msg.t) (scope : string)
    (room_id chat_id : option string) (limit : nat) (before : option datetime)
    (history : list Msg.t) :
  fetch_history messages scope room_id chat_id limit before = Fetched history →
  (∀ view, view ∈ history →
     ∃ item, item ∈ messages
             ∧ requested scope room_id chat_id before item
             ∧ history_view item = Fetched view
             ∧ Msg.scope view = Some scope
             ∧ (∀ r, room_id = Some r → r ≠ "" → Msg.room_id view = Some r)
             ∧ (∀ c, chat_id = Some c → c ≠ "" → Msg.chat_id view = Some c))
  ∧ (limit = 0 →
     ∀ item, item ∈ messages → requested scope room_id chat_id before item →
       ∃ view, view ∈ history ∧ history_view item = Fetched view).
Proof.
  intros Hf%fetch_history_spec.
  destruct (take_limit_split limit
              (sort_newest_first created
                 (List.filter (selected scope room_id chat_id before) messages)))
    as (dropped & Hsplit & Hnone & _).
  set (cursor := take_limit _ _) in *.
  split.
  - intros view Hin. apply list_elem_of_lookup in Hin as [i Hi].
    destruct (Forall2_lookup_r _ _ _ _ _ Hf Hi) as (item & Hitem & Hv).
    apply list_elem_of_lookup_2 in Hitem. rewrite elem_of_reverse in Hitem.
    assert (item ∈ List.filter (selected scope room_id chat_id before) messages)
      as Hsel.
    { rewrite <- (sort_permutation _ created), Hsplit. apply elem_of_app. by left. }
    apply list_elem_of_In, filter_In in Hsel as [Hm Hsel].
    apply list_elem_of_In in Hm. apply selected_requested in Hsel.
    exists item. split; [done|]. split; [done|]. split; [done|].
    destruct (view_keeps_fields _ _ Hv) as (Es & Er & Ec & _).
    destruct Hsel as (Hs & Hr & Hc & _).
    rewrite Es, Er, Ec. done.
  - intros Hl item Hm Hreq. rewrite (Hnone Hl), app_nil_r in Hsplit.
    assert (item ∈ reverse cursor) as Hin.
    { apply elem_of_reverse. rewrite <- Hsplit, (sort_permutation _ created).
      apply list_elem_of_In, filter_In. split; [by apply list_elem_of_In|].
      by apply selected_requested. }
    apply list_elem_of_lookup in Hin as [i Hi].
    destruct (Forall2_lookup_l _ _ _ _ _ Hf Hi) as (view & Hview & Hv).
    exists view. split; [by apply list_elem_of_lookup_2 with i|done].
Qed.

(** X20.  A history that [fetch_history] returns renders, oldest first,
    the [limit] newest of the requested messages: no requested message
    left out is newer than one that is rendered. *)
Theorem history_order (messages : list Msg.t) (scope : string)
    (room_id chat_id : option string) (limit : nat) (before : option datetime)
    (history : list Msg.t) :
  fetch_history messages scope room_id chat_id limit before = Fetched history →
  ∃ kept dropped,
    kept ++ dropped
      ≡ₚ List.filter (selected scope room_id chat_id before) messages
    ∧ Forall2 (fun item view => history_view item = Fetched view) kept history
    ∧ oldest_first created kept
    ∧ (∀ k d tk td, k ∈ kept → d ∈ dropped →
         created k = Some tk → created d = Some td → (td ≤ tk)%Z)
    ∧ length history
      = (if limit is 0 then length kept + length dropped
         else limit `min` (length kept + length dropped)).
Proof.
  intros Hf%fetch_history_spec.
  set (chosen := List.filter (selected scope room_id chat_id before) messages) in *.
  destruct (take_limit_split limit (sort_newest_first created chosen))
    as (dropped & Hsplit & Hnone & Hlen).
  set (cursor := take_limit _ _) in *.
  pose proof (sort_sorted _ created chosen) as Hsorted.
  rewrite Hsplit in Hsorted. apply StronglySorted_app in Hsorted as (Hcross & Hk & _).
  exists (reverse cursor), dropped. split; [|split; [|split; [|split]]].
  - rewrite reverse_Permutation, <- Hsplit. apply sort_permutation.
  - done.
  - by apply newest_first_reverse.
  - intros k d tk td Hkin Hd Ek Ed. rewrite elem_of_reverse in Hkin.
    by apply (Hcross k d Hkin Hd).
  - rewrite <- (Forall2_length _ _ _ Hf), !length_reverse, <- length_app, <- Hsplit.
    exact Hlen.
Qed.



Lemma well_stored_view item :
  well_stored item → ∃ view, history_view item = Fetched view.
Proof.
  intros [[t Ht] He]. unfold history_view. rewrite Ht.
  destruct (Msg.event_time item) as [[e|s]|]; simpl; eauto.
  rewrite (He s eq_refl). simpl. eauto.
Qed.

Lemma views_exist cursor :
  Forall well_stored cursor →
  ∃ history, Forall2 (fun d v => history_view d = Fetched v) cursor history.
Proof.
  induction 1 as [|item cursor Hi _ [views IH]].
  - exists []. constructor.
  - destruct (well_stored_view item Hi) as [view Hv].
    exists (view :: views). by constructor.
Qed.

Lemma cursor_of_store messages scope room_id chat_id limit before item :
  item ∈ take_limit limit
           (sort_newest_first created
              (List.filter (selected scope room_id chat_id before) messages)) →
  item ∈ messages ∧ selected scope room_id chat_id before item = true.
Proof.
  intros Hin.
  destruct (take_limit_split limit
              (sort_newest_first created
                 (List.filter (selected scope room_id chat_id before) messages)))
    as (dropped & Hsplit & _).
  assert (item ∈ List.filter (selected scope room_id chat_id before) messages)
    as Hsel.
  { rewrite <- (sort_permutation _ created), Hsplit. apply elem_of_app. by left. }
  apply list_elem_of_In, filter_In in Hsel as [Hm Hsel].
  split; [by apply list_elem_of_In|done].
Qed.

(** X22.  [fetch_history] returns a history whenever every stored message
    has a date under [created_at] and no non-empty string under
    [event_time], and [store_message] keeps the store so when the event
    time of its payload is no non-empty string. *)
Theorem history_returns (messages : list Msg.t) :
  Forall well_stored messages →
  (∀ scope room_id chat_id limit before,
     ∃ history,
       fetch_history messages scope room_id chat_id limit before = Fetched history)
  ∧ (∀ payload inserted_id utcnow,
       (∀ s, MsgPayload.event_time payload = Some (TimeStr s) → s = "") →
       Forall well_stored (store_message messages payload inserted_id utcnow).1).
Proof.
  intros Hall. split.
  - intros scope room_id chat_id limit before.
    set (cursor := reverse (take_limit limit
                     (sort_newest_first created
                        (List.filter (selected scope room_id chat_id before) messages)))).
    assert (Forall well_stored cursor) as Hc.
    { apply Forall_forall. intros item Hin. unfold cursor in Hin.
      rewrite elem_of_reverse in Hin.
      destruct (take_limit_split limit
                  (sort_newest_first created
                     (List.filter (selected scope room_id chat_id before) messages)))
        as (dropped & Hsplit & _).
      assert (item ∈ List.filter (selected scope room_id chat_id before) messages)
        as Hsel.
      { rewrite <- (sort_permutation _ created), Hsplit. apply elem_of_app. by left. }
      apply list_elem_of_In, filter_In in Hsel as [Hm _].
      rewrite Forall_forall in Hall. by apply Hall, list_elem_of_In. }
    destruct (views_exist cursor Hc) as [history Hh].
    exists history. by apply fetch_history_spec.
  - intros payload inserted_id utcnow Hev. unfold store_message. simpl.
    apply Forall_app. split; [done|]. apply Forall_singleton.
    split; simpl; [by exists (Naive utcnow)|].
    intros s Es. apply Hev.
    by destruct (MsgPayload.event_time payload) as [[[t|utc o]|s']|].
Qed.

End HistoryFacts.

(** ** Runs of the sorted reads *)


Lemma history_selection_witness :
  ∃ history,
    @fetch_history Sample.dates Sample.sorting sample_store "room" (Some "lobby")
      None 2 (Some 20240105000000%Z) = Fetched history
    ∧ ∀ view, view ∈ history →
        ∃ item, item ∈ sample_store
                ∧ requested "room" (Some "lobby") None (Some 20240105000000%Z) item
                ∧ @history_view Sample.dates item = Fetched view
                ∧ Msg.scope view = Some "room"
                ∧ (∀ r, Some "lobby" = Some r → r ≠ "" → Msg.room_id view = Some r)
                ∧ (∀ c, @None string = Some c → c ≠ "" → Msg.chat_id view = Some c).
Proof.
  eexists. split; [vm_compute; reflexivity|].
  exact (proj1 (@history_selection Sample.dates Sample.sorting sample_store "room"
                  (Some "lobby") None 2 (Some 20240105000000%Z) _ eq_refl)).
Defined.

Lemma history_order_witness :
  ∃ history kept dropped,
    @fetch_history Sample.dates Sample.sorting sample_store "room" (Some "lobby")
      None 2 None = Fetched history
    ∧ kept ++ dropped ≡ₚ List.filter (selected "room" (Some "lobby") None None)
                           sample_store
    ∧ Forall2 (fun item view => @history_view Sample.dates item = Fetched view)
        kept history
    ∧ oldest_first created kept
    ∧ (∀ k d tk td, k ∈ kept → d ∈ dropped →
         created k = Some tk → created d = Some td → (td ≤ tk)%Z)
    ∧ length history = 2 `min` (length kept + length dropped).
Proof.
  eexists.
  destruct (@history_order Sample.dates Sample.sorting sample_store "room"
              (Some "lobby") None 2 None _ eq_refl) as (kept & dropped & Hrest).
  exists kept, dropped. split; [vm_compute; reflexivity|exact Hrest].
Defined.

Lemma history_returns_witness :
  Forall well_stored sample_store
  ∧ (∃ history,
       @fetch_history Sample.dates Sample.sorting sample_store "room" (Some "lobby")
         None 0 None = Fetched history)
  ∧ Forall well_stored
      (@store_message Sample.dates sample_store timed_payload "m9"
         20240105000000%Z).1.
Proof.
  assert (Forall well_stored sample_store) as Hw.
  { repeat constructor; (by eexists) || discriminate. }
  split; [exact Hw|].
  destruct (@history_returns Sample.dates Sample.sorting sample_store Hw) as [Hf Hs].
  split; [exact (Hf "room" (Some "lobby") None 0 None)|].
  apply Hs. discriminate.
Defined.

(** ** From a handler to the histories *)

Section EndToEnd.
Context `{MathModule} `{DatetimeModule} `{SortModule}.





(** X24.  Every message that a handler stores can be rendered: after
    [CommonChat.handle_incoming], [RoomManager.handle_incoming] and a turn
    of [websocket_p2p] the histories return as they did before. *)
Theorem handlers_keep_histories (payload : MessageIn.t) (inserted_id : string)
    (utcnow : datetime) (room_id session_id user_id : string) (w w' : World) :
  Forall well_stored (messages w) →
  w' = state (CommonChat_handle_incoming payload inserted_id utcnow w).1
  ∨ w' = state (RoomManager_handle_incoming room_id payload inserted_id utcnow w).1
  ∨ w' = state (websocket_p2p_receive session_id user_id payload inserted_id
                  utcnow w) →
  Forall well_stored (messages w')
  ∧ ∀ scope room chat limit before,
      ∃ history,
        fetch_history (messages w') scope room chat limit before = Fetched history.
Proof.
  intros Hw Hstep.
  assert (Forall well_stored (messages w')) as Hw'.
  { assert (∀ scope room chat,
               Forall well_stored
                 (store_message (messages w) (model_dump payload scope room chat)
                    inserted_id utcnow).1) as Hstore.
    { intros scope room chat. unfold store_message. simpl.
      apply Forall_app. split; [done|]. apply Forall_singleton.
      split; simpl; [by exists (Naive utcnow)|].
      by destruct (MessageIn.event_time payload) as [[t|utc o]|]. }
    destruct Hstep as [-> | [-> | ->]]; apply Hstore. }
  split; [done|]. intros scope room chat limit before.
  destruct (views_exist
              (reverse (take_limit limit
                 (sort_newest_first created
                    (List.filter (selected scope room chat before) (messages w')))))) 
    as [history Hh].
  - apply Forall_forall. intros item Hin. rewrite elem_of_reverse in Hin.
    apply cursor_of_store in Hin as [Hm _].
    rewrite Forall_forall in Hw'. by apply Hw'.
  - exists history. by apply fetch_history_spec.
Qed.

End EndToEnd.

Lemma sample_store_well_stored : Forall well_stored sample_store.
Proof. repeat constructor; (by eexists) || discriminate. Qed.


Lemma handlers_keep_histories_witness :
  Forall well_stored (messages history_world)
  ∧ Forall well_stored
      (messages (state (@CommonChat_handle_incoming Sample.dates hello "m9"
                          20240105000000%Z history_world).1))
  ∧ ∀ scope room chat limit before,
      ∃ history,
        @fetch_history Sample.dates Sample.sorting
          (messages (state (@CommonChat_handle_incoming Sample.dates hello
                              "m9" 20240105000000%Z history_world).1))
          scope room chat limit before = Fetched history.
Proof.
  split; [exact sample_store_well_stored|].
  exact (@handlers_keep_histories Sample.math Sample.dates Sample.sorting
           hello "m9" 20240105000000%Z "lobby" "chat" "alice"
           history_world _ sample_store_well_stored (or_introl eq_refl)).
Defined.

(** ** Settings *)

Lemma split_commas_nonempty s : split_commas s ≠ [].
Proof.
  destruct s as [|c s]; simpl; [done|].
  destruct (Ascii.eqb c ","); [done|]. by destruct (split_commas s).
Qed.

Lemma split_commas_comma_free s : Forall comma_free (split_commas s).
Proof.
  induction s as [|c s IH]; simpl.
  - repeat constructor. unfold comma_free. simpl. apply not_elem_of_nil.
  - destruct (Ascii.eqb c ",") eqn:Ec.
    + constructor; [|done]. unfold comma_free. simpl. apply not_elem_of_nil.
    + apply Ascii.eqb_neq in Ec.
      destruct (split_commas s) as [|head tail].
      * repeat constructor. unfold comma_free. simpl.
        intros [E | E]%elem_of_cons; [congruence|by apply not_elem_of_nil in E].
      * apply Forall_cons in IH as [Hh Ht]. constructor; [|done].
        unfold comma_free in *. simpl.
        intros [E | E]%elem_of_cons; [congruence|done].
Qed.

Lemma split_commas_one s : comma_free s → split_commas s = [s].
Proof.
  unfold comma_free. induction s as [|c s IH]; simpl; [done|].
  intros Hc. destruct (Ascii.eqb c ",") eqn:Ec.
  - apply Ascii.eqb_eq in Ec. subst c. exfalso. apply Hc. by left.
  - rewrite IH; [done|]. intros Hin. apply Hc. by right.
Qed.

Lemma split_commas_cons part rest :
  comma_free part →
  split_commas (part ++ String "," rest)%string = part :: split_commas rest.
Proof.
  unfold comma_free. induction part as [|c part IH]; intros Hc.
  - by rewrite StrFacts.app_nil_l.
  - rewrite StrFacts.app_cons. simpl. destruct (Ascii.eqb c ",") eqn:Ec.
    + apply Ascii.eqb_eq in Ec. subst c. exfalso. apply Hc. by left.
    + rewrite IH; [done|]. intros Hin. apply Hc. by right.
Qed.

Lemma split_join parts :
  parts ≠ [] → Forall comma_free parts → split_commas (join_commas parts) = parts.
Proof.
  induction parts as [|part rest IH]; [done|]. intros _ Hall.
  apply Forall_cons in Hall as [Hp Hr].
  destruct rest as [|next rest'].
  - simpl. by apply split_commas_one.
  - change (join_commas (part :: next :: rest'))
      with (part ++ String "," (join_commas (next :: rest')))%string.
    rewrite split_commas_cons by done. by rewrite IH.
Qed.

Lemma characters_lstrip s c : c ∈ characters (Str.lstrip s) → c ∈ characters s.
Proof.
  induction s as [|a s IH]; simpl; [done|].
  destruct (Str.isspace a); [|done]. intros Hin. right. by apply IH.
Qed.

Lemma characters_rstrip s c : c ∈ characters (Str.rstrip s) → c ∈ characters s.
Proof.
  induction s as [|a s IH]; simpl; [done|].
  destruct (Str.isspace a && Str.is_empty (Str.rstrip s)); simpl.
  - by intros ?%not_elem_of_nil.
  - intros [-> | Hin]%elem_of_cons; [by left|right; by apply IH].
Qed.

(** X25.  The allowed origins of the settings are never none; no origin
    holds a comma or has white space around it; and a list of comma-free
    origins written with commas between them, white space around them or
    not, is read back as these origins with the white space removed.  With
    the variable unset every origin is allowed. *)
Theorem allowed_origins_read (environ : gmap string string) :
  let origins := Settings.allowed_origins (Settings.__init__ environ) in
  origins ≠ []
  ∧ Forall (fun origin => comma_free origin ∧ Str.strip origin = origin) origins
  ∧ (∀ written, written ≠ [] → Forall comma_free written →
       environ !! "ALLOWED_ORIGINS" = Some (join_commas written) →
       origins = List.map Str.strip written)
  ∧ (environ !! "ALLOWED_ORIGINS" = None → origins = ["*"]).
Proof.
  unfold Settings.__init__, getenv. simpl.
  split; [|split; [|split]].
  - intros Hn. apply fmap_nil_inv in Hn. by apply split_commas_nonempty in Hn.
  - apply Forall_fmap. eapply Forall_impl; [apply split_commas_comma_free|].
    intros origin Hc. simpl. split; [|apply StrFacts.strip_idemp].
    unfold comma_free in *. intros Hin. apply Hc.
    by apply characters_lstrip, characters_rstrip.
  - intros written Hne Hall ->. by rewrite split_join.
  - intros ->. reflexivity.
Qed.

(** ** Rooms *)

Section RoomFacts.
Context `{MathModule} `{RoomStore}.

Lemma by_tags_list rooms tags topic :
  RoomManager_list rooms (by_tags tags topic)
  = Listed (List.map room_out
              (List.filter (room_selected (by_tags tags topic) None) rooms)).
Proof. reflexivity. Qed.

Lemma tags_carried (tags : list string) (document : Room.t) :
  (match tags with
   | [] => true
   | tag :: tags' =>
       forallb (fun tag => bool_decide (tag ∈ Room.tags document))
         (List.map (fun tag => Str.lower tag) (tag :: tags'))
   end) = true
  ↔ ∀ tag, tag ∈ tags → Str.lower tag ∈ Room.tags document.
Proof.
  assert (forallb (fun tag => bool_decide (tag ∈ Room.tags document))
            (List.map (fun tag => Str.lower tag) tags) = true
          ↔ ∀ tag, tag ∈ tags → Str.lower tag ∈ Room.tags document) as Hall.
  { rewrite forallb_forall. split.
    - intros Hall tag Hin.
      apply (proj1 (bool_decide_eq_true (Str.lower tag ∈ Room.tags document))).
      apply Hall. apply in_map_iff. exists tag. split; [done|by apply list_elem_of_In].
    - intros Hall tag' Hin. apply in_map_iff in Hin as (tag & <- & Hin).
      apply bool_decide_eq_true_2. apply Hall. by apply list_elem_of_In. }
  destruct tags as [|tag0 tags0]; [|exact Hall].
  split; [|done]. by intros _ tag ?%not_elem_of_nil.
Qed.

Lemma by_tags_selected tags topic document :
  room_selected (by_tags tags topic) None document = true
  ↔ (∀ tag, tag ∈ tags → Str.lower tag ∈ Room.tags document)
    ∧ (∀ t, topic = Some t → t ≠ "" → Room.topic document = Some t).
Proof.
  unfold room_selected, by_tags.
  cbn [RoomQuery.tags RoomQuery.topic RoomQuery.q RoomQuery.start_time
       RoomQuery.end_time].
  rewrite !andb_true_r, andb_true_iff, tags_carried.
  apply and_iff_compat_l. unfold str_truthy.
  destruct topic as [t|]; [|by split].
  destruct (Str.is_empty t) eqn:Ee; simpl.
  - split; [|done]. intros _ t' [= <-] Hne. by destruct t.
  - rewrite bool_decide_eq_true. split.
    + by intros -> t' [= <-] _.
    + intros Ht. apply Ht; [done|]. by intros ->.
Qed.



(** X27.  [RoomManager.list] reads the tags it is asked for without
    regard to the case of their letters, and the rooms it lists by tags and
    topic are the stored rooms that carry each of these tags in lower case
    and, when a topic is named, this topic. *)
Theorem rooms_listed_by_tags (rooms : list Room.t) (tags tags' : list string)
    (topic : option string) :
  Forall2 same_tag tags tags' →
  RoomManager_list rooms (by_tags tags topic)
  = RoomManager_list rooms (by_tags tags' topic)
  ∧ ∃ found,
      RoomManager_list rooms (by_tags tags topic) = Listed found
      ∧ ∀ out, out ∈ found
          ↔ ∃ document, document ∈ rooms ∧ out = room_out document
              ∧ (∀ tag, tag ∈ tags → Str.lower tag ∈ Room.tags document)
              ∧ (∀ t, topic = Some t → t ≠ "" → Room.topic document = Some t).
Proof.
  intros Hsame. split.
  - rewrite !by_tags_list. f_equal. f_equal. apply List.filter_ext. intros document.
    apply eq_true_iff_eq. rewrite !by_tags_selected.
    apply and_iff_compat_r. split.
    + intros Hall tag' Hin. apply list_elem_of_lookup in Hin as [i Hi].
      destruct (Forall2_lookup_r _ _ _ _ _ Hsame Hi) as (tag & Hl & Hs).
      rewrite <- Hs. apply Hall. by apply list_elem_of_lookup_2 with i.
    + intros Hall tag Hin. apply list_elem_of_lookup in Hin as [i Hi].
      destruct (Forall2_lookup_l _ _ _ _ _ Hsame Hi) as (tag' & Hl & Hs).
      rewrite Hs. apply Hall. by apply list_elem_of_lookup_2 with i.
  - rewrite by_tags_list. eexists. split; [reflexivity|].
    intros out. rewrite list_elem_of_fmap. split.
    + intros (document & -> & Hin). exists document.
      apply list_elem_of_In, filter_In in Hin as [Hin Hsel].
      apply by_tags_selected in Hsel. split; [by apply list_elem_of_In|done].
    + intros (document & Hin & -> & Hsel). exists document. split; [done|].
      apply list_elem_of_In, filter_In. split; [by apply list_elem_of_In|].
      by apply by_tags_selected.
Qed.

End RoomFacts.


Lemma rooms_listed_by_tags_witness :
  Forall2 same_tag ["fire"; "Safety"] ["FIRE"; "safety"]
  ∧ @RoomManager_list Sample.math plain_store
      (RoomManager_create [] fire_drill "r1").1 (by_tags ["fire"; "Safety"] None)
    = @RoomManager_list Sample.math plain_store
        (RoomManager_create [] fire_drill "r1").1 (by_tags ["FIRE"; "safety"] None).
Proof.
  assert (Forall2 same_tag ["fire"; "Safety"] ["FIRE"; "safety"]) as Hs
    by (repeat constructor).
  split; [exact Hs|].
  exact (proj1 (@rooms_listed_by_tags Sample.math plain_store
                  (RoomManager_create [] fire_drill "r1").1
                  ["fire"; "Safety"] ["FIRE"; "safety"] None Hs)).
Defined.

Lemma allowed_origins_read_witness :
  Settings.allowed_origins
    (Settings.__init__
       {[ "ALLOWED_ORIGINS" := join_commas ["http://localhost:3000";
                                            " https://chat.example "] ]})
  = ["http://localhost:3000"; "https://chat.example"].
Proof.
  destruct (allowed_origins_read
              {[ "ALLOWED_ORIGINS" := join_commas ["http://localhost:3000";
                                                   " https://chat.example "] ]})
    as (_ & _ & Hread & _).
  rewrite (Hread ["http://localhost:3000"; " https://chat.example "]).
  - reflexivity.
  - discriminate.
  - repeat constructor; unfold comma_free; apply (bool_decide_unpack _);
      vm_compute; reflexivity.
  - reflexivity.
Defined.
